(** * lpar/config: resolution of configuration values

    A shallow embedding of the Go package [config] (src/config.go, and the
    lazy-loading revision of the same package kept in src/unnamed/part_001)
    and of the example program written against it
    (src/example/example.go), with the parts of the Go standard library
    they call, and the properties of the package stated and proved over
    that embedding.

    Conventions.
    - A Go [string] is a sequence of bytes: [string] here, one [ascii] per
      byte.  A [*string] is an [option string]; [nil] is [None].
    - [int], [int64] and [uint64] are [Z]; [int] is 64 bits wide (GOARCH
      amd64, arm64).  Where Go arithmetic can wrap, the wrap is written out.
    - [float64] and [float32] are [spec_float] (sign, mantissa, exponent) in
      the canonical form of their format.
    - A method with receiver [c *Config] is a computation in the state monad
      over [Config]; methods that talk to the operating system also read a
      [Host] and report the calls they made. *)

From Stdlib Require Import ZArith List Ascii String Bool Lia DecimalString.
From Stdlib Require Import Floats.SpecFloat.
From Stdlib Require DecimalPos DecimalZ DecimalFacts.
From stdpp Require Import base option list strings gmap.
Import ListNotations.

Local Open Scope Z_scope.

(** ** Bytes *)

Definition ord (c : ascii) : Z := Z.of_N (N_of_ascii c).

Definition chr (b : Z) : ascii := ascii_of_N (Z.to_N b).

(** ** Error values

    [fmt.Errorf] is kept unrendered: the format string and its operands.
    An operand is a string ([%s]), an error ([%w], [%v]) or the name of a
    dynamic type ([%T]). *)

Inductive error : Type :=
| errors_New (text : string)
| NumError (Func Num : string) (Err : error)
| Errorf (format : string) (a : list operand)
with operand : Type :=
| a_string (s : string)
| a_error (e : error)
| a_type (T : string).

(** ** The state monad of a receiver *)

Definition M (S A : Type) : Type := S -> A * S.

Definition ret {S A} (a : A) : M S A := fun c => (a, c).

Definition bind {S A B} (m : M S A) (k : A -> M S B) : M S B :=
  fun c => let '(a, c') := m c in k a c'.

Declare Scope go_scope.
Delimit Scope go_scope with go.
Notation "'let*' x ':=' m 'in' k" := (bind m (fun x => k))
  (at level 10, x pattern, m at level 100, k at level 200, only parsing) : go_scope.
Notation "m ;; k" := (bind m (fun _ => k))
  (at level 100, k at level 200, only parsing, right associativity) : go_scope.
Local Open Scope go_scope.

Definition get {S} : M S S := fun c => (c, c).

Definition modify {S} (f : S -> S) : M S unit := fun c => (tt, f c).

(** * Package strconv

    Modelled from the documented behaviour of the Go standard library
    (go1.13 and later): [ParseInt], [ParseUint], [ParseFloat], [FormatInt],
    [FormatBool], [FormatFloat], [Itoa]. *)

Module strconv.

Definition ErrSyntax : error := errors_New "invalid syntax".
Definition ErrRange : error := errors_New "value out of range".

Definition syntaxError (fn str : string) : error := NumError fn str ErrSyntax.
Definition rangeError (fn str : string) : error := NumError fn str ErrRange.
Definition baseError (fn str : string) (base : Z) : error :=
  NumError fn str (Errorf "invalid base %d" [a_string (NilZero.string_of_int (Z.to_int base))]).
Definition bitSizeError (fn str : string) (bitSize : Z) : error :=
  NumError fn str (Errorf "invalid bit size %d" [a_string (NilZero.string_of_int (Z.to_int bitSize))]).

Definition IntSize : Z := 64.
Definition maxUint64 : Z := 2 ^ 64 - 1.

(** [lower(c)] is [c | ('x' - 'X')]. *)
Definition lower (c : Z) : Z := Z.lor c 32.

Definition isDigit (c : Z) : bool := (ord "0" <=? c) && (c <=? ord "9").
Definition isLetter (c : Z) : bool := (ord "a" <=? lower c) && (lower c <=? ord "z").
Definition isHexLetter (c : Z) : bool := (ord "a" <=? lower c) && (lower c <=? ord "f").

(** *** underscoreOK *)

Variant seen := seen_start | seen_digit | seen_underscore | seen_other.

Fixpoint underscoreOK_from (hex : bool) (saw : seen) (s : string) : bool :=
  match s with
  | EmptyString => match saw with seen_underscore => false | _ => true end
  | String c s' =>
      let b := ord c in
      if isDigit b || (hex && isHexLetter b) then underscoreOK_from hex seen_digit s'
      else if b =? ord "_" then
        match saw with
        | seen_digit => underscoreOK_from hex seen_underscore s'
        | _ => false
        end
      else
        match saw with
        | seen_underscore => false
        | _ => underscoreOK_from hex seen_other s'
        end
  end.

Definition dropSign (s : string) : string :=
  match s with
  | String c s' => if (ord c =? ord "-") || (ord c =? ord "+") then s' else s
  | EmptyString => s
  end.

Definition underscoreOK (s : string) : bool :=
  let s := dropSign s in
  match s with
  | String c0 (String c1 s') =>
      let p := lower (ord c1) in
      if (ord c0 =? ord "0") && ((p =? ord "b") || (p =? ord "o") || (p =? ord "x"))
      then underscoreOK_from (p =? ord "x") seen_digit s'
      else underscoreOK_from false seen_start s
  | _ => underscoreOK_from false seen_start s
  end.

(** *** ParseUint *)

Variant digits_result :=
| digits_ok (n : Z) (underscores : bool)
| digits_syntax
| digits_range.

(** The loop [for _, c := range []byte(s)] of [ParseUint]; [n] is a
    [uint64], its products and sums reduced modulo [2^64]. *)
Fixpoint ParseUint_digits (base0 : bool) (base cutoff maxVal : Z)
    (s : string) (n : Z) (underscores : bool) : digits_result :=
  match s with
  | EmptyString => digits_ok n underscores
  | String ch s' =>
      let c := ord ch in
      if (c =? ord "_") && base0 then
        ParseUint_digits base0 base cutoff maxVal s' n true
      else
        let d := if isDigit c then Some (c - ord "0")
                 else if isLetter c then Some (lower c - ord "a" + 10)
                 else None in
        match d with
        | None => digits_syntax
        | Some d =>
            if base <=? d then digits_syntax
            else if cutoff <=? n then digits_range
            else
              let n := (n * base) mod 2 ^ 64 in
              let n1 := (n + d) mod 2 ^ 64 in
              if (n1 <? n) || (maxVal <? n1) then digits_range
              else ParseUint_digits base0 base cutoff maxVal s' n1 underscores
        end
  end.

(** The base chosen for [base == 0], and the digits left after the prefix. *)
Definition basePrefix (s : string) : Z * string :=
  match s with
  | String c0 rest =>
      if ord c0 =? ord "0" then
        match rest with
        | String c1 (String c2 s') =>
            let p := lower (ord c1) in
            if p =? ord "b" then (2, String c2 s')
            else if p =? ord "o" then (8, String c2 s')
            else if p =? ord "x" then (16, String c2 s')
            else (8, rest)
        | _ => (8, rest)
        end
      else (10, s)
  | EmptyString => (10, s)
  end.

Definition fnParseUint : string := "ParseUint".

Definition ParseUint (s : string) (base bitSize : Z) : Z * option error :=
  if String.eqb s "" then (0, Some (syntaxError fnParseUint s))
  else
    let base0 := base =? 0 in
    let s0 := s in
    if negb (((2 <=? base) && (base <=? 36)) || base0)
    then (0, Some (baseError fnParseUint s0 base))
    else
      let '(base, s) := if base0 then basePrefix s else (base, s) in
      if (bitSize <? 0) || (64 <? bitSize)
      then (0, Some (bitSizeError fnParseUint s0 bitSize))
      else
        let bitSize := if bitSize =? 0 then IntSize else bitSize in
        let cutoff := maxUint64 / base + 1 in
        let maxVal := 2 ^ bitSize - 1 in
        match ParseUint_digits base0 base cutoff maxVal s 0 false with
        | digits_syntax => (0, Some (syntaxError fnParseUint s0))
        | digits_range => (maxVal, Some (rangeError fnParseUint s0))
        | digits_ok n underscores =>
            if underscores && negb (underscoreOK s0)
            then (0, Some (syntaxError fnParseUint s0))
            else (n, None)
        end.

(** *** ParseInt *)

Definition fnParseInt : string := "ParseInt".

Definition isErrRange (e : error) : bool :=
  match e with
  | NumError _ _ (errors_New t) => String.eqb t "value out of range"
  | _ => false
  end.

(** Sets the fields [Func] and [Num] of a [NumError]. *)
Definition retag (fn num : string) (e : error) : error :=
  match e with
  | NumError _ _ Err => NumError fn num Err
  | _ => e
  end.

Definition ParseInt (s : string) (base bitSize : Z) : Z * option error :=
  match s with
  | EmptyString => (0, Some (syntaxError fnParseInt s))
  | String c rest =>
      let s0 := s in
      let '(neg, s) :=
        if ord c =? ord "+" then (false, rest)
        else if ord c =? ord "-" then (true, rest)
        else (false, s) in
      let '(un, err) := ParseUint s base bitSize in
      let checked :=
        let bitSize := if bitSize =? 0 then IntSize else bitSize in
        let cutoff := 2 ^ (bitSize - 1) in
        if negb neg && (cutoff <=? un) then (cutoff - 1, Some (rangeError fnParseInt s0))
        else if neg && (cutoff <? un) then (- cutoff, Some (rangeError fnParseInt s0))
        else ((if neg then - un else un), None) in
      match err with
      | Some e => if negb (isErrRange e) then (0, Some (retag fnParseInt s0 e)) else checked
      | None => checked
      end
  end.

(** *** Floating point

    A [float64] is a [spec_float] canonical for precision 53 and exponent
    bound 1024, a [float32] one for 24 and 128. *)

Definition float64 : Type := spec_float.
Definition float32 : Type := spec_float.

(** The float of the given format nearest to [n / d] ([0 < n], [0 < d]),
    ties to even; an infinity when the quotient is out of range. *)
Definition roundRatio (prec emax : Z) (neg : bool) (n d : Z) : spec_float :=
  let '(q, e, l) := SFdiv_core_binary prec emax n 0 d 0 in
  binary_round_aux prec emax neg q e l.

(** The conversions [float32(x)] of a [float64] and [float64(x)] of a
    [float32]. *)
Definition to_float32 (x : float64) : float32 :=
  match x with
  | S754_finite s m e => binary_round 24 128 s m e
  | _ => x
  end.

Definition to_float64 (x : float32) : float64 :=
  match x with
  | S754_finite s m e => binary_round 53 1024 s m e
  | _ => x
  end.

(** The integer part of a finite float, the fraction discarded. *)
Definition truncate (x : spec_float) : option Z :=
  match x with
  | S754_zero _ => Some 0
  | S754_finite s m e =>
      let a := if 0 <=? e then Zpos m * 2 ^ e else Zpos m / 2 ^ (- e) in
      Some (if s then - a else a)
  | _ => None
  end.

(** The conversion [int64(x)] of a float.  The language leaves the result
    open when the value does not fit; this is the value amd64 produces. *)
Definition int64_indefinite : Z := - 2 ^ 63.

Definition to_int64 (x : spec_float) : Z :=
  match truncate x with
  | Some z => if (- 2 ^ 63 <=? z) && (z <? 2 ^ 63) then z else int64_indefinite
  | None => int64_indefinite
  end.

(** *** ParseFloat *)

(** A capital letter ([65] to [90]) made small, any other byte as it is. *)
Definition toLowerASCII (c : ascii) : ascii :=
  let b := ord c in if (65 <=? b) && (b <=? 90) then chr (b + 32) else c.

Fixpoint lowerASCII (s : string) : string :=
  match s with
  | EmptyString => EmptyString
  | String c s' => String (toLowerASCII c) (lowerASCII s')
  end.

(** The strings [special] accepts whole: a signed or unsigned "inf" or
    "infinity" and an unsigned "nan", in any case. *)
Definition special (s : string) : option float64 :=
  let '(sign, body) :=
    match s with
    | String c s' =>
        if ord c =? ord "+" then (Some false, s')
        else if ord c =? ord "-" then (Some true, s')
        else (None, s)
    | EmptyString => (None, s)
    end in
  let body := lowerASCII body in
  if String.eqb body "inf" || String.eqb body "infinity"
  then Some (S754_infinity (default false sign))
  else if String.eqb body "nan" then
    match sign with None => Some S754_nan | Some _ => None end
  else None.

Record mantissa := {
  digits : Z;       (* the digits read, as a number in the base *)
  fraction : Z;     (* how many of them follow the point *)
  sawdot : bool;
  sawdigits : bool;
  underscores : bool
}.

Definition pushDigit (base d : Z) (st : mantissa) : mantissa :=
  {| digits := digits st * base + d;
     fraction := if sawdot st then fraction st + 1 else fraction st;
     sawdot := sawdot st;
     sawdigits := true;
     underscores := underscores st |}.

(** The mantissa loop of [readFloat]; returns what is left of [s]. *)
Fixpoint readMantissa (hex : bool) (s : string) (st : mantissa) : mantissa * string :=
  match s with
  | EmptyString => (st, s)
  | String ch s' =>
      let c := ord ch in
      if c =? ord "_" then
        readMantissa hex s'
          {| digits := digits st; fraction := fraction st; sawdot := sawdot st;
             sawdigits := sawdigits st; underscores := true |}
      else if c =? ord "." then
        if sawdot st then (st, s)
        else readMantissa hex s'
          {| digits := digits st; fraction := fraction st; sawdot := true;
             sawdigits := sawdigits st; underscores := underscores st |}
      else if isDigit c then readMantissa hex s' (pushDigit (if hex then 16 else 10) (c - ord "0") st)
      else if hex && isHexLetter c then readMantissa hex s' (pushDigit 16 (lower c - ord "a" + 10) st)
      else (st, s)
  end.

(** The digits of an exponent; [e] stops growing at [10000]. *)
Fixpoint readExpDigits (s : string) (e : Z) (us : bool) : Z * bool * string :=
  match s with
  | EmptyString => (e, us, s)
  | String ch s' =>
      let c := ord ch in
      if c =? ord "_" then readExpDigits s' e true
      else if isDigit c then readExpDigits s' (if e <? 10000 then e * 10 + (c - ord "0") else e) us
      else (e, us, s)
  end.

Definition readExponent (hex : bool) (s : string) : option (Z * bool * string) :=
  let expChar := if hex then ord "p" else ord "e" in
  match s with
  | String ch s1 =>
      if lower (ord ch) =? expChar then
        match s1 with
        | EmptyString => None
        | String sg s2 =>
            let '(esign, s3) :=
              if ord sg =? ord "+" then (1, s2)
              else if ord sg =? ord "-" then (-1, s2)
              else (1, s1) in
            match s3 with
            | String d _ =>
                if isDigit (ord d) then
                  let '(e, us, rest) := readExpDigits s3 0 false in
                  Some (e * esign, us, rest)
                else None
            | EmptyString => None
            end
        end
      else if hex then None else Some (0, false, s)
  | EmptyString => if hex then None else Some (0, false, s)
  end.

(** What [readFloat] reads from a whole string: the sign, the digits [n]
    and the exponent [k] of the value [n * 10^k], or [n * 2^k] for a
    hexadecimal mantissa. *)
Definition readFloat (s : string) : option (bool * bool * Z * Z) :=
  match s with
  | EmptyString => None
  | String c rest =>
      let '(neg, s1) :=
        if ord c =? ord "+" then (false, rest)
        else if ord c =? ord "-" then (true, rest)
        else (false, s) in
      let '(hex, s2) :=
        match s1 with
        | String c0 (String c1 (String c2 s')) =>
            if (ord c0 =? ord "0") && (lower (ord c1) =? ord "x") then (true, String c2 s')
            else (false, s1)
        | _ => (false, s1)
        end in
      let '(st, s3) :=
        readMantissa hex s2
          {| digits := 0; fraction := 0; sawdot := false; sawdigits := false;
             underscores := false |} in
      if negb (sawdigits st) then None
      else
        match readExponent hex s3 with
        | None => None
        | Some (e, us, s4) =>
            if negb (String.eqb s4 "") then None
            else if (underscores st || us) && negb (underscoreOK s) then None
            else
              let k := if hex then e - 4 * fraction st else e - fraction st in
              Some (neg, hex, digits st, if digits st =? 0 then 0 else k)
        end
  end.

Definition fnParseFloat : string := "ParseFloat".

Definition isInfinity (x : spec_float) : bool :=
  match x with S754_infinity _ => true | _ => false end.

(** [ParseFloat(s, bitSize)]: the nearest float of the format ([float32]
    for [bitSize == 32], given back as a [float64]; [float64] otherwise). *)
Definition ParseFloat (s : string) (bitSize : Z) : float64 * option error :=
  match special s with
  | Some v => (v, None)
  | None =>
      match readFloat s with
      | None => (S754_zero false, Some (syntaxError fnParseFloat s))
      | Some (neg, hex, n, k) =>
          let '(prec, emax) := if bitSize =? 32 then (24, 128) else (53, 1024) in
          let base := if hex then 2 else 10 in
          let f :=
            if n =? 0 then S754_zero neg
            else if 0 <=? k then roundRatio prec emax neg (n * base ^ k) 1
            else roundRatio prec emax neg n (base ^ (- k)) in
          let f := if bitSize =? 32 then to_float64 f else f in
          (f, if isInfinity f then Some (rangeError fnParseFloat s) else None)
      end
  end.

(** *** Formatting *)

Definition FormatBool (b : bool) : string := if b then "true" else "false".

(** [FormatInt(i, 10)]. *)
Definition FormatInt10 (i : Z) : string := NilZero.string_of_int (Z.to_int i).

Definition Itoa (i : Z) : string := FormatInt10 i.

Fixpoint zeros (n : nat) : string :=
  match n with
  | O => EmptyString
  | S n' => String "0" (zeros n')
  end.

(** The digits of [c * 10^k] ([0 < c]) in positional notation, with as
    many fraction digits as [k] asks for and no more ([%f]). *)
Definition fmtF (c k : Z) : string :=
  if 0 <=? k then FormatInt10 (c * 10 ^ k)
  else
    let q := c / 10 ^ (- k) in
    let r := FormatInt10 (c mod 10 ^ (- k)) in
    FormatInt10 q +:+ "." +:+ zeros (Z.to_nat (- k) - String.length r) +:+ r.

(** The shortest decimal that reads back as the [float64] [m * 2^e].  The
    reals that round to that float lie between [lowerBound] and
    [upperBound], counted in units of [2^(e-2)]; the two bounds round to
    it as well when [m] is even. *)
Section Shortest.
Variables (m : positive) (e : Z).

Definition central : Z := 4 * Zpos m.
Definition upperBound : Z := 4 * Zpos m + 2.
Definition lowerBound : Z :=
  if (Zpos m =? 2 ^ 52) && negb (e =? -1074) then 4 * Zpos m - 1 else 4 * Zpos m - 2.
Definition inclusive : bool := Z.even (Zpos m).

(** [c * 10^k] compared with [N * 2^(e-2)]. *)
Definition compare10 (c k N : Z) : comparison :=
  (c * 10 ^ Z.max k 0 * 2 ^ Z.max (2 - e) 0
     ?= N * 2 ^ Z.max (e - 2) 0 * 10 ^ Z.max (- k) 0).

Definition inside (c k : Z) : bool :=
  match compare10 c k lowerBound, compare10 c k upperBound with
  | Gt, Lt => true
  | Eq, Lt | Gt, Eq => inclusive
  | _, _ => false
  end.

Definition floor10 (k : Z) : Z :=
  (central * 2 ^ Z.max (e - 2) 0 * 10 ^ Z.max (- k) 0)
    / (10 ^ Z.max k 0 * 2 ^ Z.max (2 - e) 0).

(** From the unit [10^k] down: the first unit at which the multiple below
    or the multiple above lies in the interval; the nearer of the two
    when both do, the even one on a tie. *)
Fixpoint shortestFrom (fuel : nat) (k : Z) : Z * Z :=
  let lo := floor10 k in
  let okdown := inside lo k in
  let okup := inside (lo + 1) k in
  if okdown && okup then
    match compare10 (2 * lo + 1) k (2 * central) with
    | Gt => (lo, k)
    | Lt => (lo + 1, k)
    | Eq => if Z.even lo then (lo, k) else (lo + 1, k)
    end
  else if okdown then (lo, k)
  else if okup then (lo + 1, k)
  else
    match fuel with
    | O => (lo, k)
    | S fuel' => shortestFrom fuel' (k - 1)
    end.

Definition shortest : Z * Z :=
  let k0 := Z.max 0 (Z.log2 upperBound + 1 + (e - 2)) in
  shortestFrom (Z.to_nat (k0 - Z.min e 0)) k0.
End Shortest.

(** [FormatFloat(v, 'f', -1, 64)]. *)
Definition FormatFloat_f (v : float64) : string :=
  match v with
  | S754_nan => "NaN"
  | S754_infinity s => if s then "-Inf" else "+Inf"
  | S754_zero s => if s then "-0" else "0"
  | S754_finite s m e =>
      let '(c, k) := shortest m e in
      (if s then "-" else "") +:+ fmtF c k
  end.

End strconv.

(** * Package strings

    [Contains], and the ASCII paths of [TrimSpace] and [EqualFold].  Both
    functions hand a string with a byte outside ASCII over to code driven
    by the Unicode tables; that code is not modelled and is taken as given
    ([Unicode]). *)

Module gostrings.

Definition RuneSelf : Z := 128.

(** [asciiSpace]: tab, newline, vertical tab, form feed, return ([9] to
    [13]) and space ([32]). *)
Definition asciiSpace (c : Z) : bool :=
  (c =? 9) || (c =? 10) || (c =? 11) || (c =? 12) || (c =? 13) || (c =? 32).

Fixpoint Contains (s substr : string) : bool :=
  String.prefix substr s ||
  match s with
  | EmptyString => false
  | String _ s' => Contains s' substr
  end.

Record Unicode := {
  TrimFunc_IsSpace : string -> string;       (* TrimFunc(s, unicode.IsSpace) *)
  TrimRightFunc_IsSpace : string -> string;  (* TrimRightFunc(s, unicode.IsSpace) *)
  EqualFold_hasUnicode : string -> string -> bool
    (* EqualFold from its label hasUnicode on, on what is left of s and t *)
}.

Section WithUnicode.
Variable U : Unicode.

(** The first loop of [TrimSpace]: [s[start:]], and whether the loop
    stopped on a byte outside ASCII. *)
Fixpoint trimStart (s : string) : bool * string :=
  match s with
  | EmptyString => (false, s)
  | String ch s' =>
      let c := ord ch in
      if RuneSelf <=? c then (true, s)
      else if asciiSpace c then trimStart s'
      else (false, s)
  end.

(** The second loop, from the end of the string: [s[:stop]], and whether
    it stopped on a byte outside ASCII. *)
Fixpoint trimStop (s : string) : bool * string :=
  match s with
  | EmptyString => (false, s)
  | String ch s' =>
      match trimStop s' with
      | (false, EmptyString) =>
          let c := ord ch in
          if RuneSelf <=? c then (true, String ch EmptyString)
          else if asciiSpace c then (false, EmptyString)
          else (false, String ch EmptyString)
      | (unicode, t) => (unicode, String ch t)
      end
  end.

Definition TrimSpace (s : string) : string :=
  let '(unicode, s1) := trimStart s in
  if unicode then TrimFunc_IsSpace U s1
  else
    let '(unicode, s2) := trimStop s1 in
    if unicode then TrimRightFunc_IsSpace U s2 else s2.

(** In the loop, ['A'] is [65], ['Z'] is [90] and ['a'] is [97]. *)
Fixpoint EqualFold (s t : string) : bool :=
  match s, t with
  | String a s', String b t' =>
      let sr := ord a in
      let tr := ord b in
      if RuneSelf <=? Z.lor sr tr then EqualFold_hasUnicode U s t
      else if tr =? sr then EqualFold s' t'
      else
        let '(sr, tr) := if tr <? sr then (tr, sr) else (sr, tr) in
        if (65 <=? sr) && (sr <=? 90) && (tr =? sr + 97 - 65) then EqualFold s' t'
        else false
  | EmptyString, EmptyString => true
  | _, _ => false
  end.
End WithUnicode.

(** The closed examples of this development run on ASCII text, on which
    none of the three functions of [Unicode] is called; they fix them so. *)
Definition asciiOnly : Unicode :=
  {| TrimFunc_IsSpace := fun s => s;
     TrimRightFunc_IsSpace := fun s => s;
     EqualFold_hasUnicode := fun _ _ => false |}.

End gostrings.

(** * Dynamic values and the TOML tree *)

(** A value of type [interface{}], by its dynamic type.  [any_other T] is
    a value of any dynamic type other than the five named here, [T] being
    the name [%T] prints for it. *)
Inductive any : Type :=
| any_nil
| any_bool (b : bool)
| any_int (i : Z)
| any_int64 (i : Z)
| any_float64 (f : strconv.float64)
| any_string (s : string)
| any_other (T : string).

(** What [%T] prints. *)
Definition typeName (x : any) : string :=
  match x with
  | any_nil => "<nil>"
  | any_bool _ => "bool"
  | any_int _ => "int"
  | any_int64 _ => "int64"
  | any_float64 _ => "float64"
  | any_string _ => "string"
  | any_other T => T
  end.

(** A [*toml.Tree], seen through [Has] and [Get]: a finite map from keys
    to values. *)
Module toml.
Abbreviation Tree := (gmap string any).

Definition Has (t : Tree) (key : string) : bool := bool_decide (is_Some (t !! key)).

Definition Get (t : Tree) (key : string) : any := default any_nil (t !! key).
End toml.

(** * The host: operating system, file system and TOML parser *)

Record Host := {
  environ : gmap string string;               (* the process environment *)
  os_Executable : string * option error;
  os_UserConfigDir : string * option error;
  os_UserHomeDir : string * option error;
  os_Stat : string -> option error;
  os_IsNotExist : error -> bool;
  os_Open : string -> option error;           (* [None]: a handle on the file *)
  file_Close : string -> option error;
  toml_LoadReader : string -> gmap string any + error;
  filepath_Join : list string -> string;
  filepath_Dir : string -> string;
  path_Dir : string -> string
}.

Definition os_LookupEnv (h : Host) (key : string) : option string := environ h !! key.

(** What a method asked of the host, in order. *)
Variant call :=
| call_LookupEnv (key : string)
| call_Executable
| call_UserConfigDir
| call_UserHomeDir
| call_Stat (name : string)
| call_Open (name : string)
| call_LoadReader (name : string)
| call_Close (name : string)
| call_Printf (e : error).

(** A method that talks to the host: the receiver and the calls made so
    far are its state. *)
Definition IO (C A : Type) : Type := M (C * list call) A.

Definition liftC {C A} (m : M C A) : IO C A :=
  fun '(c, l) => let '(a, c') := m c in (a, (c', l)).

Definition perform {C} (cl : call) : IO C unit :=
  fun '(c, l) => (tt, (c, l ++ [cl])).

(** ** Hosts for the examples

    [unixJoin] and [unixDir] agree with [filepath.Join], [filepath.Dir]
    and [path.Dir] on the clean, absolute Unix paths of the examples. *)

Definition unixJoin (elem : list string) : string := String.concat "/" elem.

Fixpoint beforeLastSlash (s : string) : option string :=
  match s with
  | EmptyString => None
  | String c s' =>
      match beforeLastSlash s' with
      | Some d => Some (String c d)
      | None => if ord c =? ord "/" then Some EmptyString else None
      end
  end.

Definition unixDir (s : string) : string :=
  match beforeLastSlash s with
  | Some EmptyString => "/"
  | Some d => d
  | None => "."
  end.

Definition ENOENT : error := errors_New "no such file or directory".

(** The tree of the tests: a string, an integer, a boolean and a float,
    [3.14159]. *)
Definition testTree : gmap string any :=
  {[ "alpha" := any_string "Some string";
     "beta" := any_int64 42;
     "gamma" := any_bool true;
     "delta" := any_float64 (S754_finite false 7074231776675438 (-51)) ]}.

(** A host on which the backing file of the application is in place. *)
Definition furnished : Host :=
  {| environ := {[ "MY_ENV_VAR" := "some bytes"; "MY_BLANK_ENV_VAR" := "" ]};
     os_Executable := ("/opt/app/app", None);
     os_UserConfigDir := ("/home/u/.config", None);
     os_UserHomeDir := ("/home/u", None);
     os_Stat := fun _ => None;
     os_IsNotExist := fun _ => false;
     os_Open := fun _ => None;
     file_Close := fun _ => None;
     toml_LoadReader := fun _ => inl testTree;
     filepath_Join := unixJoin;
     filepath_Dir := unixDir;
     path_Dir := unixDir |}.

(** A host that knows the directories but on which no file can be opened,
    or even looked at. *)
Definition bare : Host :=
  {| environ := ∅;
     os_Executable := ("/opt/app/app", None);
     os_UserConfigDir := ("/home/u/.config", None);
     os_UserHomeDir := ("/home/u", None);
     os_Stat := fun _ => Some (errors_New "permission denied");
     os_IsNotExist := fun _ => false;
     os_Open := fun _ => Some ENOENT;
     file_Close := fun _ => None;
     toml_LoadReader := fun _ => inr (errors_New "unreachable");
     filepath_Join := unixJoin;
     filepath_Dir := unixDir;
     path_Dir := unixDir |}.

(** A host that cannot tell any directory. *)
Definition hostile : Host :=
  {| environ := ∅;
     os_Executable := ("", Some (errors_New "cannot find executable"));
     os_UserConfigDir := ("", Some (errors_New "neither $XDG_CONFIG_HOME nor $HOME are defined"));
     os_UserHomeDir := ("", Some (errors_New "$HOME is not defined"));
     os_Stat := fun _ => None;
     os_IsNotExist := fun _ => false;
     os_Open := fun _ => None;
     file_Close := fun _ => None;
     toml_LoadReader := fun _ => inl ∅;
     filepath_Join := unixJoin;
     filepath_Dir := unixDir;
     path_Dir := unixDir |}.

(** A host on which the backing file opens but neither parses nor closes. *)
Definition garbled : Host :=
  {| environ := ∅;
     os_Executable := ("/opt/app/app", None);
     os_UserConfigDir := ("/home/u/.config", None);
     os_UserHomeDir := ("/home/u", None);
     os_Stat := fun _ => None;
     os_IsNotExist := fun _ => false;
     os_Open := fun _ => None;
     file_Close := fun _ => Some (errors_New "close: input/output error");
     toml_LoadReader := fun _ => inr (errors_New "toml: unexpected token");
     filepath_Join := unixJoin;
     filepath_Dir := unixDir;
     path_Dir := unixDir |}.

(** The host of the tests of the repository: one file exists, the one
    written by [makeTestFile]. *)
Definition testFile : string := "/tmp/GoLparConfigTest/test.toml".

Definition testHost : Host :=
  {| environ := {[ "MY_ENV_VAR" := "some bytes"; "MY_BLANK_ENV_VAR" := "" ]};
     os_Executable := ("/opt/app/app", None);
     os_UserConfigDir := ("/tmp/GoLparConfigTest", None);
     os_UserHomeDir := ("/home/u", None);
     os_Stat := fun name => if String.eqb name testFile then None else Some ENOENT;
     os_IsNotExist := fun _ => true;
     os_Open := fun name => if String.eqb name testFile then None else Some ENOENT;
     file_Close := fun _ => None;
     toml_LoadReader := fun _ => inl testTree;
     filepath_Join := unixJoin;
     filepath_Dir := unixDir;
     path_Dir := unixDir |}.

(** * Code the two revisions of the package share *)

(** The body of the loop of [ResolveInt] up to [if err != nil]: the value
    and the error of the parse, [floatBits] being the [bitSize] handed to
    [ParseFloat]. *)
Definition parseInt (floatBits : Z) (elem : string) : Z * option error :=
  if gostrings.Contains elem "." then
    let '(tv, err) := strconv.ParseFloat elem floatBits in
    let v := strconv.to_float32 tv in
    (strconv.to_int64 v, err)
  else strconv.ParseInt elem 0 64.

(** * Package config, src/config.go *)

Module Eager.

Import strconv gostrings.

Definition Basis : Type := Z.

Record Config := {
  AppName : string;
  FileBase : string;
  Location : Basis;
  fileData : option toml.Tree;
  Errors : list error;
  TrueStrings : list string;
  FalseStrings : list string
}.

Definition New (appname : string) : Config :=
  {| AppName := appname;
     FileBase := "config";
     Location := 0;
     fileData := None;
     Errors := [];
     TrueStrings := ["true"];
     FalseStrings := ["false"] |}.

Definition withErrors (es : list error) (c : Config) : Config :=
  {| AppName := AppName c; FileBase := FileBase c; Location := Location c;
     fileData := fileData c; Errors := es;
     TrueStrings := TrueStrings c; FalseStrings := FalseStrings c |}.

Definition withFileData (t : option toml.Tree) (c : Config) : Config :=
  {| AppName := AppName c; FileBase := FileBase c; Location := Location c;
     fileData := t; Errors := Errors c;
     TrueStrings := TrueStrings c; FalseStrings := FalseStrings c |}.

(** [c.Errors = append(c.Errors, e)]. *)
Definition appendError (e : error) : M Config unit :=
  modify (fun c => withErrors (Errors c ++ [e]) c).

(** The receiver after the errors [es] were appended one by one. *)
Definition addErrors (es : list error) (c : Config) : Config :=
  withErrors (Errors c ++ es) c.

(** ** File resolving *)

Definition FileFromExecutable (h : Host) : IO Config string :=
  perform call_Executable;;
  let '(dir, err) := os_Executable h in
  match err with
  | Some e => liftC (appendError e);; ret ""
  | None =>
      let* c := liftC get in
      ret (filepath_Join h [filepath_Dir h dir; FileBase c +:+ ".toml"])
  end.

Definition FileFromHome (h : Host) : IO Config string :=
  perform call_UserConfigDir;;
  let '(dir, err) := os_UserConfigDir h in
  match err with
  | Some e => liftC (appendError e);; ret ""
  | None =>
      let* c := liftC get in
      ret (filepath_Join h [dir; AppName c; FileBase c +:+ ".toml"])
  end.

Definition fileExists (h : Host) (name : string) : IO Config (bool * option error) :=
  perform (call_Stat name);;
  let err := os_Stat h name in
  match err with
  | Some e => if os_IsNotExist h e then ret (false, None) else ret (false, Some e)
  | None => ret (true, None)
  end.

Fixpoint Find (h : Host) (list : list string) : IO Config string :=
  match list with
  | [] => ret ""
  | elem :: rest =>
      if negb (String.eqb elem "") then
        let* (exists_, err) := fileExists h elem in
        match err with
        | Some e => perform (call_Printf e);; Find h rest
        | None => if exists_ then ret elem else Find h rest
        end
      else Find h rest
  end.

Definition Load (h : Host) (filename : string) : IO Config unit :=
  perform (call_Open filename);;
  match os_Open h filename with
  | Some e => liftC (appendError e)
  | None =>
      perform (call_LoadReader filename);;
      match toml_LoadReader h filename with
      | inr e => liftC (appendError e)
      | inl filedata => liftC (modify (withFileData (Some filedata)))
      end;;
      (* the deferred function *)
      perform (call_Close filename);;
      match file_Close h filename with
      | Some e => liftC (appendError e)
      | None => ret tt
      end
  end.

Definition FindAndLoad (h : Host) (list : list string) : IO Config string :=
  let* fn := Find h list in
  (if negb (String.eqb fn "") then Load h fn else ret tt);;
  ret fn.

(** ** Value resolution *)

Fixpoint ResolveString (list : list (option string)) : M Config string :=
  match list with
  | [] => appendError (Errorf "missing default string value" []);; ret ""
  | elem :: rest =>
      match elem with
      | Some s => ret s
      | None => ResolveString rest
      end
  end.

Definition toString (x : any) : M Config string :=
  match x with
  | any_int64 v => ret (FormatInt10 v)
  | any_int v => ret (FormatInt10 v)
  | any_bool v => ret (FormatBool v)
  | any_float64 v => ret (FormatFloat_f v)
  | any_string v => ret v
  | _ => appendError (Errorf "unexpected data type %T" [a_type (typeName x)]);; ret ""
  end.

(** [int(val)] is [val]: an [int] holds every [int64]. *)
Fixpoint ResolveInt (list : list (option string)) : M Config Z :=
  match list with
  | [] => appendError (Errorf "missing default int value" []);; ret 0
  | elem :: rest =>
      match elem with
      | Some s =>
          if negb (String.eqb s "") then
            let '(val, err) := parseInt 64 s in
            match err with
            | Some e =>
                appendError (Errorf "unrecognized numeric value '%s': %w" [a_string s; a_error e]);;
                ResolveInt rest
            | None => ret val
            end
          else ResolveInt rest
      | None => ResolveInt rest
      end
  end.

Fixpoint ResolveFloat64 (list : list (option string)) : M Config float64 :=
  match list with
  | [] => appendError (Errorf "missing default int value" []);; ret (S754_zero false)
  | elem :: rest =>
      match elem with
      | Some s =>
          if negb (String.eqb s "") then
            let '(val, err) := ParseFloat s 64 in
            match err with
            | Some e =>
                appendError (Errorf "unrecognized numeric value '%s': %w" [a_string s; a_error e]);;
                ResolveFloat64 rest
            | None => ret val
            end
          else ResolveFloat64 rest
      | None => ResolveFloat64 rest
      end
  end.

Section WithUnicode.
Variable U : Unicode.

(** One of the two loops of [stringToBool]. *)
Fixpoint foldsTo (tbs : string) (list : list string) : bool :=
  match list with
  | [] => false
  | ts :: rest => if EqualFold U tbs ts then true else foldsTo tbs rest
  end.

Definition stringToBool (bs : string) : M Config (bool * bool) :=
  let* c := get in
  let tbs := TrimSpace U bs in
  if foldsTo tbs (TrueStrings c) then ret (true, true)
  else if foldsTo tbs (FalseStrings c) then ret (false, true)
  else ret (false, false).

Fixpoint ResolveBool (list : list (option string)) : M Config bool :=
  match list with
  | [] => appendError (Errorf "missing default bool value" []);; ret false
  | elem :: rest =>
      match elem with
      | Some s =>
          if negb (String.eqb s "") then
            let* (b, ok) := stringToBool s in
            (if negb ok then appendError (Errorf "unrecognized bool value %s" [a_string s])
             else ret tt);;
            ret b
          else ResolveBool rest
      | None => ResolveBool rest
      end
  end.
End WithUnicode.

(** ** Providers *)

Definition FromEnv (h : Host) (key : string) : IO Config (option string) :=
  perform (call_LookupEnv key);;
  match os_LookupEnv h key with
  | Some x => ret (Some x)
  | None => ret None
  end.

Definition FromFile (key : string) : M Config (option string) :=
  let* c := get in
  match fileData c with
  | None => ret None
  | Some t =>
      if toml.Has t key then
        let v := toml.Get t key in
        let* x := toString v in
        ret (Some x)
      else ret None
  end.

Definition UserHomeDir (h : Host) : IO Config (option string) :=
  perform call_UserHomeDir;;
  let '(home, err) := os_UserHomeDir h in
  match err with
  | Some e =>
      liftC (appendError (Errorf "couldn't locate home directory: %w" [a_error e]));;
      ret None
  | None => ret (Some home)
  end.

Definition UserConfigDir (h : Host) : IO Config (option string) :=
  perform call_UserConfigDir;;
  let '(home, err) := os_UserConfigDir h in
  match err with
  | Some e =>
      liftC (appendError (Errorf "couldn't locate home directory: %w" [a_error e]));;
      ret None
  | None => ret (Some home)
  end.

Definition Executable (h : Host) : IO Config (option string) :=
  perform call_Executable;;
  let '(exe, err) := os_Executable h in
  match err with
  | Some e =>
      liftC (appendError (Errorf "couldn't locate executable: %w" [a_error e]));;
      ret None
  | None => ret (Some (path_Dir h exe))
  end.

Definition Default (x : any) : M Config (option string) :=
  match x with
  | any_nil => ret None
  | any_bool y => ret (Some (FormatBool y))
  | any_int y => ret (Some (Itoa y))
  | any_string y => ret (Some y)
  | _ => ret None
  end.

End Eager.

(** * Package config, src/unnamed/part_001: the lazy loader

    The revision that loads the backing file on the first [FromFile].  It
    has no [ResolveFloat64]; its [ResolveString], [stringToBool],
    [ResolveBool], [FromEnv], [UserHomeDir], [UserConfigDir], [Executable]
    and [Default] read as those of src/config.go do, over its own
    [Config]. *)

Module Lazy.

Import strconv gostrings.

Definition Basis : Type := Z.
Definition RelativeToUser : Basis := 0.
Definition RelativeToExecutable : Basis := 1.

Record Config := {
  AppName : string;
  FileBase : string;
  Location : Basis;
  fileData : option toml.Tree;
  loadAttempted : bool;
  PrefsFile : string;
  Errors : list error;
  Warnings : list error;
  TrueStrings : list string;
  FalseStrings : list string
}.

Definition New (appname : string) : Config :=
  {| AppName := appname;
     FileBase := "config";
     Location := RelativeToUser;
     fileData := None;
     loadAttempted := false;
     PrefsFile := "";
     Errors := [];
     Warnings := [];
     TrueStrings := ["true"];
     FalseStrings := ["false"] |}.

Definition withErrors (es : list error) (c : Config) : Config :=
  {| AppName := AppName c; FileBase := FileBase c; Location := Location c;
     fileData := fileData c; loadAttempted := loadAttempted c;
     PrefsFile := PrefsFile c; Errors := es; Warnings := Warnings c;
     TrueStrings := TrueStrings c; FalseStrings := FalseStrings c |}.

Definition withWarnings (ws : list error) (c : Config) : Config :=
  {| AppName := AppName c; FileBase := FileBase c; Location := Location c;
     fileData := fileData c; loadAttempted := loadAttempted c;
     PrefsFile := PrefsFile c; Errors := Errors c; Warnings := ws;
     TrueStrings := TrueStrings c; FalseStrings := FalseStrings c |}.

Definition withLoadAttempted (b : bool) (c : Config) : Config :=
  {| AppName := AppName c; FileBase := FileBase c; Location := Location c;
     fileData := fileData c; loadAttempted := b;
     PrefsFile := PrefsFile c; Errors := Errors c; Warnings := Warnings c;
     TrueStrings := TrueStrings c; FalseStrings := FalseStrings c |}.

(** [c.fileData = filedata; c.PrefsFile = pfile]. *)
Definition withLoaded (t : toml.Tree) (pfile : string) (c : Config) : Config :=
  {| AppName := AppName c; FileBase := FileBase c; Location := Location c;
     fileData := Some t; loadAttempted := loadAttempted c;
     PrefsFile := pfile; Errors := Errors c; Warnings := Warnings c;
     TrueStrings := TrueStrings c; FalseStrings := FalseStrings c |}.

Definition appendError (e : error) : M Config unit :=
  modify (fun c => withErrors (Errors c ++ [e]) c).

Definition appendWarning (e : error) : M Config unit :=
  modify (fun c => withWarnings (Warnings c ++ [e]) c).

Definition addErrors (es : list error) (c : Config) : Config :=
  withErrors (Errors c ++ es) c.

Definition addWarnings (ws : list error) (c : Config) : Config :=
  withWarnings (Warnings c ++ ws) c.

Definition prefsFileName (h : Host) : IO Config (string * option error) :=
  let* c := liftC get in
  if Location c =? RelativeToExecutable then
    perform call_Executable;;
    let '(dir, err) := os_Executable h in
    match err with
    | Some e => ret (dir, Some e)
    | None => ret (filepath_Join h [dir; FileBase c +:+ ".toml"], None)
    end
  else
    perform call_UserConfigDir;;
    let '(dir, err) := os_UserConfigDir h in
    match err with
    | Some e => ret (dir, Some e)
    | None => ret (filepath_Join h [dir; AppName c; FileBase c +:+ ".toml"], None)
    end.

Definition tomlError (filename stage : string) (err : error) : M Config unit :=
  let werr :=
    Errorf "can't %s TOML preference file %s: %w"
      [a_string stage; a_string filename; a_error err] in
  if String.eqb stage "locate" then appendWarning werr else appendError werr.

Definition loadTOML (h : Host) : IO Config unit :=
  let* c := liftC get in
  if loadAttempted c then ret tt
  else
    liftC (modify (withLoadAttempted true));;
    let* (pfile, err) := prefsFileName h in
    match err with
    | Some e => liftC (appendError e)
    | None =>
        perform (call_Open pfile);;
        match os_Open h pfile with
        | Some e => liftC (appendWarning e)
        | None =>
            perform (call_LoadReader pfile);;
            match toml_LoadReader h pfile with
            | inr e => liftC (appendError e)
            | inl filedata => liftC (modify (withLoaded filedata pfile))
            end;;
            (* the deferred function *)
            perform (call_Close pfile);;
            match file_Close h pfile with
            | Some e => liftC (appendError e)
            | None => ret tt
            end
        end
    end.

Definition toString (x : any) : M Config string :=
  match x with
  | any_int64 v => ret (FormatInt10 v)
  | any_int v => ret (FormatInt10 v)
  | any_bool v => ret (FormatBool v)
  | any_float64 v => ret (FormatFloat_f v)
  | any_string v => ret v
  | _ => appendError (Errorf "unexpected data type %T" [a_type (typeName x)]);; ret ""
  end.

Definition FromFile (h : Host) (key : string) : IO Config (option string) :=
  loadTOML h;;
  let* c := liftC get in
  match fileData c with
  | None => ret None
  | Some t =>
      if toml.Has t key then
        let v := toml.Get t key in
        let* x := liftC (toString v) in
        ret (Some x)
      else ret None
  end.

Fixpoint ResolveInt (list : list (option string)) : M Config Z :=
  match list with
  | [] => appendError (Errorf "missing default int value" []);; ret 0
  | elem :: rest =>
      match elem with
      | Some s =>
          if negb (String.eqb s "") then
            let '(val, err) := parseInt 32 s in
            match err with
            | Some e =>
                appendError (Errorf "unrecognized numeric value '%s': %w" [a_string s; a_error e]);;
                ResolveInt rest
            | None => ret val
            end
          else ResolveInt rest
      | None => ResolveInt rest
      end
  end.

Fixpoint ResolveString (list : list (option string)) : M Config string :=
  match list with
  | [] => appendError (Errorf "missing default string value" []);; ret ""
  | elem :: rest =>
      match elem with
      | Some s => ret s
      | None => ResolveString rest
      end
  end.

Section WithUnicode.
Variable U : Unicode.

Fixpoint foldsTo (tbs : string) (list : list string) : bool :=
  match list with
  | [] => false
  | ts :: rest => if EqualFold U tbs ts then true else foldsTo tbs rest
  end.

Definition stringToBool (bs : string) : M Config (bool * bool) :=
  let* c := get in
  let tbs := TrimSpace U bs in
  if foldsTo tbs (TrueStrings c) then ret (true, true)
  else if foldsTo tbs (FalseStrings c) then ret (false, true)
  else ret (false, false).

Fixpoint ResolveBool (list : list (option string)) : M Config bool :=
  match list with
  | [] => appendError (Errorf "missing default bool value" []);; ret false
  | elem :: rest =>
      match elem with
      | Some s =>
          if negb (String.eqb s "") then
            let* (b, ok) := stringToBool s in
            (if negb ok then appendError (Errorf "unrecognized bool value %s" [a_string s])
             else ret tt);;
            ret b
          else ResolveBool rest
      | None => ResolveBool rest
      end
  end.
End WithUnicode.

Definition FromEnv (h : Host) (key : string) : IO Config (option string) :=
  perform (call_LookupEnv key);;
  match os_LookupEnv h key with
  | Some x => ret (Some x)
  | None => ret None
  end.

Definition UserHomeDir (h : Host) : IO Config (option string) :=
  perform call_UserHomeDir;;
  let '(home, err) := os_UserHomeDir h in
  match err with
  | Some e =>
      liftC (appendError (Errorf "couldn't locate home directory: %w" [a_error e]));;
      ret None
  | None => ret (Some home)
  end.

Definition UserConfigDir (h : Host) : IO Config (option string) :=
  perform call_UserConfigDir;;
  let '(home, err) := os_UserConfigDir h in
  match err with
  | Some e =>
      liftC (appendError (Errorf "couldn't locate home directory: %w" [a_error e]));;
      ret None
  | None => ret (Some home)
  end.

Definition Executable (h : Host) : IO Config (option string) :=
  perform call_Executable;;
  let '(exe, err) := os_Executable h in
  match err with
  | Some e =>
      liftC (appendError (Errorf "couldn't locate executable: %w" [a_error e]));;
      ret None
  | None => ret (Some (path_Dir h exe))
  end.

Definition Default (x : any) : M Config (option string) :=
  match x with
  | any_nil => ret None
  | any_bool y => ret (Some (FormatBool y))
  | any_int y => ret (Some (Itoa y))
  | any_string y => ret (Some y)
  | _ => ret None
  end.

End Lazy.

(** * The example program, src/example/example.go

    [loadConfig] is the caller the package is written for: it looks for a
    backing file in three places, resolves three settings, each from the
    environment, the file and a default, hands them to package [flag] as
    the default values of three flags, and logs the errors and the
    outcome. *)

Module example.

Import strconv gostrings Eager.

(** What the program wrote: with [fmt.Printf] on standard output, with
    [log.Printf] on the log.  The format is the one of the source, its
    operands as in [Errorf]; for [%v] of a boolean or an [int] the operand
    is the text [%v] prints. *)
Variant output :=
| fmt_Printf (format : string) (a : list operand)
| log_Printf (format : string) (a : list operand).

(** [conf.TrueStrings = ts; conf.FalseStrings = fs]. *)
Definition withVocabulary (ts fs : list string) (c : Config) : Config :=
  {| AppName := AppName c; FileBase := FileBase c; Location := Location c;
     fileData := fileData c; Errors := Errors c;
     TrueStrings := ts; FalseStrings := fs |}.

(** [conf], once [loadConfig] has made it and set its vocabularies. *)
Definition conf : Config :=
  withVocabulary ["true"; "yes"] ["false"; "no"] (New "MyAppName").

Section Program.
Variable U : Unicode.
Variable h : Host.

(** [flag.Parse()], by what it makes of the three flags: from their
    default values, the values they hold when it returns; [None] when it
    ends the program instead (a flag that does not parse, [-h]). *)
Variable flag_Parse : bool * string * Z -> option (bool * string * Z).

(** [conf.FindAndLoad(conf.FileFromExecutable(), conf.FileFromHome(),
    "/tmp/test.toml")]: the operands first, from left to right. *)
Definition locate : IO Config string :=
  let* fromExecutable := FileFromExecutable h in
  let* fromHome := FileFromHome h in
  FindAndLoad h [fromExecutable; fromHome; "/tmp/test.toml"].

(** The default value of the flag [-debug]. *)
Definition debugDefault : IO Config bool :=
  let* env := FromEnv h "DEBUG" in
  let* file := liftC (FromFile "debug") in
  let* def := liftC (Default (any_bool false)) in
  liftC (ResolveBool U [env; file; def]).

(** The default value of the flag [-baseDir]. *)
Definition baseDefault : IO Config string :=
  let* env := FromEnv h "APP_DIR" in
  let* file := liftC (FromFile "home") in
  let* home := UserHomeDir h in
  let* exe := Executable h in
  let* env2 := FromEnv h "HOME" in
  let* def := liftC (Default (any_string "/home/meta")) in
  liftC (ResolveString [env; file; home; exe; env2; def]).

(** The default value of the flag [-age]. *)
Definition ageDefault : IO Config Z :=
  let* env := FromEnv h "USER_AGE" in
  let* file := liftC (FromFile "age") in
  let* def := liftC (Default (any_int 16)) in
  liftC (ResolveInt [env; file; def]).

(** [loadConfig], from [locn := conf.FindAndLoad(...)] on; the receiver
    it starts from is [conf]. *)
Definition loadConfig : IO Config (list output) :=
  let* locn := locate in
  let loadedFrom :=
    if negb (String.eqb locn "")
    then [fmt_Printf "Loaded config from %s\n" [a_string locn]]
    else [] in
  let* debug := debugDefault in
  let* base := baseDefault in
  let* age := ageDefault in
  match flag_Parse (debug, base, age) with
  | None => ret loadedFrom
  | Some (debug, base, age) =>
      let* c := liftC get in
      ret (loadedFrom
           ++ map (fun err => log_Printf "error: %v" [a_error err]) (Errors c)
           ++ [log_Printf "debug = %v" [a_string (FormatBool debug)];
               log_Printf "baseDir = %v" [a_string base];
               log_Printf "age = %v" [a_string (Itoa age)]])
  end.

Definition main : list output * (Config * list call) := loadConfig (conf, []).
End Program.

End example.

(** * Properties *)

Arguments parseInt : simpl never.
Arguments strconv.ParseFloat : simpl never.
Arguments strconv.ParseInt : simpl never.
Arguments gostrings.TrimSpace : simpl never.

(** ** The error list only grows *)

Lemma Eager_addErrors_nil (c : Eager.Config) : Eager.addErrors [] c = c.
Proof. destruct c. unfold Eager.addErrors, Eager.withErrors. simpl. by rewrite app_nil_r. Qed.

Lemma Eager_addErrors_app (es1 es2 : list error) (c : Eager.Config) :
  Eager.addErrors es2 (Eager.addErrors es1 c) = Eager.addErrors (es1 ++ es2) c.
Proof. unfold Eager.addErrors, Eager.withErrors. simpl. by rewrite app_assoc. Qed.

Lemma Eager_appendError (e : error) (c : Eager.Config) :
  Eager.appendError e c = (tt, Eager.addErrors [e] c).
Proof. reflexivity. Qed.

Lemma Lazy_addErrors_nil (c : Lazy.Config) : Lazy.addErrors [] c = c.
Proof. destruct c. unfold Lazy.addErrors, Lazy.withErrors. simpl. by rewrite app_nil_r. Qed.

Lemma Lazy_addErrors_app (es1 es2 : list error) (c : Lazy.Config) :
  Lazy.addErrors es2 (Lazy.addErrors es1 c) = Lazy.addErrors (es1 ++ es2) c.
Proof. unfold Lazy.addErrors, Lazy.withErrors. simpl. by rewrite app_assoc. Qed.

(** ** Errors by kind *)

Definition isMissingDefault (e : error) : bool :=
  match e with
  | Errorf format [] => String.prefix "missing default" format
  | _ => false
  end.

Definition numericError (s : string) (e : error) : error :=
  Errorf "unrecognized numeric value '%s': %w" [a_string s; a_error e].

Definition boolError (s : string) : error :=
  Errorf "unrecognized bool value %s" [a_string s].

Definition typeError (x : any) : error :=
  Errorf "unexpected data type %T" [a_type (typeName x)].

(** ** Exhaustion *)

Section Exhaustion.
Variable U : gostrings.Unicode.

Lemma ResolveString_absent (n : nat) (c : Eager.Config) :
  Eager.ResolveString (replicate n None) c
  = ("", Eager.addErrors [Errorf "missing default string value" []] c).
Proof. induction n as [|n IH]; [reflexivity | exact IH]. Qed.

Lemma ResolveInt_absent (n : nat) (c : Eager.Config) :
  Eager.ResolveInt (replicate n None) c
  = (0, Eager.addErrors [Errorf "missing default int value" []] c).
Proof. induction n as [|n IH]; [reflexivity | exact IH]. Qed.

Lemma ResolveFloat64_absent (n : nat) (c : Eager.Config) :
  Eager.ResolveFloat64 (replicate n None) c
  = (S754_zero false, Eager.addErrors [Errorf "missing default int value" []] c).
Proof. induction n as [|n IH]; [reflexivity | exact IH]. Qed.

Lemma ResolveBool_absent (n : nat) (c : Eager.Config) :
  Eager.ResolveBool U (replicate n None) c
  = (false, Eager.addErrors [Errorf "missing default bool value" []] c).
Proof. induction n as [|n IH]; [reflexivity | exact IH]. Qed.

Lemma Lazy_ResolveInt_absent (n : nat) (c : Lazy.Config) :
  Lazy.ResolveInt (replicate n None) c
  = (0, Lazy.addErrors [Errorf "missing default int value" []] c).
Proof. induction n as [|n IH]; [reflexivity | exact IH]. Qed.

(** C3. A resolver given no candidate, or absent candidates only,
    returns the zero value of its type (the empty string, [0], [+0.0],
    [false]) and appends exactly one error, a "missing default" one, to
    the error list of the context, which it leaves as it was otherwise. *)
Theorem resolve_exhausted (n : nat) (c : Eager.Config) (c' : Lazy.Config) :
  (exists e, isMissingDefault e = true /\
     Eager.ResolveString (replicate n None) c = ("", Eager.addErrors [e] c)) /\
  (exists e, isMissingDefault e = true /\
     Eager.ResolveInt (replicate n None) c = (0, Eager.addErrors [e] c)) /\
  (exists e, isMissingDefault e = true /\
     Eager.ResolveFloat64 (replicate n None) c = (S754_zero false, Eager.addErrors [e] c)) /\
  (exists e, isMissingDefault e = true /\
     Eager.ResolveBool U (replicate n None) c = (false, Eager.addErrors [e] c)) /\
  (exists e, isMissingDefault e = true /\
     Lazy.ResolveInt (replicate n None) c' = (0, Lazy.addErrors [e] c')).
Proof.
  repeat split; eexists; (split; [| first
    [ apply ResolveString_absent | apply ResolveInt_absent
    | apply ResolveFloat64_absent | apply ResolveBool_absent
    | apply Lazy_ResolveInt_absent ]]); reflexivity.
Qed.
End Exhaustion.

(** ** The walk of the numeric resolvers

    [ResolveInt] and [ResolveFloat64] are one loop, up to the parser, the
    zero value and the text of the last error. *)

Section Walk.
Context {C V : Type}.
Variable parse : string -> V * option error.
Variable addErrors : list error -> C -> C.
Variable zero : V.
Variable missing : error.

Hypothesis addErrors_nil : forall c, addErrors [] c = c.
Hypothesis addErrors_app :
  forall es1 es2 c, addErrors es2 (addErrors es1 c) = addErrors (es1 ++ es2) c.

Fixpoint walk (list : list (option string)) : M C V :=
  match list with
  | [] => fun c => (zero, addErrors [missing] c)
  | elem :: rest =>
      match elem with
      | Some s =>
          if negb (String.eqb s "") then
            let '(val, err) := parse s in
            match err with
            | Some e => fun c => walk rest (addErrors [numericError s e] c)
            | None => ret val
            end
          else walk rest
      | None => walk rest
      end
  end.

(** The candidate at which the walk stops: present, not empty, and
    parsed without an error. *)
Definition resolves (elem : option string) : bool :=
  match elem with
  | Some s =>
      negb (String.eqb s "") &&
      match snd (parse s) with Some _ => false | None => true end
  | None => false
  end.

(** The error a candidate leaves behind when the walk passes it. *)
Definition passed (elem : option string) : list error :=
  match elem with
  | Some s =>
      if String.eqb s "" then []
      else match snd (parse s) with Some e => [numericError s e] | None => [] end
  | None => []
  end.

Lemma walk_cons_passed (elem : option string) (rest : list (option string)) (c : C) :
  resolves elem = false ->
  walk (elem :: rest) c = walk rest (addErrors (passed elem) c).
Proof.
  destruct elem as [s|]; simpl; [| by rewrite addErrors_nil].
  destruct (String.eqb s ""); simpl; [by rewrite addErrors_nil |].
  destruct (parse s) as [val [e|]]; simpl; [done | discriminate].
Qed.

Lemma walk_first (pre rest : list (option string)) (s : string) (c : C) :
  Forall (fun elem => resolves elem = false) pre ->
  resolves (Some s) = true ->
  walk (pre ++ Some s :: rest) c
  = (fst (parse s), addErrors (flat_map passed pre) c).
Proof.
  intros Hpre Hs. revert c.
  induction Hpre as [|elem pre Helem _ IH]; intros c.
  - simpl in *. rewrite addErrors_nil.
    destruct (String.eqb s ""); [discriminate |]. simpl in *.
    destruct (parse s) as [val [e|]]; [discriminate | reflexivity].
  - change ((elem :: pre) ++ Some s :: rest) with (elem :: (pre ++ Some s :: rest)).
    rewrite walk_cons_passed by done.
    rewrite IH, addErrors_app. reflexivity.
Qed.

Lemma walk_exhausted (list : list (option string)) (c : C) :
  Forall (fun elem => resolves elem = false) list ->
  walk list c = (zero, addErrors (flat_map passed list ++ [missing]) c).
Proof.
  intros Hl. revert c.
  induction Hl as [|elem l Helem _ IH]; intros c; [reflexivity |].
  rewrite walk_cons_passed by done.
  rewrite IH, addErrors_app. simpl. by rewrite app_assoc.
Qed.

Lemma walk_appends (list : list (option string)) (c : C) :
  exists es, snd (walk list c) = addErrors es c.
Proof.
  revert c. induction list as [|elem rest IH]; intros c; [by exists [missing] |].
  simpl. destruct elem as [s|]; [| apply IH].
  destruct (negb (String.eqb s "")); [| apply IH].
  destruct (parse s) as [val [e|]]; [| exists []; simpl; by rewrite addErrors_nil].
  destruct (IH (addErrors [numericError s e] c)) as [es Hes].
  exists ([numericError s e] ++ es). by rewrite Hes, addErrors_app.
Qed.

Lemma walk_empty_text (pre post : list (option string)) (c : C) :
  walk (pre ++ Some "" :: post) c = walk (pre ++ None :: post) c.
Proof.
  revert c. induction pre as [|elem pre IH]; intros c; [reflexivity |].
  simpl. destruct elem as [s|]; [| apply IH].
  destruct (negb (String.eqb s "")); [| apply IH].
  destruct (parse s) as [val [e|]]; [apply IH | reflexivity].
Qed.
End Walk.

Lemma ResolveInt_walk (list : list (option string)) (c : Eager.Config) :
  Eager.ResolveInt list c
  = walk (parseInt 64) Eager.addErrors 0 (Errorf "missing default int value" []) list c.
Proof.
  revert c. induction list as [|elem rest IH]; intros c; [reflexivity |].
  simpl. destruct elem as [s|]; [| apply IH].
  destruct (negb (String.eqb s "")); [| apply IH].
  destruct (parseInt 64 s) as [val [e|]]; [apply IH | reflexivity].
Qed.

Lemma Lazy_ResolveInt_walk (list : list (option string)) (c : Lazy.Config) :
  Lazy.ResolveInt list c
  = walk (parseInt 32) Lazy.addErrors 0 (Errorf "missing default int value" []) list c.
Proof.
  revert c. induction list as [|elem rest IH]; intros c; [reflexivity |].
  simpl. destruct elem as [s|]; [| apply IH].
  destruct (negb (String.eqb s "")); [| apply IH].
  destruct (parseInt 32 s) as [val [e|]]; [apply IH | reflexivity].
Qed.

Lemma ResolveFloat64_walk (list : list (option string)) (c : Eager.Config) :
  Eager.ResolveFloat64 list c
  = walk (fun s => strconv.ParseFloat s 64) Eager.addErrors (S754_zero false)
      (Errorf "missing default int value" []) list c.
Proof.
  revert c. induction list as [|elem rest IH]; intros c; [reflexivity |].
  simpl. destruct elem as [s|]; [| apply IH].
  destruct (negb (String.eqb s "")); [| apply IH].
  destruct (strconv.ParseFloat s 64) as [val [e|]]; [apply IH | reflexivity].
Qed.

(** ** The walk of [ResolveString] and of [ResolveBool] *)

Lemma ResolveString_first (n : nat) (s : string) (rest : list (option string))
    (c : Eager.Config) :
  Eager.ResolveString (replicate n None ++ Some s :: rest) c = (s, c).
Proof. induction n as [|n IH]; [reflexivity | exact IH]. Qed.

(** A candidate the typed resolvers treat as missing. *)
Definition blank (elem : option string) : bool :=
  match elem with
  | Some s => String.eqb s ""
  | None => true
  end.

Section BoolWalk.
Variable U : gostrings.Unicode.

Lemma ResolveBool_cons_blank (elem : option string) (rest : list (option string))
    (c : Eager.Config) :
  blank elem = true ->
  Eager.ResolveBool U (elem :: rest) c = Eager.ResolveBool U rest c.
Proof.
  destruct elem as [s|]; simpl; [| done].
  intros ->. reflexivity.
Qed.

Lemma ResolveBool_first (pre rest : list (option string)) (s : string)
    (c : Eager.Config) :
  Forall (fun elem => blank elem = true) pre ->
  s <> "" ->
  Eager.ResolveBool U (pre ++ Some s :: rest) c
  = let '(b, ok) := fst (Eager.stringToBool U s c) in
    (b, if ok then c else Eager.addErrors [boolError s] c).
Proof.
  intros Hpre Hs.
  induction Hpre as [|elem pre Helem _ IH].
  - simpl. apply String.eqb_neq in Hs. rewrite Hs. simpl.
    unfold bind, Eager.stringToBool, bind, get, ret.
    destruct (Eager.foldsTo U _ (Eager.TrueStrings c)); [reflexivity |].
    destruct (Eager.foldsTo U _ (Eager.FalseStrings c)); reflexivity.
  - change ((elem :: pre) ++ Some s :: rest) with (elem :: (pre ++ Some s :: rest)).
    rewrite ResolveBool_cons_blank by done. exact IH.
Qed.

Lemma ResolveBool_empty_text (pre post : list (option string)) (c : Eager.Config) :
  Eager.ResolveBool U (pre ++ Some "" :: post) c
  = Eager.ResolveBool U (pre ++ None :: post) c.
Proof.
  induction pre as [|elem pre IH]; [reflexivity |].
  simpl. destruct elem as [s|]; [| apply IH].
  destruct (negb (String.eqb s "")); [reflexivity | apply IH].
Qed.
End BoolWalk.

(** ** First present candidate *)

(** C1 (as stated, refuted). The first present candidate of
    [ResolveInt("a", "2")] fails to parse; the resolver does not stop on
    it with the zero value, it records the error and returns the [2] of
    the candidate after it. *)
Lemma ResolveInt_falls_through :
  parseInt 64 "a" = (0, Some (NumError "ParseInt" "a" strconv.ErrSyntax)) /\
  Eager.ResolveInt [Some "a"; Some "2"] (Eager.New "app")
  = (2, Eager.addErrors [numericError "a" (NumError "ParseInt" "a" strconv.ErrSyntax)]
          (Eager.New "app")) /\
  fst (Eager.ResolveInt [Some "a"; Some "2"] (Eager.New "app")) <> 0.
Proof. repeat split; vm_compute; congruence. Qed.

(** C1 (amended). [ResolveString] returns the first present candidate and
    appends nothing.  [ResolveBool] stops at the first candidate that is
    present and not empty: it returns what [stringToBool] makes of it,
    [false] with one error appended when the text is in neither
    vocabulary, whatever follows.  [ResolveInt] and [ResolveFloat64] pass
    over absent and empty candidates and over those that fail to parse,
    appending one error for each of the latter, and return the value of
    the first candidate that is present, not empty and parses, whatever
    follows. *)
Theorem resolve_first_present (U : gostrings.Unicode) (rest : list (option string))
    (s : string) (c : Eager.Config) :
  (forall n, Eager.ResolveString (replicate n None ++ Some s :: rest) c = (s, c)) /\
  (forall pre,
     Forall (fun elem => blank elem = true) pre -> s <> "" ->
     Eager.ResolveBool U (pre ++ Some s :: rest) c
     = let '(b, ok) := fst (Eager.stringToBool U s c) in
       (b, if ok then c else Eager.addErrors [boolError s] c)) /\
  (forall pre,
     Forall (fun elem => resolves (parseInt 64) elem = false) pre ->
     resolves (parseInt 64) (Some s) = true ->
     Eager.ResolveInt (pre ++ Some s :: rest) c
     = (fst (parseInt 64 s),
        Eager.addErrors (flat_map (passed (parseInt 64)) pre) c)) /\
  (forall pre,
     Forall (fun elem => resolves (fun s => strconv.ParseFloat s 64) elem = false) pre ->
     resolves (fun s => strconv.ParseFloat s 64) (Some s) = true ->
     Eager.ResolveFloat64 (pre ++ Some s :: rest) c
     = (fst (strconv.ParseFloat s 64),
        Eager.addErrors (flat_map (passed (fun s => strconv.ParseFloat s 64)) pre) c)).
Proof.
  split; [intros n; apply ResolveString_first |].
  split; [intros pre; apply ResolveBool_first |].
  split; intros pre Hpre Hs.
  - rewrite ResolveInt_walk.
    apply walk_first; auto using Eager_addErrors_nil, Eager_addErrors_app.
  - rewrite ResolveFloat64_walk.
    apply (walk_first (fun s => strconv.ParseFloat s 64));
      auto using Eager_addErrors_nil, Eager_addErrors_app.
Qed.

Lemma resolve_first_present_witness :
  Eager.ResolveString [None; None; Some "42"; Some "junk"] (Eager.New "app")
  = ("42", Eager.New "app") /\
  Eager.ResolveBool gostrings.asciiOnly [None; Some ""; Some "42"; Some "junk"] (Eager.New "app")
  = (false, Eager.addErrors [boolError "42"] (Eager.New "app")) /\
  Eager.ResolveInt [None; Some "a"; Some ""; Some "42"; Some "junk"] (Eager.New "app")
  = (42, Eager.addErrors [numericError "a" (NumError "ParseInt" "a" strconv.ErrSyntax)]
           (Eager.New "app")) /\
  Eager.ResolveFloat64 [None; Some "a"; Some ""; Some "42"; Some "junk"] (Eager.New "app")
  = (S754_finite false (42 * 2 ^ 47) (-47),
     Eager.addErrors [numericError "a" (NumError "ParseFloat" "a" strconv.ErrSyntax)]
       (Eager.New "app")).
Proof.
  destruct (resolve_first_present gostrings.asciiOnly [Some "junk"] "42" (Eager.New "app"))
    as (HS & HB & HI & HF).
  split; [exact (HS 2%nat) |].
  split; [apply (HB [None; Some ""]); [repeat constructor | discriminate] |].
  split.
  - apply (HI [None; Some "a"; Some ""]); [repeat constructor | reflexivity].
  - apply (HF [None; Some "a"; Some ""]); [repeat constructor | reflexivity].
Defined.

(** ** Empty text *)

(** C7 (as stated, refuted). [ResolveInt] given a present empty string
    and then "5" returns [5] and appends no error at all, so none for the
    empty candidate; given the empty string alone, the one error it
    appends is the "missing default" one. *)
Lemma ResolveInt_empty_text_no_error :
  Eager.ResolveInt [Some ""; Some "5"] (Eager.New "app") = (5, Eager.New "app") /\
  Eager.Errors (snd (Eager.ResolveInt [Some ""; Some "5"] (Eager.New "app"))) = [] /\
  Eager.Errors (snd (Eager.ResolveInt [Some ""] (Eager.New "app")))
  = [Errorf "missing default int value" []].
Proof. repeat split. Qed.

(** C7 (amended). In [ResolveInt] a present candidate that is not empty
    and fails to parse is a coercion error: the error, naming the text, is
    appended to the error list, where it stays, and the walk goes on with
    the candidates that follow.  A present empty text is passed over as an
    absent candidate is and appends nothing. *)
Theorem ResolveInt_coercion_error (s : string) (rest : list (option string))
    (c : Eager.Config) :
  Eager.ResolveInt (Some "" :: rest) c = Eager.ResolveInt rest c /\
  (s <> "" ->
   forall e, snd (parseInt 64 s) = Some e ->
     Eager.ResolveInt (Some s :: rest) c
     = Eager.ResolveInt rest (Eager.addErrors [numericError s e] c) /\
     exists es,
       Eager.Errors (snd (Eager.ResolveInt (Some s :: rest) c))
       = Eager.Errors c ++ numericError s e :: es).
Proof.
  split; [reflexivity |].
  intros Hs e He.
  assert (Hstep : Eager.ResolveInt (Some s :: rest) c
                  = Eager.ResolveInt rest (Eager.addErrors [numericError s e] c)).
  { simpl. apply String.eqb_neq in Hs. rewrite Hs. simpl.
    destruct (parseInt 64 s) as [val err]. simpl in He. subst err. reflexivity. }
  split; [exact Hstep |].
  rewrite Hstep, ResolveInt_walk.
  destruct (walk_appends (parseInt 64) Eager.addErrors 0
              (Errorf "missing default int value" []) Eager_addErrors_nil
              Eager_addErrors_app rest (Eager.addErrors [numericError s e] c))
    as [es Hes].
  exists es. rewrite Hes. simpl. by rewrite <- app_assoc.
Qed.

Lemma ResolveInt_coercion_error_witness :
  Eager.ResolveInt [Some "a"; Some "2"] (Eager.New "app")
  = Eager.ResolveInt [Some "2"]
      (Eager.addErrors [numericError "a" (NumError "ParseInt" "a" strconv.ErrSyntax)]
         (Eager.New "app")) /\
  exists es,
    Eager.Errors (snd (Eager.ResolveInt [Some "a"; Some "2"] (Eager.New "app")))
    = [] ++ numericError "a" (NumError "ParseInt" "a" strconv.ErrSyntax) :: es.
Proof.
  apply (ResolveInt_coercion_error "a" [Some "2"] (Eager.New "app"));
    [discriminate | reflexivity].
Defined.

(** C10. A present candidate whose text is empty is passed over by
    [ResolveInt], [ResolveFloat64] and [ResolveBool] exactly as an absent
    one in its place would be: same value, same context.  [ResolveString]
    stops on it and returns the empty string, appending nothing. *)
Theorem empty_text_is_skipped (U : gostrings.Unicode) (pre post : list (option string))
    (n : nat) (c : Eager.Config) (c' : Lazy.Config) :
  Eager.ResolveInt (pre ++ Some "" :: post) c = Eager.ResolveInt (pre ++ None :: post) c /\
  Eager.ResolveFloat64 (pre ++ Some "" :: post) c
  = Eager.ResolveFloat64 (pre ++ None :: post) c /\
  Eager.ResolveBool U (pre ++ Some "" :: post) c
  = Eager.ResolveBool U (pre ++ None :: post) c /\
  Lazy.ResolveInt (pre ++ Some "" :: post) c' = Lazy.ResolveInt (pre ++ None :: post) c' /\
  Eager.ResolveString (replicate n None ++ Some "" :: post) c = ("", c).
Proof.
  repeat split.
  - rewrite !ResolveInt_walk. apply walk_empty_text.
  - rewrite !ResolveFloat64_walk. apply walk_empty_text.
  - apply ResolveBool_empty_text.
  - rewrite !Lazy_ResolveInt_walk. apply walk_empty_text.
  - apply ResolveString_first.
Qed.

(** ** Values of the backing file *)

(** The dynamic types [toString] has a case for. *)
Definition supported (x : any) : bool :=
  match x with
  | any_int64 _ | any_int _ | any_bool _ | any_float64 _ | any_string _ => true
  | _ => false
  end.

Lemma toString_unsupported (x : any) (c : Eager.Config) :
  supported x = false ->
  Eager.toString x c = ("", Eager.addErrors [typeError x] c).
Proof. destruct x; simpl; intros H; try discriminate; reflexivity. Qed.

Lemma toString_supported (x : any) (c : Eager.Config) :
  supported x = true ->
  snd (Eager.toString x c) = c.
Proof. destruct x; simpl; intros H; try discriminate; reflexivity. Qed.

(** A context whose backing file holds a date under the key "when";
    go-toml hands dates over as [time.Time]. *)
Definition dated : Eager.Config :=
  Eager.withFileData (Some {[ "when" := any_other "time.Time" ]}) (Eager.New "app").

(** C2 (as stated, refuted). For a key whose value has a type [toString]
    does not know, [FromFile] appends the error but does not return
    [nil]: it returns a present candidate, the empty string. *)
Lemma unsupported_value_is_present :
  Eager.FromFile "when" dated = (Some "", Eager.addErrors [typeError (any_other "time.Time")] dated) /\
  fst (Eager.FromFile "when" dated) <> None.
Proof. split; [reflexivity | discriminate]. Qed.

(** C2 (amended). For every key whose value in the backing file has a
    native type other than string, int, int64, bool and float64,
    [FromFile] appends an "unexpected data type" error naming the type to
    the error list of the context and returns a present candidate whose
    text is empty. *)
Theorem FromFile_unsupported (c : Eager.Config) (t : toml.Tree) (key : string) (v : any) :
  Eager.fileData c = Some t ->
  t !! key = Some v ->
  supported v = false ->
  Eager.FromFile key c = (Some "", Eager.addErrors [typeError v] c).
Proof.
  intros Ht Hkey Hv.
  unfold Eager.FromFile, bind, get. rewrite Ht.
  unfold toml.Has, toml.Get. rewrite Hkey. simpl.
  rewrite toString_unsupported by done. reflexivity.
Qed.

Lemma FromFile_unsupported_witness :
  Eager.FromFile "when" dated
  = (Some "", Eager.addErrors [typeError (any_other "time.Time")] dated).
Proof.
  apply (FromFile_unsupported dated {[ "when" := any_other "time.Time" ]});
    reflexivity.
Defined.

(** ** Defaults *)

Lemma Itoa_decimal (i : Z) :
  option_map Z.of_int (NilZero.int_of_string (strconv.Itoa i)) = Some i.
Proof.
  unfold strconv.Itoa, strconv.FormatInt10.
  rewrite NilZero.isi.
  - simpl. f_equal. apply DecimalZ.of_to.
  - destruct i as [|p|p]; simpl; try discriminate.
    intros [= H]. by apply (DecimalPos.Unsigned.to_uint_nonnil p).
  - destruct i as [|p|p]; simpl; try discriminate.
    intros [= H]. by apply (DecimalPos.Unsigned.to_uint_nonnil p).
Qed.

(** C8. [Default] of a boolean is a present candidate holding "true" or
    "false", of an [int] one holding its decimal digits (which read back
    as the number), of a string one holding the string itself.  Of every
    other native value, [nil] included, it is absent.  In no case does
    [Default] change the context: it appends no error. *)
Theorem Default_wraps (c : Eager.Config) :
  Eager.Default (any_bool true) c = (Some "true", c) /\
  Eager.Default (any_bool false) c = (Some "false", c) /\
  (forall i, Eager.Default (any_int i) c = (Some (strconv.Itoa i), c) /\
             option_map Z.of_int (NilZero.int_of_string (strconv.Itoa i)) = Some i) /\
  (forall s, Eager.Default (any_string s) c = (Some s, c)) /\
  Eager.Default any_nil c = (None, c) /\
  (forall i, Eager.Default (any_int64 i) c = (None, c)) /\
  (forall f, Eager.Default (any_float64 f) c = (None, c)) /\
  (forall T, Eager.Default (any_other T) c = (None, c)).
Proof.
  repeat split; auto using Itoa_decimal.
Qed.

(** ** Trimming and folding on ASCII text *)

Fixpoint isASCII (s : string) : bool :=
  match s with
  | EmptyString => true
  | String c s' => (ord c <? 128) && isASCII s'
  end.

Fixpoint allSpace (s : string) : bool :=
  match s with
  | EmptyString => true
  | String c s' => gostrings.asciiSpace (ord c) && allSpace s'
  end.

(** The first byte, if there is one, is not white space. *)
Definition startsClean (s : string) : bool :=
  match s with
  | EmptyString => true
  | String c _ => negb (gostrings.asciiSpace (ord c))
  end.

(** The last byte, if there is one, is not white space. *)
Fixpoint endsClean (s : string) : bool :=
  match s with
  | EmptyString => true
  | String c EmptyString => negb (gostrings.asciiSpace (ord c))
  | String _ s' => endsClean s'
  end.

Lemma ord_range (c : ascii) : 0 <= ord c < 256.
Proof.
  unfold ord. pose proof (N_ascii_bounded c) as H. lia.
Qed.

Lemma ord_inj (a b : ascii) : ord a = ord b -> a = b.
Proof.
  unfold ord. intros H. apply N2Z.inj in H.
  rewrite <- (ascii_N_embedding a), <- (ascii_N_embedding b). by rewrite H.
Qed.

Lemma ord_chr (b : Z) : 0 <= b < 256 -> ord (chr b) = b.
Proof.
  intros H. unfold ord, chr. rewrite N_ascii_embedding by lia. lia.
Qed.

Lemma lor_ascii (x y : Z) : 0 <= x < 128 -> 0 <= y < 128 -> Z.lor x y < 128.
Proof.
  intros Hx Hy.
  assert (H0 : 0 <= Z.lor x y) by (apply Z.lor_nonneg; lia).
  destruct (Z.eq_dec (Z.lor x y) 0) as [-> | Hne]; [lia |].
  change 128 with (2 ^ 7). apply Z.log2_lt_pow2; [lia |].
  rewrite Z.log2_lor by lia.
  assert (Hlog : forall z, 0 <= z < 128 -> Z.log2 z < 7).
  { intros z Hz. destruct (Z.eq_dec z 0) as [-> | Hz0]; [reflexivity |].
    apply Z.log2_lt_pow2; lia. }
  specialize (Hlog x Hx) as Hlx. specialize (Hlog y Hy) as Hly. lia.
Qed.

Lemma ord_toLowerASCII (c : ascii) :
  ord (strconv.toLowerASCII c)
  = if (65 <=? ord c) && (ord c <=? 90) then ord c + 32 else ord c.
Proof.
  unfold strconv.toLowerASCII.
  destruct ((65 <=? ord c) && (ord c <=? 90)) eqn:H; [| reflexivity].
  apply ord_chr. lia.
Qed.

Section AsciiText.
Variable U : gostrings.Unicode.

Lemma trimStart_ascii (s : string) :
  isASCII s = true ->
  fst (gostrings.trimStart s) = false /\
  isASCII (snd (gostrings.trimStart s)) = true /\
  startsClean (snd (gostrings.trimStart s)) = true /\
  exists ws, allSpace ws = true /\ s = ws +:+ snd (gostrings.trimStart s).
Proof.
  induction s as [|ch s IH]; intros Hs.
  - repeat split. by exists "".
  - simpl in Hs. apply andb_prop in Hs as [Hch Hs].
    simpl. unfold gostrings.RuneSelf in *.
    destruct (128 <=? ord ch) eqn:Hge; [lia |].
    destruct (gostrings.asciiSpace (ord ch)) eqn:Hsp.
    + destruct (IH Hs) as (H1 & H2 & H3 & ws & Hws & Heq).
      repeat split; try done.
      exists (String ch ws). split; [simpl; by rewrite Hsp |].
      exact (f_equal (String ch) Heq).
    + simpl. rewrite Hch, Hs, Hsp. repeat split. by exists "".
Qed.

Lemma trimStop_ascii (s : string) :
  isASCII s = true ->
  fst (gostrings.trimStop s) = false /\
  isASCII (snd (gostrings.trimStop s)) = true /\
  endsClean (snd (gostrings.trimStop s)) = true /\
  (startsClean s = true -> startsClean (snd (gostrings.trimStop s)) = true) /\
  exists ws, allSpace ws = true /\ s = snd (gostrings.trimStop s) +:+ ws.
Proof.
  induction s as [|ch s IH]; intros Hs.
  - repeat split. by exists "".
  - simpl in Hs. apply andb_prop in Hs as [Hch Hs].
    destruct (IH Hs) as (H1 & H2 & H3 & _ & ws & Hws & Heq).
    simpl. destruct (gostrings.trimStop s) as [uni t]. simpl in *. subst uni.
    destruct t as [|c' t'].
    + unfold gostrings.RuneSelf in *.
      destruct (128 <=? ord ch) eqn:Hge; [lia |].
      destruct (gostrings.asciiSpace (ord ch)) eqn:Hsp; simpl.
      * split_and!; try done.
        exists (String ch ws). split; [simpl; by rewrite Hsp | by rewrite Heq].
      * rewrite Hch, Hsp. split_and!; try done.
        exists ws. split; [done | exact (f_equal (String ch) Heq)].
    + simpl. rewrite Hch. simpl in H2. rewrite H2.
      split_and!; try done.
      exists ws. split; [done | exact (f_equal (String ch) Heq)].
Qed.

Lemma append_assoc (a b c : string) : (a +:+ b) +:+ c = a +:+ (b +:+ c).
Proof. induction a as [|ch a IH]; [done | exact (f_equal (String ch) IH)]. Qed.

(** On ASCII text [TrimSpace] takes the white space off both ends and
    nothing else. *)
Lemma TrimSpace_ascii (s : string) :
  isASCII s = true ->
  isASCII (gostrings.TrimSpace U s) = true /\
  startsClean (gostrings.TrimSpace U s) = true /\
  endsClean (gostrings.TrimSpace U s) = true /\
  exists ws1 ws2,
    allSpace ws1 = true /\ allSpace ws2 = true /\
    s = ws1 +:+ gostrings.TrimSpace U s +:+ ws2.
Proof.
  intros Hs. unfold gostrings.TrimSpace.
  destruct (trimStart_ascii s Hs) as (H1 & H2 & H3 & ws1 & Hws1 & Heq1).
  destruct (gostrings.trimStart s) as [uni s1]. simpl in *. subst uni.
  destruct (trimStop_ascii s1 H2) as (K1 & K2 & K3 & K4 & ws2 & Hws2 & Heq2).
  destruct (gostrings.trimStop s1) as [uni s2]. simpl in *. subst uni.
  repeat split; auto.
  exists ws1, ws2. repeat split; auto. by rewrite <- Heq2.
Qed.

(** On ASCII text [EqualFold] compares the two strings with their capital
    letters made small. *)
Lemma EqualFold_ascii (s t : string) :
  isASCII s = true -> isASCII t = true ->
  gostrings.EqualFold U s t
  = String.eqb (strconv.lowerASCII s) (strconv.lowerASCII t).
Proof.
  revert t. induction s as [|a s IH]; intros [|b t] Hs Ht; try reflexivity.
  simpl in Hs, Ht.
  apply andb_prop in Hs as [Ha Hs]. apply andb_prop in Ht as [Hb Ht].
  unfold gostrings.RuneSelf in *.
  pose proof (ord_range a) as Ra. pose proof (ord_range b) as Rb.
  assert (Hlor : Z.lor (ord a) (ord b) < 128) by (apply lor_ascii; lia).
  simpl. unfold gostrings.RuneSelf.
  destruct (128 <=? Z.lor (ord a) (ord b)) eqn:Hge; [lia |].
  rewrite (IH t Hs Ht).
  pose proof (ord_toLowerASCII a) as La. pose proof (ord_toLowerASCII b) as Lb.
  destruct (Ascii.eqb_spec (strconv.toLowerASCII a) (strconv.toLowerASCII b)) as [Heq | Hne].
  - rewrite Heq in La. rewrite La in Lb. clear Heq.
    destruct (ord b =? ord a) eqn:Hab; [reflexivity |].
    destruct (ord b <? ord a) eqn:Hlt;
      destruct ((65 <=? ord a) && (ord a <=? 90)) eqn:Hua;
      destruct ((65 <=? ord b) && (ord b <=? 90)) eqn:Hub;
      try lia.
    + replace (ord a =? ord b + 97 - 65) with true by lia. reflexivity.
    + replace (ord b =? ord a + 97 - 65) with true by lia. reflexivity.
  - assert (Hord : ord (strconv.toLowerASCII a) <> ord (strconv.toLowerASCII b))
      by (intros H; apply Hne, ord_inj, H).
    rewrite La, Lb in Hord. clear Hne.
    destruct (ord b =? ord a) eqn:Hab.
    { exfalso. apply Hord. replace (ord b) with (ord a) by lia. reflexivity. }
    destruct (ord b <? ord a) eqn:Hlt;
      destruct ((65 <=? ord a) && (ord a <=? 90)) eqn:Hua;
      destruct ((65 <=? ord b) && (ord b <=? 90)) eqn:Hub;
      try (rewrite ?Hua, ?Hub; simpl;
           first [ reflexivity
                 | replace (ord a =? ord b + 97 - 65) with false by lia; reflexivity
                 | replace (ord b =? ord a + 97 - 65) with false by lia; reflexivity ]).
Qed.
End AsciiText.

(** On ASCII text the functions of [Unicode] play no part. *)
Lemma TrimSpace_ascii_any (U U' : gostrings.Unicode) (s : string) :
  isASCII s = true -> gostrings.TrimSpace U s = gostrings.TrimSpace U' s.
Proof.
  intros Hs. unfold gostrings.TrimSpace.
  destruct (trimStart_ascii s Hs) as (H1 & H2 & _).
  destruct (gostrings.trimStart s) as [uni s1]. simpl in *. subst uni.
  destruct (trimStop_ascii s1 H2) as (K1 & _).
  destruct (gostrings.trimStop s1) as [uni s2]. simpl in *. by subst uni.
Qed.

Lemma EqualFold_ascii_any (U U' : gostrings.Unicode) (s t : string) :
  isASCII s = true -> isASCII t = true ->
  gostrings.EqualFold U s t = gostrings.EqualFold U' s t.
Proof. intros Hs Ht. by rewrite !EqualFold_ascii. Qed.

(** ** stringToBool *)

Lemma foldsTo_existsb (U : gostrings.Unicode) (tbs : string) (list : list string) :
  Eager.foldsTo U tbs list = existsb (gostrings.EqualFold U tbs) list.
Proof.
  induction list as [|ts rest IH]; [reflexivity |].
  simpl. rewrite IH. by destruct (gostrings.EqualFold U tbs ts).
Qed.

Lemma stringToBool_run (U : gostrings.Unicode) (c : Eager.Config) (bs : string) :
  Eager.stringToBool U bs c
  = ((if existsb (gostrings.EqualFold U (gostrings.TrimSpace U bs)) (Eager.TrueStrings c)
      then (true, true)
      else if existsb (gostrings.EqualFold U (gostrings.TrimSpace U bs)) (Eager.FalseStrings c)
      then (false, true)
      else (false, false)), c).
Proof.
  unfold Eager.stringToBool, bind, get, ret.
  rewrite !foldsTo_existsb.
  destruct (existsb _ (Eager.TrueStrings c)); [reflexivity |].
  destruct (existsb _ (Eager.FalseStrings c)); reflexivity.
Qed.

(** C6. [stringToBool] trims its argument and compares the trimmed text
    with the strings of [TrueStrings], then with those of [FalseStrings]:
    a match in [TrueStrings] gives (true, ok), whatever [FalseStrings]
    holds; otherwise a match in [FalseStrings] gives (false, ok);
    otherwise the result is (false, not ok).  The context is left as it
    was: no error is appended.  On ASCII text the trimmed text is the
    argument without the white space at its two ends, and the comparison
    is equality up to the case of letters. *)
Theorem stringToBool_spec (U : gostrings.Unicode) (c : Eager.Config) (bs : string) :
  let tbs := gostrings.TrimSpace U bs in
  Eager.stringToBool U bs c
  = ((if existsb (gostrings.EqualFold U tbs) (Eager.TrueStrings c) then (true, true)
      else if existsb (gostrings.EqualFold U tbs) (Eager.FalseStrings c) then (false, true)
      else (false, false)), c) /\
  (forall ts, In ts (Eager.TrueStrings c) -> gostrings.EqualFold U tbs ts = true ->
     Eager.stringToBool U bs c = ((true, true), c)) /\
  (isASCII bs = true ->
     startsClean tbs = true /\ endsClean tbs = true /\
     (exists ws1 ws2,
        allSpace ws1 = true /\ allSpace ws2 = true /\ bs = ws1 +:+ tbs +:+ ws2) /\
     forall ts, isASCII ts = true ->
       gostrings.EqualFold U tbs ts
       = String.eqb (strconv.lowerASCII tbs) (strconv.lowerASCII ts)).
Proof.
  intros tbs.
  pose proof (stringToBool_run U c bs) as Hrun. fold tbs in Hrun.
  split; [exact Hrun |]. split.
  - intros ts Hin Hfold. rewrite Hrun.
    replace (existsb (gostrings.EqualFold U tbs) (Eager.TrueStrings c)) with true; [done |].
    symmetry. apply existsb_exists. eauto.
  - intros Hbs.
    destruct (TrimSpace_ascii U bs Hbs) as (Hascii & Hstart & Hend & Hex).
    split_and!; try done.
    intros ts Hts. by apply EqualFold_ascii.
Qed.

Lemma stringToBool_spec_witness :
  Eager.stringToBool gostrings.asciiOnly " TRUE " (Eager.New "app")
  = ((true, true), Eager.New "app") /\
  (exists ws1 ws2,
     allSpace ws1 = true /\ allSpace ws2 = true /\ " TRUE " = ws1 +:+ "TRUE" +:+ ws2) /\
  gostrings.EqualFold gostrings.asciiOnly "TRUE" "true" = true.
Proof.
  destruct (stringToBool_spec gostrings.asciiOnly (Eager.New "app") " TRUE ")
    as (Hrun & _ & Hascii).
  destruct (Hascii eq_refl) as (_ & _ & Hex & Hfold).
  split; [exact Hrun |]. split; [exact Hex |].
  exact (Hfold "true" eq_refl).
Defined.

(** ** Integer coercion *)

Lemma parseInt_integer (bits : Z) (s : string) :
  gostrings.Contains s "." = false ->
  parseInt bits s = strconv.ParseInt s 0 64.
Proof. intros H. unfold parseInt. by rewrite H. Qed.

Lemma parseInt_decimal_point (bits : Z) (s : string) :
  gostrings.Contains s "." = true ->
  parseInt bits s
  = (strconv.to_int64 (strconv.to_float32 (fst (strconv.ParseFloat s bits))),
     snd (strconv.ParseFloat s bits)).
Proof.
  intros H. unfold parseInt. rewrite H.
  by destruct (strconv.ParseFloat s bits).
Qed.

(** [truncate] discards the fraction: what it returns is the integer next
    to the value of the float on the side of zero. *)
Lemma truncate_toward_zero (s : bool) (m : positive) (e : Z) :
  e < 0 ->
  exists a,
    strconv.truncate (S754_finite s m e) = Some (if s then - a else a) /\
    a * 2 ^ (- e) <= Zpos m < (a + 1) * 2 ^ (- e).
Proof.
  intros He. exists (Zpos m / 2 ^ (- e)).
  split.
  - unfold strconv.truncate. by replace (0 <=? e) with false by lia.
  - assert (Hpow : 0 < 2 ^ (- e)) by (apply Z.pow_pos_nonneg; lia).
    pose proof (Z.mul_div_le (Zpos m) (2 ^ (- e)) Hpow).
    pose proof (Z.mul_succ_div_gt (Zpos m) (2 ^ (- e)) Hpow).
    lia.
Qed.

Example ResolveInt_2_612 :
  Eager.ResolveInt [None; None; Some "2.612"] (Eager.New "app") = (2, Eager.New "app") /\
  Lazy.ResolveInt [None; None; Some "2.612"] (Lazy.New "app") = (2, Lazy.New "app").
Proof. split; reflexivity. Qed.

Example ParseInt_prefixes :
  strconv.ParseInt "0x2f" 0 64 = (47, None) /\
  strconv.ParseInt "0o17" 0 64 = (15, None) /\
  strconv.ParseInt "017" 0 64 = (15, None) /\
  strconv.ParseInt "0b101" 0 64 = (5, None) /\
  strconv.ParseInt "-42" 0 64 = (-42, None) /\
  strconv.ParseInt "1_000" 0 64 = (1000, None).
Proof. repeat split. Qed.

(** C4. Where the claim fails on the code: the text "0.99999999" has a
    decimal point and is read as the [float64] nearest to it, whose
    integer part is [0]; [ResolveInt] narrows that value to a [float32],
    which rounds it to [1.0], before it discards the fraction, and
    returns [1].  Both revisions of [ResolveInt] do. *)
Theorem ResolveInt_narrows_before_truncating :
  strconv.truncate (fst (strconv.ParseFloat "0.99999999" 64)) = Some 0 /\
  strconv.to_float32 (fst (strconv.ParseFloat "0.99999999" 64))
  = S754_finite false (2 ^ 23) (-23) /\
  Eager.ResolveInt [Some "0.99999999"] (Eager.New "app") = (1, Eager.New "app") /\
  Lazy.ResolveInt [Some "0.99999999"] (Lazy.New "app") = (1, Lazy.New "app").
Proof. repeat split. Qed.

(** ** Decimal text reads back

    [ParseInt] on the text [FormatInt] prints, for every [int64]. *)

(** Every [ord] of a character constant, computed. *)
Ltac eval_ord :=
  repeat match goal with
  | |- context [ord (Ascii ?a ?b ?c ?d ?e ?f ?g ?h)] =>
      let v := eval vm_compute in (ord (Ascii a b c d e f g h)) in
      change (ord (Ascii a b c d e f g h)) with v
  end.

Lemma ParseUint_digits_step (ch : ascii) (s : string) (n : Z) :
  48 <= ord ch <= 57 -> 0 <= n -> n * 10 + (ord ch - 48) < 2 ^ 64 ->
  strconv.ParseUint_digits true 10 ((2 ^ 64 - 1) / 10 + 1) (2 ^ 64 - 1) (String ch s) n false
  = strconv.ParseUint_digits true 10 ((2 ^ 64 - 1) / 10 + 1) (2 ^ 64 - 1) s
      (n * 10 + (ord ch - 48)) false.
Proof.
  intros Hch Hn Hb.
  cbn [strconv.ParseUint_digits]. unfold strconv.isDigit, strconv.isLetter. eval_ord.
  replace ((ord ch =? 95) && true) with false by lia.
  replace ((48 <=? ord ch) && (ord ch <=? 57)) with true by lia.
  replace (10 <=? ord ch - 48) with false by lia.
  change ((2 ^ 64 - 1) / 10 + 1) with 1844674407370955162.
  replace (1844674407370955162 <=? n) with false by lia.
  rewrite (Z.mod_small (n * 10)) by lia.
  rewrite (Z.mod_small (n * 10 + (ord ch - 48))) by lia.
  replace (n * 10 + (ord ch - 48) <? n * 10) with false by lia.
  replace (2 ^ 64 - 1 <? n * 10 + (ord ch - 48)) with false by lia.
  reflexivity.
Qed.

Lemma of_uint_acc_ge (l : Decimal.uint) (acc : positive) :
  (acc <= Pos.of_uint_acc l acc)%positive.
Proof.
  revert acc. induction l; intros acc; simpl; [lia | ..];
    match goal with |- (_ <= Pos.of_uint_acc _ ?x)%positive =>
      specialize (IHl x); lia end.
Qed.

Lemma ParseUint_digits_decimal (l : Decimal.uint) (acc : positive) :
  Zpos (Pos.of_uint_acc l acc) < 2 ^ 64 ->
  strconv.ParseUint_digits true 10 ((2 ^ 64 - 1) / 10 + 1) (2 ^ 64 - 1)
    (NilEmpty.string_of_uint l) (Zpos acc) false
  = strconv.digits_ok (Zpos (Pos.of_uint_acc l acc)) false.
Proof.
  revert acc. induction l; intros acc Hb; [reflexivity | ..];
    simpl NilEmpty.string_of_uint; simpl Pos.of_uint_acc in *;
    match type of Hb with Z.pos (Pos.of_uint_acc _ ?x) < _ =>
      pose proof (of_uint_acc_ge l x) as Hge; rewrite <- (IHl x Hb) end;
    (rewrite ParseUint_digits_step; [eval_ord; f_equal; lia | eval_ord; lia ..]).
Qed.

Lemma to_uint_unorm (p : positive) : Decimal.unorm (Pos.to_uint p) = Pos.to_uint p.
Proof.
  rewrite <- DecimalPos.Unsigned.to_of, DecimalPos.Unsigned.of_to. reflexivity.
Qed.

Lemma to_uint_head (p : positive) (l : Decimal.uint) : Pos.to_uint p <> Decimal.D0 l.
Proof.
  intros H. pose proof (to_uint_unorm p) as Hu. rewrite H in Hu.
  rewrite DecimalFacts.unorm_D0 in Hu. unfold Decimal.unorm in Hu.
  destruct (Decimal.nzhead l) eqn:Hl; try discriminate.
  - injection Hu as <-. by apply (DecimalPos.Unsigned.to_uint_nonzero p).
  - eapply DecimalFacts.nzhead_nonzero. eassumption.
Qed.

Lemma ParseUint_decimal (p : positive) :
  Zpos p < 2 ^ 64 ->
  strconv.ParseUint (NilEmpty.string_of_uint (Pos.to_uint p)) 0 64 = (Zpos p, None).
Proof.
  intros Hp.
  pose proof (DecimalPos.Unsigned.of_to p) as Hof.
  pose proof (DecimalPos.Unsigned.to_uint_nonnil p) as Hnil.
  pose proof (to_uint_head p) as Hhead.
  destruct (Pos.to_uint p) as [|l|l|l|l|l|l|l|l|l|l];
    [done | by destruct (Hhead l) | ..];
    simpl in Hof; injection Hof as Hof; subst p;
    unfold strconv.ParseUint; simpl NilEmpty.string_of_uint;
    unfold strconv.basePrefix; eval_ord;
    cbn -[strconv.ParseUint_digits strconv.underscoreOK Z.pow Z.div Z.sub Z.add NilEmpty.string_of_uint];
    unfold strconv.maxUint64;
    (rewrite ParseUint_digits_step; [eval_ord | eval_ord; lia ..]);
    match goal with |- context [0 * 10 + (?a - 48)] =>
      let v := eval vm_compute in (0 * 10 + (a - 48)) in
      change (0 * 10 + (a - 48)) with v end;
    rewrite ParseUint_digits_decimal by done; reflexivity.
Qed.

Lemma to_uint_string (p : positive) :
  NilZero.string_of_uint (Pos.to_uint p) = NilEmpty.string_of_uint (Pos.to_uint p) /\
  exists ch rest,
    NilEmpty.string_of_uint (Pos.to_uint p) = String ch rest /\ 49 <= ord ch <= 57.
Proof.
  pose proof (DecimalPos.Unsigned.to_uint_nonnil p) as Hnil.
  pose proof (to_uint_head p) as Hhead.
  destruct (Pos.to_uint p) as [|l|l|l|l|l|l|l|l|l|l];
    [done | by destruct (Hhead l) | ..];
    (split; [reflexivity |]); do 2 eexists; (split; [reflexivity |]); eval_ord; lia.
Qed.

Lemma ParseInt_FormatInt10 (i : Z) :
  - 2 ^ 63 <= i < 2 ^ 63 ->
  strconv.ParseInt (strconv.FormatInt10 i) 0 64 = (i, None).
Proof.
  intros Hi. unfold strconv.FormatInt10.
  destruct i as [|p|p]; [reflexivity | ..]; simpl Z.to_int; unfold NilZero.string_of_int;
    destruct (to_uint_string p) as (-> & ch & rest & Hs & Hch);
    pose proof (ParseUint_decimal p) as Hu.
  - rewrite Hs in *. unfold strconv.ParseInt. eval_ord.
    replace (ord ch =? 43) with false by lia.
    replace (ord ch =? 45) with false by lia.
    rewrite Hu by lia. cbn [strconv.isErrRange negb andb].
    change (if 64 =? 0 then strconv.IntSize else 64) with 64.
    replace (2 ^ (64 - 1) <=? Z.pos p) with false by lia. reflexivity.
  - unfold strconv.ParseInt. eval_ord.
    change (45 =? 43) with false. change (45 =? 45) with true. cbv iota.
    rewrite Hu by lia. cbn [negb andb].
    change (if 64 =? 0 then strconv.IntSize else 64) with 64.
    replace (2 ^ (64 - 1) <? Z.pos p) with false by lia. reflexivity.
Qed.

Lemma Contains_no_point (l : Decimal.uint) :
  gostrings.Contains (NilEmpty.string_of_uint l) "." = false.
Proof. induction l; [reflexivity | ..]; simpl; exact IHl. Qed.

Lemma FormatInt10_no_point (i : Z) : gostrings.Contains (strconv.FormatInt10 i) "." = false.
Proof.
  unfold strconv.FormatInt10.
  destruct i as [|p|p]; [reflexivity | ..]; simpl Z.to_int; unfold NilZero.string_of_int;
    destruct (to_uint_string p) as (-> & _); [| simpl]; apply Contains_no_point.
Qed.

(** ** The lazy loader *)

(** The host call [prefsFileName] makes, and what it returns. *)
Definition prefsCall (c : Lazy.Config) : call :=
  if Lazy.Location c =? Lazy.RelativeToExecutable then call_Executable
  else call_UserConfigDir.

Definition prefsFile (h : Host) (c : Lazy.Config) : string * option error :=
  fst (Lazy.prefsFileName h (c, [])).

Lemma prefsFileName_run (h : Host) (c : Lazy.Config) (l : list call) :
  Lazy.prefsFileName h (c, l) = (prefsFile h c, (c, l ++ [prefsCall c])).
Proof.
  unfold prefsFile, prefsCall, Lazy.prefsFileName, bind, liftC, get, perform, ret.
  destruct (Lazy.Location c =? Lazy.RelativeToExecutable).
  - destruct (os_Executable h) as [dir [e|]]; reflexivity.
  - destruct (os_UserConfigDir h) as [dir [e|]]; reflexivity.
Qed.

Lemma prefsFile_attempted (h : Host) (c : Lazy.Config) :
  prefsFile h (Lazy.withLoadAttempted true c) = prefsFile h c.
Proof.
  unfold prefsFile, Lazy.prefsFileName, bind, liftC, get, perform, ret. simpl.
  destruct (Lazy.Location c =? Lazy.RelativeToExecutable).
  - destruct (os_Executable h) as [dir [e|]]; reflexivity.
  - destruct (os_UserConfigDir h) as [dir [e|]]; reflexivity.
Qed.

(** The context and the calls after [loadTOML] ran on a context that had
    not attempted the load. *)
Definition loaded (h : Host) (c : Lazy.Config) (l : list call) : Lazy.Config * list call :=
  let c1 := Lazy.withLoadAttempted true c in
  match prefsFile h c with
  | (_, Some e) => (Lazy.addErrors [e] c1, l ++ [prefsCall c])
  | (pfile, None) =>
      match os_Open h pfile with
      | Some e => (Lazy.addWarnings [e] c1, l ++ [prefsCall c; call_Open pfile])
      | None =>
          let c2 :=
            match toml_LoadReader h pfile with
            | inr e => Lazy.addErrors [e] c1
            | inl t => Lazy.withLoaded t pfile c1
            end in
          (match file_Close h pfile with
           | Some e => Lazy.addErrors [e] c2
           | None => c2
           end,
           l ++ [prefsCall c; call_Open pfile; call_LoadReader pfile; call_Close pfile])
      end
  end.

Lemma loadTOML_first (h : Host) (c : Lazy.Config) (l : list call) :
  Lazy.loadAttempted c = false ->
  Lazy.loadTOML h (c, l) = (tt, loaded h c l).
Proof.
  intros Hc. unfold Lazy.loadTOML, loaded.
  unfold bind at 1. unfold liftC at 1, get. rewrite Hc.
  unfold bind at 1. unfold liftC at 1, modify.
  unfold bind at 1. rewrite prefsFileName_run, prefsFile_attempted.
  change (prefsCall (Lazy.withLoadAttempted true c)) with (prefsCall c).
  destruct (prefsFile h c) as [pfile [e|]]; [reflexivity |].
  unfold bind, perform, liftC, ret, modify, Lazy.appendWarning, Lazy.appendError.
  destruct (os_Open h pfile) as [e|].
  - do 2 f_equal. by rewrite <- !app_assoc.
  - destruct (toml_LoadReader h pfile) as [t|e];
      destruct (file_Close h pfile) as [e'|]; simpl;
      do 2 f_equal; by rewrite <- !app_assoc.
Qed.

Lemma loadTOML_again (h : Host) (c : Lazy.Config) (l : list call) :
  Lazy.loadAttempted c = true ->
  Lazy.loadTOML h (c, l) = (tt, (c, l)).
Proof.
  intros Hc. unfold Lazy.loadTOML, bind, liftC, get. by rewrite Hc.
Qed.

(** The part of [FromFile] after [loadTOML]: the look-up in the tree. *)
Definition lookup (key : string) (c : Lazy.Config) : option string * Lazy.Config :=
  match Lazy.fileData c with
  | None => (None, c)
  | Some t =>
      if toml.Has t key then
        let '(x, c') := Lazy.toString (toml.Get t key) c in (Some x, c')
      else (None, c)
  end.

Lemma FromFile_run (h : Host) (key : string) (c : Lazy.Config) (l : list call) :
  Lazy.FromFile h key (c, l)
  = let '(c1, l1) := if Lazy.loadAttempted c then (c, l) else loaded h c l in
    (fst (lookup key c1), (snd (lookup key c1), l1)).
Proof.
  unfold Lazy.FromFile. unfold bind at 1.
  destruct (Lazy.loadAttempted c) eqn:Hc.
  - rewrite loadTOML_again by done.
    unfold lookup, bind, liftC, get, ret.
    destruct (Lazy.fileData c) as [t|]; [| reflexivity].
    destruct (toml.Has t key); [| reflexivity].
    by destruct (Lazy.toString (toml.Get t key) c).
  - rewrite loadTOML_first by done.
    destruct (loaded h c l) as [c1 l1].
    unfold lookup, bind, liftC, get, ret.
    destruct (Lazy.fileData c1) as [t|]; [| reflexivity].
    destruct (toml.Has t key); [| reflexivity].
    by destruct (Lazy.toString (toml.Get t key) c1).
Qed.

Lemma Lazy_toString_appends (x : any) (c : Lazy.Config) :
  exists es, snd (Lazy.toString x c) = Lazy.addErrors es c.
Proof.
  destruct x; simpl;
    first [ by exists [typeError any_nil]
          | by (eexists [_])
          | (exists []; by rewrite Lazy_addErrors_nil) ].
Qed.

Lemma lookup_appends (key : string) (c : Lazy.Config) :
  exists es, snd (lookup key c) = Lazy.addErrors es c.
Proof.
  unfold lookup.
  destruct (Lazy.fileData c) as [t|]; [| exists []; by rewrite Lazy_addErrors_nil].
  destruct (toml.Has t key); [| exists []; by rewrite Lazy_addErrors_nil].
  destruct (Lazy_toString_appends (toml.Get t key) c) as [es Hes].
  exists es. by destruct (Lazy.toString (toml.Get t key) c).
Qed.

Lemma loaded_attempted (h : Host) (c : Lazy.Config) (l : list call) :
  Lazy.loadAttempted (fst (loaded h c l)) = true.
Proof.
  unfold loaded.
  destruct (prefsFile h c) as [pfile [e|]]; [reflexivity |].
  destruct (os_Open h pfile) as [e|]; [reflexivity |].
  destruct (toml_LoadReader h pfile); destruct (file_Close h pfile); reflexivity.
Qed.

Definition isOpen (cl : call) : bool :=
  match cl with call_Open _ => true | _ => false end.

Definition isLoadReader (cl : call) : bool :=
  match cl with call_LoadReader _ => true | _ => false end.

(** How often a sequence of calls opens a file, and parses one. *)
Definition opens (l : list call) : nat := length (List.filter isOpen l).
Definition parses (l : list call) : nat := length (List.filter isLoadReader l).

Lemma loaded_calls (h : Host) (c : Lazy.Config) (l : list call) :
  exists new,
    snd (loaded h c l) = l ++ new /\ (opens new <= 1)%nat /\ (parses new <= 1)%nat.
Proof.
  unfold loaded, prefsCall.
  destruct (prefsFile h c) as [pfile [e|]];
    [| destruct (os_Open h pfile) as [e|]];
    eexists; (split; [reflexivity |]);
    destruct (Lazy.Location c =? Lazy.RelativeToExecutable);
    unfold opens, parses; simpl; split; lia.
Qed.

(** A caller that looks up one key after the other, each time on the host
    as it is then. *)
Fixpoint lookups (reqs : list (Host * string)) : IO Lazy.Config (list (option string)) :=
  match reqs with
  | [] => ret []
  | (h, key) :: rest =>
      let* r := Lazy.FromFile h key in
      let* rs := lookups rest in
      ret (r :: rs)
  end.

Lemma FromFile_attempted (h : Host) (key : string) (c : Lazy.Config) (l : list call) :
  Lazy.loadAttempted c = true ->
  snd (snd (Lazy.FromFile h key (c, l))) = l /\
  Lazy.fileData (fst (snd (Lazy.FromFile h key (c, l)))) = Lazy.fileData c /\
  Lazy.loadAttempted (fst (snd (Lazy.FromFile h key (c, l)))) = true.
Proof.
  intros Hc. rewrite FromFile_run, Hc. simpl.
  destruct (lookup_appends key c) as [es ->]. by rewrite <- Hc.
Qed.

Lemma FromFile_sets_flag (h : Host) (key : string) (c : Lazy.Config) (l : list call) :
  Lazy.loadAttempted (fst (snd (Lazy.FromFile h key (c, l)))) = true.
Proof.
  destruct (Lazy.loadAttempted c) eqn:Hc; [by apply FromFile_attempted |].
  rewrite FromFile_run, Hc.
  pose proof (loaded_attempted h c l) as Hl.
  destruct (loaded h c l) as [c1 l1]. simpl in *.
  destruct (lookup_appends key c1) as [es ->]. exact Hl.
Qed.

Lemma lookups_attempted (reqs : list (Host * string)) (c : Lazy.Config) (l : list call) :
  Lazy.loadAttempted c = true ->
  snd (snd (lookups reqs (c, l))) = l.
Proof.
  revert c l. induction reqs as [|[h key] rest IH]; intros c l Hc; [reflexivity |].
  simpl. unfold bind at 1.
  destruct (FromFile_attempted h key c l Hc) as (Hl & _ & Hflag).
  destruct (Lazy.FromFile h key (c, l)) as [r [c1 l1]]. simpl in *. subst l1.
  unfold bind at 1. specialize (IH c1 l Hflag).
  destruct (lookups rest (c1, l)) as [rs [c2 l2]]. exact IH.
Qed.

(** C5. In the lazy revision the load runs at most once for a context.
    Every [FromFile] leaves the load-attempted flag set, and the first one
    performs the load: where the host has the file, it is opened, parsed
    and closed, and its tree is kept.  On a context whose flag is set
    [FromFile] asks nothing of the host, whatever the key, and leaves the
    parsed tree as it is; when the attempt had failed and there is no
    tree, it returns absent and changes nothing.  So a caller that looks
    up any number of keys, from any context, opens a file at most once
    and parses at most once. *)
Theorem lazy_load_at_most_once (reqs : list (Host * string)) (h : Host) (key : string)
    (c : Lazy.Config) (l : list call) :
  Lazy.loadAttempted (fst (snd (Lazy.FromFile h key (c, l)))) = true /\
  (Lazy.loadAttempted c = false ->
     forall pfile t,
       prefsFile h c = (pfile, None) -> os_Open h pfile = None ->
       toml_LoadReader h pfile = inl t ->
       Lazy.fileData (fst (snd (Lazy.FromFile h key (c, l)))) = Some t /\
       snd (snd (Lazy.FromFile h key (c, l)))
       = l ++ [prefsCall c; call_Open pfile; call_LoadReader pfile; call_Close pfile]) /\
  (Lazy.loadAttempted c = true ->
     snd (snd (Lazy.FromFile h key (c, l))) = l /\
     Lazy.fileData (fst (snd (Lazy.FromFile h key (c, l)))) = Lazy.fileData c) /\
  (Lazy.loadAttempted c = true -> Lazy.fileData c = None ->
     Lazy.FromFile h key (c, l) = (None, (c, l))) /\
  (opens (snd (snd (lookups reqs (c, [])))) <= 1)%nat /\
  (parses (snd (snd (lookups reqs (c, [])))) <= 1)%nat.
Proof.
  split; [apply FromFile_sets_flag |].
  split.
  { intros Hc pfile t Hp Ho Ht. rewrite FromFile_run, Hc.
    unfold loaded. rewrite Hp, Ho, Ht.
    destruct (file_Close h pfile) as [e|]; simpl;
      match goal with |- context [lookup key ?c1] =>
        destruct (lookup_appends key c1) as [es ->] end; done. }
  split; [intros Hc; by destruct (FromFile_attempted h key c l Hc) as (? & ? & _) |].
  split.
  { intros Hc Ht. rewrite FromFile_run, Hc. unfold lookup. by rewrite Ht. }
  destruct reqs as [|[h1 key1] rest]; [unfold opens, parses; simpl; split; lia |].
  simpl. unfold bind at 1 3.
  pose proof (FromFile_sets_flag h1 key1 c []) as Hflag.
  assert (Hcalls : (opens (snd (snd (Lazy.FromFile h1 key1 (c, [])))) <= 1)%nat /\
                   (parses (snd (snd (Lazy.FromFile h1 key1 (c, [])))) <= 1)%nat).
  { rewrite FromFile_run.
    destruct (Lazy.loadAttempted c); [unfold opens, parses; simpl; split; lia |].
    destruct (loaded_calls h1 c []) as (new & Hnew & Ho & Hp).
    destruct (loaded h1 c []) as [c1 l1]. simpl in *. by subst l1. }
  destruct (Lazy.FromFile h1 key1 (c, [])) as [r [c1 l1]]. simpl in *.
  unfold bind at 1 2.
  pose proof (lookups_attempted rest c1 l1 Hflag) as Hrest.
  destruct (lookups rest (c1, l1)) as [rs [c2 l2]]. simpl in *. by subst l2.
Qed.

(** The context and the calls after a first look-up on [bare], where the
    file did not open. *)
Definition missed : Lazy.Config * list call :=
  snd (Lazy.FromFile bare "alpha" (Lazy.New "app", [])).

Lemma lazy_load_at_most_once_witness :
  Lazy.fileData (fst (snd (Lazy.FromFile furnished "alpha" (Lazy.New "app", []))))
  = Some testTree /\
  Lazy.FromFile furnished "beta" missed = (None, missed) /\
  snd (snd (Lazy.FromFile furnished "beta" missed)) = snd missed /\
  Lazy.fileData (fst (snd (Lazy.FromFile furnished "beta" missed))) = None.
Proof.
  destruct (lazy_load_at_most_once [] furnished "alpha" (Lazy.New "app") [])
    as (_ & Hfirst & _).
  destruct (lazy_load_at_most_once [] furnished "beta" (fst missed) (snd missed))
    as (_ & _ & Hsame & Hfailed & _).
  split.
  { by destruct (Hfirst eq_refl "/home/u/.config/app/config.toml" testTree
                   eq_refl eq_refl eq_refl). }
  split; [apply Hfailed; reflexivity |].
  apply Hsame. reflexivity.
Defined.

(** The scenario of the tests, on the lazy revision: the four keys of the
    file, a key that is not there, and one open and one parse in all. *)
Example lazy_scenario :
  fst (lookups [(furnished, "alpha"); (furnished, "beta"); (furnished, "gamma");
                (furnished, "delta"); (furnished, "zeta")] (Lazy.New "TestApp", []))
  = [Some "Some string"; Some "42"; Some "true"; Some "3.14159"; None] /\
  snd (snd (lookups [(furnished, "alpha"); (furnished, "beta"); (furnished, "gamma");
                     (furnished, "delta"); (furnished, "zeta")] (Lazy.New "TestApp", [])))
  = [call_UserConfigDir;
     call_Open "/home/u/.config/TestApp/config.toml";
     call_LoadReader "/home/u/.config/TestApp/config.toml";
     call_Close "/home/u/.config/TestApp/config.toml"].
Proof. split; vm_compute; reflexivity. Qed.

(** ** Where failures go *)

Definition homeError (e : error) : error :=
  Errorf "couldn't locate home directory: %w" [a_error e].

Definition executableError (e : error) : error :=
  Errorf "couldn't locate executable: %w" [a_error e].

(** The errors of an optional error, and of a parse. *)
Definition errorOf (err : option error) : list error :=
  match err with Some e => [e] | None => [] end.

Definition parseErrorOf (r : gmap string any + error) : list error :=
  match r with inr e => [e] | inl _ => [] end.

Ltac run_io :=
  unfold bind, liftC, perform, get, modify, ret,
    Eager.appendError, Lazy.appendError, Lazy.appendWarning.

Lemma UserHomeDir_fails (h : Host) (c : Eager.Config) (l : list call)
    (home : string) (e : error) :
  os_UserHomeDir h = (home, Some e) ->
  Eager.UserHomeDir h (c, l)
  = (None, (Eager.addErrors [homeError e] c, l ++ [call_UserHomeDir])).
Proof. intros H. unfold Eager.UserHomeDir. run_io. by rewrite H. Qed.

Lemma UserConfigDir_fails (h : Host) (c : Eager.Config) (l : list call)
    (home : string) (e : error) :
  os_UserConfigDir h = (home, Some e) ->
  Eager.UserConfigDir h (c, l)
  = (None, (Eager.addErrors [homeError e] c, l ++ [call_UserConfigDir])).
Proof. intros H. unfold Eager.UserConfigDir. run_io. by rewrite H. Qed.

Lemma Executable_fails (h : Host) (c : Eager.Config) (l : list call)
    (exe : string) (e : error) :
  os_Executable h = (exe, Some e) ->
  Eager.Executable h (c, l)
  = (None, (Eager.addErrors [executableError e] c, l ++ [call_Executable])).
Proof. intros H. unfold Eager.Executable. run_io. by rewrite H. Qed.

Lemma FileFromExecutable_fails (h : Host) (c : Eager.Config) (l : list call)
    (dir : string) (e : error) :
  os_Executable h = (dir, Some e) ->
  Eager.FileFromExecutable h (c, l)
  = ("", (Eager.addErrors [e] c, l ++ [call_Executable])).
Proof. intros H. unfold Eager.FileFromExecutable. run_io. by rewrite H. Qed.

Lemma FileFromHome_fails (h : Host) (c : Eager.Config) (l : list call)
    (dir : string) (e : error) :
  os_UserConfigDir h = (dir, Some e) ->
  Eager.FileFromHome h (c, l)
  = ("", (Eager.addErrors [e] c, l ++ [call_UserConfigDir])).
Proof. intros H. unfold Eager.FileFromHome. run_io. by rewrite H. Qed.

Lemma Load_open_fails (h : Host) (c : Eager.Config) (l : list call)
    (filename : string) (e : error) :
  os_Open h filename = Some e ->
  Eager.Load h filename (c, l)
  = (tt, (Eager.addErrors [e] c, l ++ [call_Open filename])).
Proof. intros H. unfold Eager.Load. run_io. by rewrite H. Qed.

Lemma Load_opened (h : Host) (c : Eager.Config) (l : list call) (filename : string) :
  os_Open h filename = None ->
  Eager.Errors (fst (snd (Eager.Load h filename (c, l))))
  = Eager.Errors c ++ parseErrorOf (toml_LoadReader h filename)
      ++ errorOf (file_Close h filename) /\
  (parseErrorOf (toml_LoadReader h filename) <> [] ->
   Eager.fileData (fst (snd (Eager.Load h filename (c, l)))) = Eager.fileData c).
Proof.
  intros H. unfold Eager.Load. run_io. rewrite H.
  destruct (toml_LoadReader h filename) as [t|e];
    destruct (file_Close h filename) as [e'|]; simpl;
    rewrite <- ?app_assoc, ?app_nil_r; done.
Qed.

Lemma Find_keeps_context (h : Host) (paths : list string) (c : Eager.Config)
    (l : list call) :
  fst (snd (Eager.Find h paths (c, l))) = c.
Proof.
  revert l. induction paths as [|elem rest IH]; intros l; [reflexivity |].
  simpl. destruct (negb (String.eqb elem "")); [| apply IH].
  unfold Eager.fileExists. run_io.
  destruct (os_Stat h elem) as [e|]; [| reflexivity].
  destruct (os_IsNotExist h e); apply IH.
Qed.

Lemma Find_stat_fails (h : Host) (elem : string) (rest : list string)
    (c : Eager.Config) (l : list call) (e : error) :
  elem <> "" ->
  os_Stat h elem = Some e ->
  os_IsNotExist h e = false ->
  Eager.Find h (elem :: rest) (c, l)
  = Eager.Find h rest (c, l ++ [call_Stat elem; call_Printf e]).
Proof.
  intros Hne Hstat Hnot. simpl.
  apply String.eqb_neq in Hne. rewrite Hne. simpl.
  unfold Eager.fileExists. run_io. rewrite Hstat, Hnot.
  by rewrite <- app_assoc.
Qed.

Lemma tomlError_files (filename stage : string) (err : error) (c : Lazy.Config) :
  Lazy.tomlError filename stage err c
  = (tt,
     if String.eqb stage "locate"
     then Lazy.addWarnings
            [Errorf "can't %s TOML preference file %s: %w"
               [a_string stage; a_string filename; a_error err]] c
     else Lazy.addErrors
            [Errorf "can't %s TOML preference file %s: %w"
               [a_string stage; a_string filename; a_error err]] c).
Proof. unfold Lazy.tomlError. by destruct (String.eqb stage "locate"). Qed.

Lemma ResolveBool_unrecognized (U : gostrings.Unicode) (pre rest : list (option string))
    (s : string) (c : Eager.Config) :
  Forall (fun elem => blank elem = true) pre ->
  s <> "" ->
  snd (fst (Eager.stringToBool U s c)) = false ->
  Eager.ResolveBool U (pre ++ Some s :: rest) c
  = (false, Eager.addErrors [boolError s] c).
Proof.
  intros Hpre Hs Hok. rewrite ResolveBool_first by done.
  rewrite stringToBool_run in *. simpl in *.
  destruct (existsb _ (Eager.TrueStrings c)); [discriminate |].
  destruct (existsb _ (Eager.FalseStrings c)); [discriminate | reflexivity].
Qed.

Lemma loadTOML_prefs_fails (h : Host) (c : Lazy.Config) (l : list call)
    (dir : string) (e : error) :
  Lazy.loadAttempted c = false ->
  prefsFile h c = (dir, Some e) ->
  Lazy.loadTOML h (c, l)
  = (tt, (Lazy.addErrors [e] (Lazy.withLoadAttempted true c), l ++ [prefsCall c])).
Proof.
  intros Hc Hp. rewrite loadTOML_first by done. unfold loaded. by rewrite Hp.
Qed.

Lemma loadTOML_open_fails (h : Host) (c : Lazy.Config) (l : list call)
    (pfile : string) (e : error) :
  Lazy.loadAttempted c = false ->
  prefsFile h c = (pfile, None) ->
  os_Open h pfile = Some e ->
  Lazy.loadTOML h (c, l)
  = (tt, (Lazy.addWarnings [e] (Lazy.withLoadAttempted true c),
          l ++ [prefsCall c; call_Open pfile])).
Proof.
  intros Hc Hp Ho. rewrite loadTOML_first by done. unfold loaded. by rewrite Hp, Ho.
Qed.

Lemma loadTOML_opened (h : Host) (c : Lazy.Config) (l : list call) (pfile : string) :
  Lazy.loadAttempted c = false ->
  prefsFile h c = (pfile, None) ->
  os_Open h pfile = None ->
  Lazy.Errors (fst (snd (Lazy.loadTOML h (c, l))))
  = Lazy.Errors c ++ parseErrorOf (toml_LoadReader h pfile) ++ errorOf (file_Close h pfile) /\
  (parseErrorOf (toml_LoadReader h pfile) <> [] ->
   Lazy.fileData (fst (snd (Lazy.loadTOML h (c, l)))) = Lazy.fileData c).
Proof.
  intros Hc Hp Ho. rewrite loadTOML_first by done. unfold loaded. rewrite Hp, Ho.
  destruct (toml_LoadReader h pfile) as [t|e];
    destruct (file_Close h pfile) as [e'|]; simpl;
    rewrite <- ?app_assoc, ?app_nil_r; done.
Qed.

(** C9 (as stated, refuted). On a host where the backing file does not
    open, the first [FromFile] of the lazy revision returns absent and
    the error list stays empty: the failure went to [Warnings]. *)
Lemma lazy_open_failure_is_a_warning :
  os_Open bare "/home/u/.config/app/config.toml" = Some ENOENT /\
  fst (Lazy.FromFile bare "alpha" (Lazy.New "app", [])) = None /\
  Lazy.Errors (fst (snd (Lazy.FromFile bare "alpha" (Lazy.New "app", [])))) = [] /\
  Lazy.Warnings (fst (snd (Lazy.FromFile bare "alpha" (Lazy.New "app", [])))) = [ENOENT] /\
  snd (snd (Lazy.FromFile bare "alpha" (Lazy.New "app", [])))
  = [call_UserConfigDir; call_Open "/home/u/.config/app/config.toml"].
Proof. repeat split. Qed.

(** C9 (amended). No failure of a provider, of a resolver or of the
    loader stops the program: each returns a zero, empty or absent value.
    The failure is appended to the error list of the context when it is a
    failed query for a directory or the executable, a file that [Load]
    cannot open, a file that does not parse or does not close, a value of
    an unsupported type, a text that does not coerce, or a list with no
    usable candidate.  It is not when the lazy loader cannot open the
    backing file, which goes to [Warnings] (as does what [tomlError] is
    given for the stage "locate"), nor when [Find] cannot look at a path,
    which it prints, leaving the context as it was. *)
Theorem failures_are_recorded (U : gostrings.Unicode) (h : Host) (c : Eager.Config)
    (c' : Lazy.Config) (l : list call) :
  (forall home e, os_UserHomeDir h = (home, Some e) ->
     Eager.UserHomeDir h (c, l)
     = (None, (Eager.addErrors [homeError e] c, l ++ [call_UserHomeDir]))) /\
  (forall home e, os_UserConfigDir h = (home, Some e) ->
     Eager.UserConfigDir h (c, l)
     = (None, (Eager.addErrors [homeError e] c, l ++ [call_UserConfigDir])) /\
     Eager.FileFromHome h (c, l)
     = ("", (Eager.addErrors [e] c, l ++ [call_UserConfigDir]))) /\
  (forall exe e, os_Executable h = (exe, Some e) ->
     Eager.Executable h (c, l)
     = (None, (Eager.addErrors [executableError e] c, l ++ [call_Executable])) /\
     Eager.FileFromExecutable h (c, l)
     = ("", (Eager.addErrors [e] c, l ++ [call_Executable]))) /\
  (forall filename e, os_Open h filename = Some e ->
     Eager.Load h filename (c, l)
     = (tt, (Eager.addErrors [e] c, l ++ [call_Open filename]))) /\
  (forall filename, os_Open h filename = None ->
     Eager.Errors (fst (snd (Eager.Load h filename (c, l))))
     = Eager.Errors c ++ parseErrorOf (toml_LoadReader h filename)
         ++ errorOf (file_Close h filename) /\
     (parseErrorOf (toml_LoadReader h filename) <> [] ->
      Eager.fileData (fst (snd (Eager.Load h filename (c, l)))) = Eager.fileData c)) /\
  (forall paths, fst (snd (Eager.Find h paths (c, l))) = c) /\
  (forall elem rest e, elem <> "" -> os_Stat h elem = Some e -> os_IsNotExist h e = false ->
     Eager.Find h (elem :: rest) (c, l)
     = Eager.Find h rest (c, l ++ [call_Stat elem; call_Printf e])) /\
  (forall x, supported x = false ->
     Eager.toString x c = ("", Eager.addErrors [typeError x] c)) /\
  (forall n, Eager.ResolveString (replicate n None) c
     = ("", Eager.addErrors [Errorf "missing default string value" []] c)) /\
  (forall list, Forall (fun elem => resolves (parseInt 64) elem = false) list ->
     Eager.ResolveInt list c
     = (0, Eager.addErrors
             (flat_map (passed (parseInt 64)) list
                ++ [Errorf "missing default int value" []]) c)) /\
  (forall list,
     Forall (fun elem => resolves (fun s => strconv.ParseFloat s 64) elem = false) list ->
     Eager.ResolveFloat64 list c
     = (S754_zero false,
        Eager.addErrors
          (flat_map (passed (fun s => strconv.ParseFloat s 64)) list
             ++ [Errorf "missing default int value" []]) c)) /\
  (forall list, Forall (fun elem => blank elem = true) list ->
     Eager.ResolveBool U list c
     = (false, Eager.addErrors [Errorf "missing default bool value" []] c)) /\
  (forall pre s rest, Forall (fun elem => blank elem = true) pre -> s <> "" ->
     snd (fst (Eager.stringToBool U s c)) = false ->
     Eager.ResolveBool U (pre ++ Some s :: rest) c
     = (false, Eager.addErrors [boolError s] c)) /\
  (forall dir e, Lazy.loadAttempted c' = false -> prefsFile h c' = (dir, Some e) ->
     Lazy.loadTOML h (c', l)
     = (tt, (Lazy.addErrors [e] (Lazy.withLoadAttempted true c'), l ++ [prefsCall c']))) /\
  (forall pfile e, Lazy.loadAttempted c' = false -> prefsFile h c' = (pfile, None) ->
     os_Open h pfile = Some e ->
     Lazy.loadTOML h (c', l)
     = (tt, (Lazy.addWarnings [e] (Lazy.withLoadAttempted true c'),
             l ++ [prefsCall c'; call_Open pfile]))) /\
  (forall pfile, Lazy.loadAttempted c' = false -> prefsFile h c' = (pfile, None) ->
     os_Open h pfile = None ->
     Lazy.Errors (fst (snd (Lazy.loadTOML h (c', l))))
     = Lazy.Errors c' ++ parseErrorOf (toml_LoadReader h pfile)
         ++ errorOf (file_Close h pfile) /\
     (parseErrorOf (toml_LoadReader h pfile) <> [] ->
      Lazy.fileData (fst (snd (Lazy.loadTOML h (c', l)))) = Lazy.fileData c')) /\
  (forall filename stage err,
     Lazy.tomlError filename stage err c'
     = (tt,
        if String.eqb stage "locate"
        then Lazy.addWarnings
               [Errorf "can't %s TOML preference file %s: %w"
                  [a_string stage; a_string filename; a_error err]] c'
        else Lazy.addErrors
               [Errorf "can't %s TOML preference file %s: %w"
                  [a_string stage; a_string filename; a_error err]] c')).
Proof.
  split_and!.
  - intros. by eapply UserHomeDir_fails.
  - intros. split; [by eapply UserConfigDir_fails | by eapply FileFromHome_fails].
  - intros. split; [by eapply Executable_fails | by eapply FileFromExecutable_fails].
  - intros. by apply Load_open_fails.
  - intros. by apply Load_opened.
  - intros. apply Find_keeps_context.
  - intros. by apply Find_stat_fails.
  - intros. by apply toString_unsupported.
  - intros. apply ResolveString_absent.
  - intros list Hl. rewrite ResolveInt_walk.
    apply walk_exhausted; auto using Eager_addErrors_nil, Eager_addErrors_app.
  - intros list Hl. rewrite ResolveFloat64_walk.
    apply (walk_exhausted (fun s => strconv.ParseFloat s 64));
      auto using Eager_addErrors_nil, Eager_addErrors_app.
  - intros list Hl. induction Hl as [|elem rest Helem _ IH]; [reflexivity |].
    by rewrite ResolveBool_cons_blank.
  - intros. by apply ResolveBool_unrecognized.
  - intros. by eapply loadTOML_prefs_fails.
  - intros. by apply loadTOML_open_fails.
  - intros. by apply loadTOML_opened.
  - intros. apply tomlError_files.
Qed.

Lemma failures_are_recorded_witness :
  Eager.UserHomeDir hostile (Eager.New "app", [])
  = (None, (Eager.addErrors [homeError (errors_New "$HOME is not defined")] (Eager.New "app"),
            [call_UserHomeDir])) /\
  Eager.FileFromHome hostile (Eager.New "app", [])
  = ("", (Eager.addErrors [errors_New "neither $XDG_CONFIG_HOME nor $HOME are defined"]
            (Eager.New "app"),
          [call_UserConfigDir])) /\
  Eager.Executable hostile (Eager.New "app", [])
  = (None, (Eager.addErrors [executableError (errors_New "cannot find executable")]
              (Eager.New "app"),
            [call_Executable])) /\
  Eager.Load bare "/etc/app.toml" (Eager.New "app", [])
  = (tt, (Eager.addErrors [ENOENT] (Eager.New "app"), [call_Open "/etc/app.toml"])) /\
  Eager.Errors (fst (snd (Eager.Load garbled "/etc/app.toml" (Eager.New "app", []))))
  = [errors_New "toml: unexpected token"; errors_New "close: input/output error"] /\
  Eager.fileData (fst (snd (Eager.Load garbled "/etc/app.toml" (Eager.New "app", [])))) = None /\
  Eager.Find bare ["/etc/app.toml"] (Eager.New "app", [])
  = ("", (Eager.New "app",
          [call_Stat "/etc/app.toml"; call_Printf (errors_New "permission denied")])) /\
  Eager.toString (any_other "time.Time") (Eager.New "app")
  = ("", Eager.addErrors [typeError (any_other "time.Time")] (Eager.New "app")) /\
  Eager.ResolveInt [None; Some ""; Some "a"] (Eager.New "app")
  = (0, Eager.addErrors
          [numericError "a" (NumError "ParseInt" "a" strconv.ErrSyntax);
           Errorf "missing default int value" []] (Eager.New "app")) /\
  Eager.ResolveFloat64 [None; Some ""; Some "a"] (Eager.New "app")
  = (S754_zero false,
     Eager.addErrors
       [numericError "a" (NumError "ParseFloat" "a" strconv.ErrSyntax);
        Errorf "missing default int value" []] (Eager.New "app")) /\
  Eager.ResolveBool gostrings.asciiOnly [None; Some ""] (Eager.New "app")
  = (false, Eager.addErrors [Errorf "missing default bool value" []] (Eager.New "app")) /\
  Eager.ResolveBool gostrings.asciiOnly [None; Some "maybe"; Some "true"] (Eager.New "app")
  = (false, Eager.addErrors [boolError "maybe"] (Eager.New "app")) /\
  Lazy.loadTOML hostile (Lazy.New "app", [])
  = (tt, (Lazy.addErrors [errors_New "neither $XDG_CONFIG_HOME nor $HOME are defined"]
            (Lazy.withLoadAttempted true (Lazy.New "app")),
          [call_UserConfigDir])) /\
  Lazy.loadTOML bare (Lazy.New "app", [])
  = (tt, (Lazy.addWarnings [ENOENT] (Lazy.withLoadAttempted true (Lazy.New "app")),
          [call_UserConfigDir; call_Open "/home/u/.config/app/config.toml"])) /\
  Lazy.Errors (fst (snd (Lazy.loadTOML garbled (Lazy.New "app", []))))
  = [errors_New "toml: unexpected token"; errors_New "close: input/output error"] /\
  Lazy.fileData (fst (snd (Lazy.loadTOML garbled (Lazy.New "app", [])))) = None.
Proof.
  destruct (failures_are_recorded gostrings.asciiOnly hostile (Eager.New "app")
              (Lazy.New "app") [])
    as (Hhome & Hconfig & Hexe & _ & _ & _ & _ & _ & _ & _ & _ & _ & _ & Hprefs & _).
  destruct (failures_are_recorded gostrings.asciiOnly bare (Eager.New "app")
              (Lazy.New "app") [])
    as (_ & _ & _ & Hopen & _ & _ & Hstat & Htype & _ & Hint & Hfloat & Hblank & Hbool
        & _ & Hlazyopen & _).
  destruct (failures_are_recorded gostrings.asciiOnly garbled (Eager.New "app")
              (Lazy.New "app") [])
    as (_ & _ & _ & _ & Hparse & _ & _ & _ & _ & _ & _ & _ & _ & _ & _ & Hlazyparse & _).
  split; [exact (Hhome _ _ eq_refl) |].
  split; [exact (proj2 (Hconfig _ _ eq_refl)) |].
  split; [exact (proj1 (Hexe _ _ eq_refl)) |].
  split; [exact (Hopen "/etc/app.toml" _ eq_refl) |].
  destruct (Hparse "/etc/app.toml" eq_refl) as [Herrors Htree].
  split; [exact Herrors |].
  split; [apply Htree; discriminate |].
  split; [apply (Hstat "/etc/app.toml" []); [discriminate | reflexivity | reflexivity] |].
  split; [apply Htype; reflexivity |].
  split; [apply (Hint [None; Some ""; Some "a"]); repeat constructor |].
  split; [apply (Hfloat [None; Some ""; Some "a"]); repeat constructor |].
  split; [apply (Hblank [None; Some ""]); repeat constructor |].
  split; [apply (Hbool [None] "maybe" [Some "true"]);
          [repeat constructor | discriminate | reflexivity] |].
  split; [exact (Hprefs _ _ eq_refl eq_refl) |].
  split; [exact (Hlazyopen _ _ eq_refl eq_refl eq_refl) |].
  destruct (Hlazyparse "/home/u/.config/app/config.toml" eq_refl eq_refl eq_refl)
    as [Hlerrors Hltree].
  split; [exact Hlerrors |].
  apply Hltree; discriminate.
Defined.

(** ** Locating the backing file *)

(** A path [Find] stops at: not empty, and [os.Stat] gives no error. *)
Definition usable (h : Host) (elem : string) : bool :=
  negb (String.eqb elem "") &&
  match os_Stat h elem with None => true | Some _ => false end.

(** What [Find] asks of the host for one path of its list. *)
Definition asked (h : Host) (elem : string) : list call :=
  if String.eqb elem "" then []
  else
    match os_Stat h elem with
    | Some e => if os_IsNotExist h e then [call_Stat elem] else [call_Stat elem; call_Printf e]
    | None => [call_Stat elem]
    end.

Lemma Find_cons_passed (h : Host) (elem : string) (rest : list string)
    (c : Eager.Config) (l : list call) :
  usable h elem = false ->
  Eager.Find h (elem :: rest) (c, l) = Eager.Find h rest (c, l ++ asked h elem).
Proof.
  unfold usable, asked. intros Hu. simpl.
  destruct (String.eqb elem ""); simpl in *; [by rewrite app_nil_r |].
  unfold Eager.fileExists. run_io.
  destruct (os_Stat h elem) as [e|]; [| discriminate].
  destruct (os_IsNotExist h e); [reflexivity | by rewrite <- app_assoc].
Qed.

Lemma Find_cons_usable (h : Host) (elem : string) (rest : list string)
    (c : Eager.Config) (l : list call) :
  usable h elem = true ->
  Eager.Find h (elem :: rest) (c, l) = (elem, (c, l ++ [call_Stat elem])).
Proof.
  unfold usable. intros Hu. simpl.
  destruct (String.eqb elem ""); simpl in *; [discriminate |].
  unfold Eager.fileExists. run_io.
  destruct (os_Stat h elem) as [e|]; [discriminate | reflexivity].
Qed.

Lemma Find_none (h : Host) (paths : list string) (c : Eager.Config) (l : list call) :
  Forall (fun elem => usable h elem = false) paths ->
  Eager.Find h paths (c, l) = ("", (c, l ++ flat_map (asked h) paths)).
Proof.
  intros Hp. revert l.
  induction Hp as [|elem rest Helem _ IH]; intros l; [simpl; by rewrite app_nil_r |].
  rewrite Find_cons_passed by done. rewrite IH. simpl. by rewrite app_assoc.
Qed.

Lemma Find_first (h : Host) (pre post : list string) (p : string)
    (c : Eager.Config) (l : list call) :
  Forall (fun elem => usable h elem = false) pre ->
  usable h p = true ->
  Eager.Find h (pre ++ p :: post) (c, l)
  = (p, (c, l ++ flat_map (asked h) pre ++ [call_Stat p])).
Proof.
  intros Hpre Hp. revert l.
  induction Hpre as [|elem pre Helem _ IH]; intros l.
  - simpl app. by rewrite Find_cons_usable.
  - change ((elem :: pre) ++ p :: post) with (elem :: (pre ++ p :: post)).
    rewrite Find_cons_passed by done. rewrite IH. simpl. by rewrite <- !app_assoc.
Qed.

Lemma asked_no_open (h : Host) (paths : list string) :
  opens (flat_map (asked h) paths) = 0%nat /\ parses (flat_map (asked h) paths) = 0%nat.
Proof.
  unfold opens, parses.
  induction paths as [|elem rest [IHo IHp]]; [done |].
  simpl. rewrite !List.filter_app, !length_app, IHo, IHp.
  unfold asked. destruct (String.eqb elem ""); [done |].
  destruct (os_Stat h elem) as [e|]; [destruct (os_IsNotExist h e) |]; done.
Qed.

(** X1. [Find] returns the first path of its list that is not empty and
    that [os.Stat] can look at, and the empty string when there is none.
    It stats the paths in order, never an empty one and none after the one
    it returns; a stat error other than "does not exist" is printed, not
    recorded: the context is left as it was. *)
Theorem Find_first_usable (h : Host) (c : Eager.Config) (l : list call) :
  (forall pre p post,
     Forall (fun elem => usable h elem = false) pre -> usable h p = true ->
     Eager.Find h (pre ++ p :: post) (c, l)
     = (p, (c, l ++ flat_map (asked h) pre ++ [call_Stat p]))) /\
  (forall paths,
     Forall (fun elem => usable h elem = false) paths ->
     Eager.Find h paths (c, l) = ("", (c, l ++ flat_map (asked h) paths))) /\
  asked h "" = [].
Proof.
  split; [intros; by apply Find_first |].
  split; [intros; by apply Find_none | reflexivity].
Qed.

Lemma Find_first_usable_witness :
  Eager.Find testHost ["/non_existent_dir"; ""; testFile; "/etc/app.toml"] (Eager.New "app", [])
  = (testFile,
     (Eager.New "app", [] ++ [call_Stat "/non_existent_dir"] ++ [call_Stat testFile])) /\
  Eager.Find bare ["/etc/app.toml"; ""] (Eager.New "app", [])
  = ("", (Eager.New "app",
          [] ++ [call_Stat "/etc/app.toml"; call_Printf (errors_New "permission denied")])).
Proof.
  destruct (Find_first_usable testHost (Eager.New "app") []) as (Hfirst & _).
  destruct (Find_first_usable bare (Eager.New "app") []) as (_ & Hnone & _).
  split.
  - apply (Hfirst ["/non_existent_dir"; ""] testFile ["/etc/app.toml"]);
      [repeat constructor | reflexivity].
  - apply (Hnone ["/etc/app.toml"; ""]). repeat constructor.
Defined.

Lemma FindAndLoad_run (h : Host) (paths : list string) (st : Eager.Config * list call) :
  Eager.FindAndLoad h paths st
  = let '(fn, st1) := Eager.Find h paths st in
    (fn, if String.eqb fn "" then st1 else snd (Eager.Load h fn st1)).
Proof.
  unfold Eager.FindAndLoad. unfold bind at 1.
  destruct (Eager.Find h paths st) as [fn st1].
  unfold bind, ret. destruct (String.eqb fn ""); simpl; [reflexivity |].
  by destruct (Eager.Load h fn st1) as [[] st2].
Qed.

Lemma usable_not_empty (h : Host) (p : string) : usable h p = true -> String.eqb p "" = false.
Proof. unfold usable. by destruct (String.eqb p ""). Qed.

Lemma Load_run (h : Host) (filename : string) (c : Eager.Config) (l : list call) :
  Eager.Load h filename (c, l)
  = (tt,
     match os_Open h filename with
     | Some e => (Eager.addErrors [e] c, l ++ [call_Open filename])
     | None =>
         (Eager.addErrors (errorOf (file_Close h filename))
            match toml_LoadReader h filename with
            | inr e => Eager.addErrors [e] c
            | inl filedata => Eager.withFileData (Some filedata) c
            end,
          l ++ [call_Open filename; call_LoadReader filename; call_Close filename])
     end).
Proof.
  unfold Eager.Load. run_io.
  destruct (os_Open h filename) as [e|]; [reflexivity |].
  destruct (toml_LoadReader h filename) as [t|e];
    destruct (file_Close h filename) as [e'|]; simpl;
    rewrite ?Eager_addErrors_nil; do 2 f_equal; by rewrite <- !app_assoc.
Qed.

(** X2. [FindAndLoad] loads the first usable path of its list and looks
    at none after it.  It returns that path whether or not the load went
    well: a file that does not open or does not parse shows in the error
    list only.  With no usable path it returns the empty string, opens
    nothing, and leaves the context as it was. *)
Theorem FindAndLoad_first_usable (h : Host) (c : Eager.Config) (l : list call) :
  (forall paths,
     Forall (fun elem => usable h elem = false) paths ->
     Eager.FindAndLoad h paths (c, l) = ("", (c, l ++ flat_map (asked h) paths)) /\
     opens (flat_map (asked h) paths) = 0%nat) /\
  (forall pre p post,
     Forall (fun elem => usable h elem = false) pre -> usable h p = true ->
     let l1 := l ++ flat_map (asked h) pre ++ [call_Stat p] in
     Eager.FindAndLoad h (pre ++ p :: post) (c, l) = (p, snd (Eager.Load h p (c, l1))) /\
     (forall t, os_Open h p = None -> toml_LoadReader h p = inl t ->
        Eager.FindAndLoad h (pre ++ p :: post) (c, l)
        = (p, (Eager.addErrors (errorOf (file_Close h p)) (Eager.withFileData (Some t) c),
               l1 ++ [call_Open p; call_LoadReader p; call_Close p]))) /\
     (forall e, os_Open h p = Some e ->
        Eager.FindAndLoad h (pre ++ p :: post) (c, l)
        = (p, (Eager.addErrors [e] c, l1 ++ [call_Open p]))) /\
     (forall e, os_Open h p = None -> toml_LoadReader h p = inr e ->
        Eager.FindAndLoad h (pre ++ p :: post) (c, l)
        = (p, (Eager.addErrors ([e] ++ errorOf (file_Close h p)) c,
               l1 ++ [call_Open p; call_LoadReader p; call_Close p])))).
Proof.
  split.
  - intros paths Hp. rewrite FindAndLoad_run, Find_none by done.
    split; [reflexivity | apply asked_no_open].
  - intros pre p post Hpre Hp l1.
    assert (Hrun : Eager.FindAndLoad h (pre ++ p :: post) (c, l)
                   = (p, snd (Eager.Load h p (c, l1)))).
    { rewrite FindAndLoad_run, Find_first by done.
      by rewrite (usable_not_empty h p Hp). }
    split; [exact Hrun |]. rewrite Hrun, Load_run. simpl.
    split_and!.
    + intros t -> ->. reflexivity.
    + intros e ->. reflexivity.
    + intros e -> ->. by rewrite Eager_addErrors_app.
Qed.

Lemma FindAndLoad_first_usable_witness :
  Eager.FindAndLoad bare ["/etc/app.toml"; ""] (Eager.New "app", [])
  = ("", (Eager.New "app",
          [] ++ [call_Stat "/etc/app.toml"; call_Printf (errors_New "permission denied")])) /\
  Eager.FindAndLoad testHost ["/non_existent_dir"; testFile; "/etc/app.toml"] (Eager.New "app", [])
  = (testFile,
     (Eager.addErrors [] (Eager.withFileData (Some testTree) (Eager.New "app")),
      ([] ++ [call_Stat "/non_existent_dir"] ++ [call_Stat testFile])
        ++ [call_Open testFile; call_LoadReader testFile; call_Close testFile])) /\
  Eager.FindAndLoad garbled ["/etc/app.toml"] (Eager.New "app", [])
  = ("/etc/app.toml",
     (Eager.addErrors
        ([errors_New "toml: unexpected token"] ++ [errors_New "close: input/output error"])
        (Eager.New "app"),
      ([] ++ [] ++ [call_Stat "/etc/app.toml"])
        ++ [call_Open "/etc/app.toml"; call_LoadReader "/etc/app.toml";
            call_Close "/etc/app.toml"])).
Proof.
  destruct (FindAndLoad_first_usable bare (Eager.New "app") []) as (Hnone & _).
  destruct (FindAndLoad_first_usable testHost (Eager.New "app") []) as (_ & Hfirst).
  destruct (FindAndLoad_first_usable garbled (Eager.New "app") []) as (_ & Hbad).
  split; [apply (Hnone ["/etc/app.toml"; ""]); repeat constructor |].
  split.
  - destruct (Hfirst ["/non_existent_dir"] testFile ["/etc/app.toml"]) as (_ & Hok & _);
      [repeat constructor | reflexivity |].
    apply Hok; reflexivity.
  - destruct (Hbad [] "/etc/app.toml" []) as (_ & _ & _ & Hparse);
      [repeat constructor | reflexivity |].
    apply Hparse; reflexivity.
Defined.

(** ** Values that come back as they went in *)

Lemma FormatInt10_not_empty (i : Z) : String.eqb (strconv.FormatInt10 i) "" = false.
Proof.
  unfold strconv.FormatInt10.
  destruct i as [|p|p]; [reflexivity | ..]; simpl Z.to_int; unfold NilZero.string_of_int;
    destruct (to_uint_string p) as (-> & ch & rest & -> & _); reflexivity.
Qed.

(** The decimal text of an [int64] is a candidate [ResolveInt] stops at,
    in both revisions. *)
Lemma parseInt_FormatInt10 (bits i : Z) :
  - 2 ^ 63 <= i < 2 ^ 63 ->
  parseInt bits (strconv.FormatInt10 i) = (i, None).
Proof.
  intros Hi. rewrite parseInt_integer by apply FormatInt10_no_point.
  by apply ParseInt_FormatInt10.
Qed.

Lemma resolves_FormatInt10 (bits i : Z) :
  - 2 ^ 63 <= i < 2 ^ 63 ->
  resolves (parseInt bits) (Some (strconv.FormatInt10 i)) = true.
Proof.
  intros Hi. unfold resolves.
  by rewrite FormatInt10_not_empty, parseInt_FormatInt10.
Qed.

Lemma blank_resolves {V : Type} (parse : string -> V * option error) (pre : list (option string)) :
  Forall (fun elem => blank elem = true) pre ->
  Forall (fun elem => resolves parse elem = false) pre /\ flat_map (passed parse) pre = [].
Proof.
  induction 1 as [|elem pre Helem _ [IH1 IH2]]; [done |].
  assert (resolves parse elem = false /\ passed parse elem = []) as [H1 H2].
  { destruct elem as [s|]; simpl in *; [by rewrite Helem | done]. }
  split; [by constructor | simpl; by rewrite H2].
Qed.

Lemma ResolveInt_decimal (i : Z) (pre rest : list (option string)) (c : Eager.Config) :
  - 2 ^ 63 <= i < 2 ^ 63 ->
  Forall (fun elem => blank elem = true) pre ->
  Eager.ResolveInt (pre ++ Some (strconv.FormatInt10 i) :: rest) c = (i, c).
Proof.
  intros Hi Hpre.
  destruct (blank_resolves (parseInt 64) pre Hpre) as [Hres Hpassed].
  rewrite ResolveInt_walk.
  rewrite walk_first;
    auto using Eager_addErrors_nil, Eager_addErrors_app, resolves_FormatInt10.
  by rewrite Hpassed, Eager_addErrors_nil, parseInt_FormatInt10.
Qed.

Lemma Lazy_ResolveInt_decimal (i : Z) (pre rest : list (option string)) (c : Lazy.Config) :
  - 2 ^ 63 <= i < 2 ^ 63 ->
  Forall (fun elem => blank elem = true) pre ->
  Lazy.ResolveInt (pre ++ Some (strconv.FormatInt10 i) :: rest) c = (i, c).
Proof.
  intros Hi Hpre.
  destruct (blank_resolves (parseInt 32) pre Hpre) as [Hres Hpassed].
  rewrite Lazy_ResolveInt_walk.
  rewrite walk_first;
    auto using Lazy_addErrors_nil, Lazy_addErrors_app, resolves_FormatInt10.
  by rewrite Hpassed, Lazy_addErrors_nil, parseInt_FormatInt10.
Qed.

(** ["true"] and ["false"] are not changed by [TrimSpace], and each folds
    to itself. *)
Lemma stringToBool_FormatBool (U : gostrings.Unicode) (b : bool) (c : Eager.Config) :
  Eager.stringToBool U (strconv.FormatBool b) c
  = ((if existsb (gostrings.EqualFold U (strconv.FormatBool b)) (Eager.TrueStrings c)
      then (true, true)
      else if existsb (gostrings.EqualFold U (strconv.FormatBool b)) (Eager.FalseStrings c)
      then (false, true)
      else (false, false)), c).
Proof. rewrite stringToBool_run. by destruct b. Qed.

Lemma existsb_In_EqualFold (U : gostrings.Unicode) (b : bool) (list : list string) :
  In (strconv.FormatBool b) list ->
  existsb (gostrings.EqualFold U (strconv.FormatBool b)) list = true.
Proof.
  intros Hin. apply existsb_exists. exists (strconv.FormatBool b).
  split; [done | by destruct b].
Qed.

Lemma existsb_Forall_false {A} (f : A -> bool) (list : list A) :
  Forall (fun x => f x = false) list -> existsb f list = false.
Proof. induction 1 as [|x l Hx _ IH]; [done | simpl; by rewrite Hx, IH]. Qed.

Lemma ResolveBool_FormatBool (U : gostrings.Unicode) (b : bool)
    (pre rest : list (option string)) (c : Eager.Config) :
  In "true" (Eager.TrueStrings c) ->
  In "false" (Eager.FalseStrings c) ->
  Forall (fun ts => gostrings.EqualFold U "false" ts = false) (Eager.TrueStrings c) ->
  Forall (fun elem => blank elem = true) pre ->
  Eager.ResolveBool U (pre ++ Some (strconv.FormatBool b) :: rest) c = (b, c).
Proof.
  intros Ht Hf Hno Hpre.
  rewrite ResolveBool_first by (done || by destruct b).
  rewrite stringToBool_FormatBool. simpl.
  destruct b.
  - by rewrite (existsb_In_EqualFold U true).
  - rewrite existsb_Forall_false by done.
    by rewrite (existsb_In_EqualFold U false).
Qed.



Lemma FromFile_supported (c : Eager.Config) (t : toml.Tree) (key : string) (v : any) :
  Eager.fileData c = Some t ->
  t !! key = Some v ->
  supported v = true ->
  Eager.FromFile key c = (Some (fst (Eager.toString v c)), c).
Proof.
  intros Ht Hkey Hv.
  unfold Eager.FromFile, bind, get. rewrite Ht.
  unfold toml.Has, toml.Get. rewrite Hkey. simpl.
  pose proof (toString_supported v c Hv) as Hc.
  destruct (Eager.toString v c) as [x c']. simpl in *. by subst c'.
Qed.

(** X4. A value of the backing file comes back as itself: a string
    through [ResolveString] (the empty string as well), an integer through
    [ResolveInt], a boolean through [ResolveBool] where the vocabularies
    list "true" and "false" and no true-string folds to "false".  The
    look-up and the resolution leave the context as it was. *)
Theorem file_value_resolves (U : gostrings.Unicode) (c : Eager.Config) (t : toml.Tree)
    (key : string) :
  Eager.fileData c = Some t ->
  (forall s, t !! key = Some (any_string s) ->
     (let* x := Eager.FromFile key in Eager.ResolveString [x]) c = (s, c)) /\
  (forall i, t !! key = Some (any_int64 i) \/ t !! key = Some (any_int i) ->
     - 2 ^ 63 <= i < 2 ^ 63 ->
     (let* x := Eager.FromFile key in Eager.ResolveInt [x]) c = (i, c)) /\
  (forall b, t !! key = Some (any_bool b) ->
     In "true" (Eager.TrueStrings c) -> In "false" (Eager.FalseStrings c) ->
     Forall (fun ts => gostrings.EqualFold U "false" ts = false) (Eager.TrueStrings c) ->
     (let* x := Eager.FromFile key in Eager.ResolveBool U [x]) c = (b, c)).
Proof.
  intros Ht. split_and!.
  - intros s Hkey. unfold bind at 1.
    by rewrite (FromFile_supported c t key (any_string s)).
  - intros i [Hkey | Hkey] Hi; unfold bind at 1;
      [rewrite (FromFile_supported c t key (any_int64 i)) by done
      |rewrite (FromFile_supported c t key (any_int i)) by done];
      simpl fst; by apply (ResolveInt_decimal i []).
  - intros b Hkey Htrue Hfalse Hno. unfold bind at 1.
    rewrite (FromFile_supported c t key (any_bool b)) by done.
    simpl fst. by apply (ResolveBool_FormatBool U b []).
Qed.

(** [conf] of the example program, holding the tree of the tests. *)
Definition stocked : Eager.Config := Eager.withFileData (Some testTree) example.conf.

Lemma file_value_resolves_witness :
  (let* x := Eager.FromFile "alpha" in Eager.ResolveString [x]) stocked = ("Some string", stocked) /\
  (let* x := Eager.FromFile "beta" in Eager.ResolveInt [x]) stocked = (42, stocked) /\
  (let* x := Eager.FromFile "gamma" in Eager.ResolveBool gostrings.asciiOnly [x]) stocked
  = (true, stocked).
Proof.
  destruct (file_value_resolves gostrings.asciiOnly stocked testTree "alpha" eq_refl)
    as (Hs & _).
  destruct (file_value_resolves gostrings.asciiOnly stocked testTree "beta" eq_refl)
    as (_ & Hi & _).
  destruct (file_value_resolves gostrings.asciiOnly stocked testTree "gamma" eq_refl)
    as (_ & _ & Hb).
  split; [apply Hs; reflexivity |].
  split; [apply Hi; [left; reflexivity | lia] |].
  apply Hb; [reflexivity | simpl; auto | simpl; auto | repeat constructor].
Defined.

(** ** Integers that do not fit *)

Lemma ParseUint_digits_overflow (ch : ascii) (s : string) (n : Z) :
  48 <= ord ch <= 57 -> 0 <= n < 2 ^ 64 -> 2 ^ 64 <= n * 10 + (ord ch - 48) ->
  strconv.ParseUint_digits true 10 ((2 ^ 64 - 1) / 10 + 1) (2 ^ 64 - 1) (String ch s) n false
  = strconv.digits_range.
Proof.
  intros Hch Hn Hb.
  cbn [strconv.ParseUint_digits]. unfold strconv.isDigit, strconv.isLetter. eval_ord.
  replace ((ord ch =? 95) && true) with false by lia.
  replace ((48 <=? ord ch) && (ord ch <=? 57)) with true by lia.
  replace (10 <=? ord ch - 48) with false by lia.
  change ((2 ^ 64 - 1) / 10 + 1) with 1844674407370955162.
  destruct (1844674407370955162 <=? n) eqn:Hcut; [reflexivity |].
  rewrite (Z.mod_small (n * 10)) by lia.
  replace ((n * 10 + (ord ch - 48)) mod 2 ^ 64) with (n * 10 + (ord ch - 48) - 2 ^ 64).
  2:{ apply Z.mod_unique with (q := 1); lia. }
  replace (n * 10 + (ord ch - 48) - 2 ^ 64 <? n * 10) with true by lia.
  reflexivity.
Qed.

Lemma ParseUint_digits_range (l : Decimal.uint) (acc : positive) :
  Zpos acc < 2 ^ 64 ->
  2 ^ 64 <= Zpos (Pos.of_uint_acc l acc) ->
  strconv.ParseUint_digits true 10 ((2 ^ 64 - 1) / 10 + 1) (2 ^ 64 - 1)
    (NilEmpty.string_of_uint l) (Zpos acc) false
  = strconv.digits_range.
Proof.
  revert acc. induction l; intros acc Hacc Hb; [simpl in Hb; lia | ..];
    simpl NilEmpty.string_of_uint; simpl Pos.of_uint_acc in Hb;
    match type of Hb with _ <= Z.pos (Pos.of_uint_acc _ ?x) =>
      destruct (Z_lt_le_dec (Zpos x) (2 ^ 64)) as [Hlt | Hge];
      [ rewrite <- (IHl x Hlt Hb);
        (rewrite ParseUint_digits_step; [eval_ord; f_equal; lia | eval_ord; lia ..])
      | apply ParseUint_digits_overflow; eval_ord; lia ]
    end.
Qed.

Lemma ParseUint_decimal_range (p : positive) :
  2 ^ 64 <= Zpos p ->
  strconv.ParseUint (NilEmpty.string_of_uint (Pos.to_uint p)) 0 64
  = (2 ^ 64 - 1,
     Some (strconv.rangeError "ParseUint" (NilEmpty.string_of_uint (Pos.to_uint p)))).
Proof.
  intros Hp.
  pose proof (DecimalPos.Unsigned.of_to p) as Hof.
  pose proof (DecimalPos.Unsigned.to_uint_nonnil p) as Hnil.
  pose proof (to_uint_head p) as Hhead.
  destruct (Pos.to_uint p) as [|l|l|l|l|l|l|l|l|l|l];
    [done | by destruct (Hhead l) | ..];
    simpl in Hof; injection Hof as Hof; subst p;
    unfold strconv.ParseUint; simpl NilEmpty.string_of_uint;
    unfold strconv.basePrefix; eval_ord;
    cbn -[strconv.ParseUint_digits strconv.underscoreOK Z.pow Z.div Z.sub Z.add NilEmpty.string_of_uint];
    unfold strconv.maxUint64;
    (rewrite ParseUint_digits_step; [eval_ord | eval_ord; lia ..]);
    match goal with |- context [0 * 10 + (?a - 48)] =>
      let v := eval vm_compute in (0 * 10 + (a - 48)) in
      change (0 * 10 + (a - 48)) with v end;
    rewrite ParseUint_digits_range by (done || lia); reflexivity.
Qed.

(** [ParseInt] on the decimal text of an integer that is no [int64]: the
    nearest [int64] and a range error. *)
Lemma ParseInt_FormatInt10_range (i : Z) :
  i < - 2 ^ 63 \/ 2 ^ 63 <= i ->
  strconv.ParseInt (strconv.FormatInt10 i) 0 64
  = ((if i <? 0 then - 2 ^ 63 else 2 ^ 63 - 1),
     Some (strconv.rangeError "ParseInt" (strconv.FormatInt10 i))).
Proof.
  intros Hi. unfold strconv.FormatInt10.
  destruct i as [|p|p]; [lia | ..]; simpl Z.to_int; unfold NilZero.string_of_int;
    destruct (to_uint_string p) as (-> & ch & rest & Hs & Hch);
    pose proof (ParseUint_decimal p) as Hok;
    pose proof (ParseUint_decimal_range p) as Hrange.
  - rewrite Hs in *. unfold strconv.ParseInt. eval_ord.
    replace (ord ch =? 43) with false by lia.
    replace (ord ch =? 45) with false by lia.
    destruct (Z_lt_le_dec (Zpos p) (2 ^ 64)) as [Hlt | Hge].
    + rewrite Hok by lia. cbn [negb andb].
      change (if 64 =? 0 then strconv.IntSize else 64) with 64.
      replace (2 ^ (64 - 1) <=? Z.pos p) with true by lia. reflexivity.
    + rewrite Hrange by lia. reflexivity.
  - unfold strconv.ParseInt. eval_ord.
    change (45 =? 43) with false. change (45 =? 45) with true. cbv iota.
    destruct (Z_lt_le_dec (Zpos p) (2 ^ 64)) as [Hlt | Hge].
    + rewrite Hok by lia. cbn [negb andb].
      change (if 64 =? 0 then strconv.IntSize else 64) with 64.
      replace (2 ^ (64 - 1) <? Z.pos p) with true by lia. reflexivity.
    + rewrite Hrange by lia. reflexivity.
Qed.

(** X5. The decimal text of an integer that does not fit an [int64] is
    not clipped to the nearest one: [ResolveInt] records a "value out of
    range" error for it and goes on with the candidates that follow, in
    both revisions. *)
Theorem ResolveInt_out_of_range (i : Z) (rest : list (option string))
    (c : Eager.Config) (c' : Lazy.Config) :
  i < - 2 ^ 63 \/ 2 ^ 63 <= i ->
  let s := strconv.FormatInt10 i in
  Eager.ResolveInt (Some s :: rest) c
  = Eager.ResolveInt rest
      (Eager.addErrors [numericError s (NumError "ParseInt" s strconv.ErrRange)] c) /\
  Lazy.ResolveInt (Some s :: rest) c'
  = Lazy.ResolveInt rest
      (Lazy.addErrors [numericError s (NumError "ParseInt" s strconv.ErrRange)] c').
Proof.
  intros Hi s. subst s. simpl.
  rewrite FormatInt10_not_empty. simpl.
  rewrite !parseInt_integer by apply FormatInt10_no_point.
  rewrite ParseInt_FormatInt10_range by done. split; reflexivity.
Qed.

Lemma ResolveInt_out_of_range_witness :
  Eager.ResolveInt [Some "9223372036854775808"; Some "7"] (Eager.New "app")
  = Eager.ResolveInt [Some "7"]
      (Eager.addErrors
         [numericError "9223372036854775808"
            (NumError "ParseInt" "9223372036854775808" strconv.ErrRange)] (Eager.New "app")) /\
  Lazy.ResolveInt [Some "9223372036854775808"; Some "7"] (Lazy.New "app")
  = Lazy.ResolveInt [Some "7"]
      (Lazy.addErrors
         [numericError "9223372036854775808"
            (NumError "ParseInt" "9223372036854775808" strconv.ErrRange)] (Lazy.New "app")).
Proof.
  apply (ResolveInt_out_of_range (2 ^ 63) [Some "7"] (Eager.New "app") (Lazy.New "app")).
  right. lia.
Defined.

(** ** White space in front of a value *)

(** The six bytes of [asciiSpace]. *)
Lemma asciiSpace_cases (ch : ascii) :
  gostrings.asciiSpace (ord ch) = true ->
  In ch [chr 9; chr 10; chr 11; chr 12; chr 13; chr 32].
Proof.
  unfold gostrings.asciiSpace. intros H.
  assert (Hc : ord ch = 9 \/ ord ch = 10 \/ ord ch = 11 \/ ord ch = 12 \/ ord ch = 13
               \/ ord ch = 32) by lia.
  simpl.
  destruct Hc as [Hc | [Hc | [Hc | [Hc | [Hc | Hc]]]]];
    [left | do 1 right; left | do 2 right; left | do 3 right; left | do 4 right; left
    | do 5 right; left];
    symmetry; apply ord_inj; rewrite Hc; reflexivity.
Qed.

Lemma ParseInt_leading_space (ch : ascii) (s : string) :
  gostrings.asciiSpace (ord ch) = true ->
  strconv.ParseInt (String ch s) 0 64
  = (0, Some (NumError "ParseInt" (String ch s) strconv.ErrSyntax)).
Proof.
  intros H. apply asciiSpace_cases in H. simpl in H.
  destruct H as [<- | [<- | [<- | [<- | [<- | [<- | []]]]]]]; reflexivity.
Qed.

Lemma ParseFloat_leading_space (ch : ascii) (s : string) (bitSize : Z) :
  gostrings.asciiSpace (ord ch) = true ->
  strconv.ParseFloat (String ch s) bitSize
  = (S754_zero false, Some (NumError "ParseFloat" (String ch s) strconv.ErrSyntax)).
Proof.
  intros H. apply asciiSpace_cases in H. simpl in H.
  destruct H as [<- | [<- | [<- | [<- | [<- | [<- | []]]]]]];
    unfold strconv.ParseFloat; destruct s as [|c1 [|c2 s]]; reflexivity.
Qed.

Lemma TrimSpace_leading_space (U : gostrings.Unicode) (ch : ascii) (s : string) :
  gostrings.asciiSpace (ord ch) = true ->
  gostrings.TrimSpace U (String ch s) = gostrings.TrimSpace U s.
Proof.
  intros H. unfold gostrings.TrimSpace. cbn [gostrings.trimStart].
  rewrite H.
  replace (gostrings.RuneSelf <=? ord ch) with false; [reflexivity |].
  unfold gostrings.asciiSpace, gostrings.RuneSelf in *. lia.
Qed.

(** X6. White space in front of a value is trimmed by the boolean
    resolver only.  [stringToBool] reads the text as it reads the text
    without the leading white space; [ResolveInt] and [ResolveFloat64]
    reject it with a syntax error, whatever follows the white space, and
    go on with the candidates after it. *)
Theorem leading_white_space (U : gostrings.Unicode) (ch : ascii) (s : string)
    (rest : list (option string)) (c : Eager.Config) (c' : Lazy.Config) :
  gostrings.asciiSpace (ord ch) = true ->
  Eager.stringToBool U (String ch s) c = Eager.stringToBool U s c /\
  (exists fn,
     Eager.ResolveInt (Some (String ch s) :: rest) c
     = Eager.ResolveInt rest
         (Eager.addErrors
            [numericError (String ch s) (NumError fn (String ch s) strconv.ErrSyntax)] c)) /\
  (exists fn,
     Lazy.ResolveInt (Some (String ch s) :: rest) c'
     = Lazy.ResolveInt rest
         (Lazy.addErrors
            [numericError (String ch s) (NumError fn (String ch s) strconv.ErrSyntax)] c')) /\
  Eager.ResolveFloat64 (Some (String ch s) :: rest) c
  = Eager.ResolveFloat64 rest
      (Eager.addErrors
         [numericError (String ch s) (NumError "ParseFloat" (String ch s) strconv.ErrSyntax)]
         c).
Proof.
  intros H.
  assert (Hparse : forall bits, exists fn,
            parseInt bits (String ch s)
            = (fst (parseInt bits (String ch s)),
               Some (NumError fn (String ch s) strconv.ErrSyntax))).
  { intros bits. unfold parseInt.
    destruct (gostrings.Contains (String ch s) ".").
    - exists "ParseFloat". by rewrite ParseFloat_leading_space.
    - exists "ParseInt". by rewrite ParseInt_leading_space. }
  split_and!.
  - rewrite !stringToBool_run. by rewrite TrimSpace_leading_space.
  - destruct (Hparse 64) as [fn Hfn]. exists fn. simpl. by rewrite Hfn.
  - destruct (Hparse 32) as [fn Hfn]. exists fn. simpl. by rewrite Hfn.
  - simpl. by rewrite ParseFloat_leading_space.
Qed.

Lemma leading_white_space_witness :
  Eager.stringToBool gostrings.asciiOnly " true" (Eager.New "app")
  = Eager.stringToBool gostrings.asciiOnly "true" (Eager.New "app") /\
  (exists fn,
     Eager.ResolveInt [Some " 16"; Some "16"] (Eager.New "app")
     = Eager.ResolveInt [Some "16"]
         (Eager.addErrors [numericError " 16" (NumError fn " 16" strconv.ErrSyntax)]
            (Eager.New "app"))) /\
  Eager.ResolveFloat64 [Some " 1.5"; Some "1.5"] (Eager.New "app")
  = Eager.ResolveFloat64 [Some "1.5"]
      (Eager.addErrors [numericError " 1.5" (NumError "ParseFloat" " 1.5" strconv.ErrSyntax)]
         (Eager.New "app")).
Proof.
  destruct (leading_white_space gostrings.asciiOnly " " "true" [] (Eager.New "app")
              (Lazy.New "app") eq_refl) as (Hb & _).
  destruct (leading_white_space gostrings.asciiOnly " " "16" [Some "16"] (Eager.New "app")
              (Lazy.New "app") eq_refl) as (_ & Hi & _).
  destruct (leading_white_space gostrings.asciiOnly " " "1.5" [Some "1.5"] (Eager.New "app")
              (Lazy.New "app") eq_refl) as (_ & _ & _ & Hf).
  split; [exact Hb |]. split; [exact Hi | exact Hf].
Defined.

(** ** What an unchanged error list tells *)

Lemma app_same_nil {A} (l es : list A) : l ++ es = l -> es = [].
Proof.
  intros H. apply (f_equal (@length A)) in H. rewrite length_app in H.
  destruct es; [done | simpl in H; lia].
Qed.

Section Clean.
Context {C V : Type}.
Variable parse : string -> V * option error.
Variable addErrors : list error -> C -> C.
Variable errors : C -> list error.
Variable zero : V.
Variable missing : error.

Hypothesis addErrors_nil : forall c, addErrors [] c = c.
Hypothesis addErrors_app :
  forall es1 es2 c, addErrors es2 (addErrors es1 c) = addErrors (es1 ++ es2) c.
Hypothesis errors_addErrors : forall es c, errors (addErrors es c) = errors c ++ es.

Lemma walk_clean (list : list (option string)) (c : C) :
  errors (snd (walk parse addErrors zero missing list c)) = errors c ->
  snd (walk parse addErrors zero missing list c) = c /\
  exists s, In (Some s) list /\ s <> "" /\
            parse s = (fst (walk parse addErrors zero missing list c), None).
Proof.
  induction list as [|elem rest IH].
  - simpl. rewrite errors_addErrors. intros H. by apply app_same_nil in H.
  - assert (Hskip :
      errors (snd (walk parse addErrors zero missing rest c)) = errors c ->
      snd (walk parse addErrors zero missing rest c) = c /\
      exists s, In (Some s) (elem :: rest) /\ s <> "" /\
                parse s = (fst (walk parse addErrors zero missing rest c), None)).
    { intros H. destruct (IH H) as (Hc & s & Hin & Hs & Hp).
      split; [done |]. exists s. split_and!; [by right | done | done]. }
    simpl. destruct elem as [s|]; [| exact Hskip].
    destruct (String.eqb s "") eqn:Hs; simpl; [exact Hskip |].
    destruct (parse s) as [val [e|]] eqn:Hp.
    + intros H. exfalso.
      destruct (walk_appends parse addErrors zero missing addErrors_nil addErrors_app rest
                  (addErrors [numericError s e] c)) as [es Hes].
      rewrite Hes, !errors_addErrors, <- app_assoc in H.
      by apply app_same_nil in H.
    + intros _. simpl. split; [done |].
      exists s. split_and!; [by left | by apply String.eqb_neq | done].
Qed.
End Clean.

Lemma Eager_Errors_addErrors (es : list error) (c : Eager.Config) :
  Eager.Errors (Eager.addErrors es c) = Eager.Errors c ++ es.
Proof. reflexivity. Qed.

Lemma Lazy_Errors_addErrors (es : list error) (c : Lazy.Config) :
  Lazy.Errors (Lazy.addErrors es c) = Lazy.Errors c ++ es.
Proof. reflexivity. Qed.

Lemma ResolveString_clean (list : list (option string)) (c : Eager.Config) :
  Eager.Errors (snd (Eager.ResolveString list c)) = Eager.Errors c ->
  snd (Eager.ResolveString list c) = c /\
  In (Some (fst (Eager.ResolveString list c))) list.
Proof.
  induction list as [|elem rest IH].
  - simpl. intros H. by apply app_same_nil in H.
  - simpl. destruct elem as [s|]; [intros _; simpl; auto |].
    intros H. destruct (IH H). auto.
Qed.

Lemma ResolveBool_clean (U : gostrings.Unicode) (list : list (option string))
    (c : Eager.Config) :
  Eager.Errors (snd (Eager.ResolveBool U list c)) = Eager.Errors c ->
  snd (Eager.ResolveBool U list c) = c /\
  exists s, In (Some s) list /\ s <> "" /\
            Eager.stringToBool U s c = ((fst (Eager.ResolveBool U list c), true), c).
Proof.
  induction list as [|elem rest IH].
  - simpl. intros H. by apply app_same_nil in H.
  - assert (Hskip :
      Eager.Errors (snd (Eager.ResolveBool U rest c)) = Eager.Errors c ->
      snd (Eager.ResolveBool U rest c) = c /\
      exists s, In (Some s) (elem :: rest) /\ s <> "" /\
                Eager.stringToBool U s c = ((fst (Eager.ResolveBool U rest c), true), c)).
    { intros H. destruct (IH H) as (Hc & s & Hin & Hs & Hp).
      split; [done |]. exists s. split_and!; [by right | done | done]. }
    destruct elem as [s|]; [| exact Hskip].
    destruct (String.eqb s "") eqn:Hs; [simpl; rewrite Hs; exact Hskip |].
    apply String.eqb_neq in Hs.
    pose proof (ResolveBool_first U [] rest s c (List.Forall_nil _) Hs) as Hfirst.
    cbn [app] in Hfirst. rewrite Hfirst.
    rewrite stringToBool_run. simpl.
    destruct (existsb _ (Eager.TrueStrings c)) eqn:Ht;
      [| destruct (existsb _ (Eager.FalseStrings c)) eqn:Hf]; simpl.
    + intros _. split; [done |]. exists s.
      split_and!; [by left | done | by rewrite stringToBool_run, Ht].
    + intros _. split; [done |]. exists s.
      split_and!; [by left | done | by rewrite stringToBool_run, Ht, Hf].
    + intros H. by apply app_same_nil in H.
Qed.

(** X7. A resolver that leaves the error list as it found it has
    resolved: the context is unchanged altogether, and the value returned
    is a candidate of the list ([ResolveString]), or what the parser makes,
    without an error, of a candidate that is present and not empty
    ([ResolveInt], [ResolveFloat64], and [ResolveBool] with a text of one
    of the vocabularies).  So a program that finds [Errors] empty after its
    resolutions holds no zero value standing in for a failure. *)
Theorem clean_means_resolved (U : gostrings.Unicode) (list : list (option string))
    (c : Eager.Config) (c' : Lazy.Config) :
  (Eager.Errors (snd (Eager.ResolveString list c)) = Eager.Errors c ->
   snd (Eager.ResolveString list c) = c /\
   In (Some (fst (Eager.ResolveString list c))) list) /\
  (Eager.Errors (snd (Eager.ResolveInt list c)) = Eager.Errors c ->
   snd (Eager.ResolveInt list c) = c /\
   exists s, In (Some s) list /\ s <> "" /\
             parseInt 64 s = (fst (Eager.ResolveInt list c), None)) /\
  (Eager.Errors (snd (Eager.ResolveFloat64 list c)) = Eager.Errors c ->
   snd (Eager.ResolveFloat64 list c) = c /\
   exists s, In (Some s) list /\ s <> "" /\
             strconv.ParseFloat s 64 = (fst (Eager.ResolveFloat64 list c), None)) /\
  (Eager.Errors (snd (Eager.ResolveBool U list c)) = Eager.Errors c ->
   snd (Eager.ResolveBool U list c) = c /\
   exists s, In (Some s) list /\ s <> "" /\
             Eager.stringToBool U s c = ((fst (Eager.ResolveBool U list c), true), c)) /\
  (Lazy.Errors (snd (Lazy.ResolveInt list c')) = Lazy.Errors c' ->
   snd (Lazy.ResolveInt list c') = c' /\
   exists s, In (Some s) list /\ s <> "" /\
             parseInt 32 s = (fst (Lazy.ResolveInt list c'), None)).
Proof.
  split_and!.
  - apply ResolveString_clean.
  - rewrite ResolveInt_walk.
    apply (walk_clean (parseInt 64) Eager.addErrors Eager.Errors);
      auto using Eager_addErrors_nil, Eager_addErrors_app.
  - rewrite ResolveFloat64_walk.
    apply (walk_clean (fun s => strconv.ParseFloat s 64) Eager.addErrors Eager.Errors);
      auto using Eager_addErrors_nil, Eager_addErrors_app.
  - apply ResolveBool_clean.
  - rewrite Lazy_ResolveInt_walk.
    apply (walk_clean (parseInt 32) Lazy.addErrors Lazy.Errors);
      auto using Lazy_addErrors_nil, Lazy_addErrors_app.
Qed.

Lemma clean_means_resolved_witness :
  (exists s, In (Some s) [None; Some ""; Some "0x2f"; Some "junk"] /\ s <> "" /\
             parseInt 64 s
             = (fst (Eager.ResolveInt [None; Some ""; Some "0x2f"; Some "junk"] (Eager.New "app")),
                None)) /\
  In (Some (fst (Eager.ResolveString [None; Some "one"] (Eager.New "app")))) [None; Some "one"].
Proof.
  destruct (clean_means_resolved gostrings.asciiOnly [None; Some ""; Some "0x2f"; Some "junk"]
              (Eager.New "app") (Lazy.New "app")) as (_ & Hi & _).
  destruct (clean_means_resolved gostrings.asciiOnly [None; Some "one"]
              (Eager.New "app") (Lazy.New "app")) as (Hs & _).
  split; [exact (proj2 (Hi eq_refl)) | exact (proj2 (Hs eq_refl))].
Defined.

(** ** What the methods leave alone *)

Lemma ResolveString_appends (list : list (option string)) (c : Eager.Config) :
  exists es, snd (Eager.ResolveString list c) = Eager.addErrors es c.
Proof.
  induction list as [|elem rest IH]; [by eexists [_] |].
  destruct elem as [s|]; [| exact IH].
  exists []. by rewrite Eager_addErrors_nil.
Qed.

Lemma ResolveBool_appends (U : gostrings.Unicode) (list : list (option string))
    (c : Eager.Config) :
  exists es, snd (Eager.ResolveBool U list c) = Eager.addErrors es c.
Proof.
  induction list as [|elem rest IH]; [by eexists [_] |].
  destruct elem as [s|]; [| exact IH].
  destruct (String.eqb s "") eqn:Hs; [simpl; by rewrite Hs |].
  apply String.eqb_neq in Hs.
  pose proof (ResolveBool_first U [] rest s c (List.Forall_nil _) Hs) as Hfirst.
  cbn [app] in Hfirst. rewrite Hfirst.
  destruct (fst (Eager.stringToBool U s c)) as [b [|]]; simpl;
    [exists []; by rewrite Eager_addErrors_nil | by eexists [_]].
Qed.

Lemma toString_appends (x : any) (c : Eager.Config) :
  exists es, snd (Eager.toString x c) = Eager.addErrors es c.
Proof.
  destruct (supported x) eqn:Hx.
  - exists []. by rewrite toString_supported, Eager_addErrors_nil.
  - eexists. by rewrite toString_unsupported.
Qed.

Lemma FromFile_appends (key : string) (c : Eager.Config) :
  exists es, snd (Eager.FromFile key c) = Eager.addErrors es c.
Proof.
  unfold Eager.FromFile, bind, get, ret.
  destruct (Eager.fileData c) as [t|]; [| exists []; by rewrite Eager_addErrors_nil].
  destruct (toml.Has t key); [| exists []; by rewrite Eager_addErrors_nil].
  destruct (toString_appends (toml.Get t key) c) as [es Hes].
  exists es. by destruct (Eager.toString (toml.Get t key) c).
Qed.

Lemma Find_appends (h : Host) (paths : list string) (c : Eager.Config) (l : list call) :
  exists new, snd (Eager.Find h paths (c, l)) = (c, l ++ new).
Proof.
  revert l. induction paths as [|elem rest IH]; intros l;
    [exists []; simpl; by rewrite app_nil_r |].
  destruct (usable h elem) eqn:Hu.
  - rewrite Find_cons_usable by done. by eexists.
  - rewrite Find_cons_passed by done.
    destruct (IH (l ++ asked h elem)) as [new Hnew].
    exists (asked h elem ++ new). by rewrite Hnew, app_assoc.
Qed.

(** X8. No method of a context changes its application name, its file
    base name, its location or its vocabularies.  The tree of the backing
    file is changed by [Load] and [FindAndLoad] alone.  The error list is
    only ever appended to, and so is the sequence of calls made to the
    host; [Find], [FromEnv], [stringToBool] and [Default] leave the
    context exactly as it was. *)
Theorem methods_frame (U : gostrings.Unicode) (h : Host) (c : Eager.Config)
    (l : list call) :
  (forall list, exists es, snd (Eager.ResolveString list c) = Eager.addErrors es c) /\
  (forall list, exists es, snd (Eager.ResolveInt list c) = Eager.addErrors es c) /\
  (forall list, exists es, snd (Eager.ResolveFloat64 list c) = Eager.addErrors es c) /\
  (forall list, exists es, snd (Eager.ResolveBool U list c) = Eager.addErrors es c) /\
  (forall x, exists es, snd (Eager.toString x c) = Eager.addErrors es c) /\
  (forall key, exists es, snd (Eager.FromFile key c) = Eager.addErrors es c) /\
  (forall bs, snd (Eager.stringToBool U bs c) = c) /\
  (forall x, snd (Eager.Default x c) = c) /\
  (forall key, snd (Eager.FromEnv h key (c, l)) = (c, l ++ [call_LookupEnv key])) /\
  (forall paths, exists new, snd (Eager.Find h paths (c, l)) = (c, l ++ new)) /\
  (exists es, snd (Eager.UserHomeDir h (c, l))
              = (Eager.addErrors es c, l ++ [call_UserHomeDir])) /\
  (exists es, snd (Eager.UserConfigDir h (c, l))
              = (Eager.addErrors es c, l ++ [call_UserConfigDir])) /\
  (exists es, snd (Eager.Executable h (c, l))
              = (Eager.addErrors es c, l ++ [call_Executable])) /\
  (exists es, snd (Eager.FileFromExecutable h (c, l))
              = (Eager.addErrors es c, l ++ [call_Executable])) /\
  (exists es, snd (Eager.FileFromHome h (c, l))
              = (Eager.addErrors es c, l ++ [call_UserConfigDir])) /\
  (forall filename, exists es t new,
     snd (Eager.Load h filename (c, l))
     = (Eager.addErrors es (Eager.withFileData t c), l ++ new)) /\
  (forall paths, exists es t new,
     snd (Eager.FindAndLoad h paths (c, l))
     = (Eager.addErrors es (Eager.withFileData t c), l ++ new)).
Proof.
  assert (Hload : forall filename l1, exists es t new,
            snd (Eager.Load h filename (c, l1))
            = (Eager.addErrors es (Eager.withFileData t c), l1 ++ new)).
  { intros filename l1. rewrite Load_run. simpl.
    assert (Hc : Eager.withFileData (Eager.fileData c) c = c) by by destruct c.
    destruct (os_Open h filename) as [e|].
    - exists [e], (Eager.fileData c), [call_Open filename]. by rewrite Hc.
    - destruct (toml_LoadReader h filename) as [t|e].
      + by exists (errorOf (file_Close h filename)), (Some t),
          [call_Open filename; call_LoadReader filename; call_Close filename].
      + exists ([e] ++ errorOf (file_Close h filename)), (Eager.fileData c),
          [call_Open filename; call_LoadReader filename; call_Close filename].
        by rewrite Hc, Eager_addErrors_app. }
  split_and!.
  - intros list. apply ResolveString_appends.
  - intros list. rewrite ResolveInt_walk.
    apply walk_appends; auto using Eager_addErrors_nil, Eager_addErrors_app.
  - intros list. rewrite ResolveFloat64_walk.
    apply (walk_appends (fun s => strconv.ParseFloat s 64));
      auto using Eager_addErrors_nil, Eager_addErrors_app.
  - intros list. apply ResolveBool_appends.
  - intros x. apply toString_appends.
  - intros key. apply FromFile_appends.
  - intros bs. by rewrite stringToBool_run.
  - by intros [].
  - intros key. unfold Eager.FromEnv. run_io. by destruct (os_LookupEnv h key).
  - intros paths. apply Find_appends.
  - unfold Eager.UserHomeDir. run_io.
    destruct (os_UserHomeDir h) as [home [e|]];
      [by eexists [_] | exists []; by rewrite Eager_addErrors_nil].
  - unfold Eager.UserConfigDir. run_io.
    destruct (os_UserConfigDir h) as [home [e|]];
      [by eexists [_] | exists []; by rewrite Eager_addErrors_nil].
  - unfold Eager.Executable. run_io.
    destruct (os_Executable h) as [home [e|]];
      [by eexists [_] | exists []; by rewrite Eager_addErrors_nil].
  - unfold Eager.FileFromExecutable. run_io.
    destruct (os_Executable h) as [home [e|]];
      [by eexists [_] | exists []; by rewrite Eager_addErrors_nil].
  - unfold Eager.FileFromHome. run_io.
    destruct (os_UserConfigDir h) as [home [e|]];
      [by eexists [_] | exists []; by rewrite Eager_addErrors_nil].
  - intros filename. apply Hload.
  - intros paths. rewrite FindAndLoad_run.
    pose proof (Find_keeps_context h paths c l) as Hkeep.
    destruct (Eager.Find h paths (c, l)) as [fn [c1 l1]] eqn:Hfind. simpl in Hkeep. subst c1.
    assert (Hl1 : exists new, l1 = l ++ new).
    { destruct (Find_appends h paths c l) as [new Hnew].
      rewrite Hfind in Hnew. simpl in Hnew. exists new. congruence. }
    destruct Hl1 as [new1 ->].
    destruct (String.eqb fn "").
    + exists [], (Eager.fileData c), new1. simpl.
      rewrite Eager_addErrors_nil. by destruct c.
    + destruct (Hload fn (l ++ new1)) as (es & t & new & Hes).
      exists es, t, (new1 ++ new). simpl. by rewrite Hes, app_assoc.
Qed.

(** ** The later revision against the first *)

(** A context of the later revision without the three fields it added. *)
Definition forget (c : Lazy.Config) : Eager.Config :=
  {| Eager.AppName := Lazy.AppName c;
     Eager.FileBase := Lazy.FileBase c;
     Eager.Location := Lazy.Location c;
     Eager.fileData := Lazy.fileData c;
     Eager.Errors := Lazy.Errors c;
     Eager.TrueStrings := Lazy.TrueStrings c;
     Eager.FalseStrings := Lazy.FalseStrings c |}.

(** The two revisions return the same value and append the same errors,
    and do nothing else to the context. *)
Definition sameOutcome {A} (c : Lazy.Config) (later : A * Lazy.Config)
    (first : A * Eager.Config) : Prop :=
  exists es, later = (fst first, Lazy.addErrors es c) /\
             snd first = Eager.addErrors es (forget c).

(** The same, for a method that talks to the host: the same calls too. *)
Definition sameOutcomeIO {A} (c : Lazy.Config) (later : A * (Lazy.Config * list call))
    (first : A * (Eager.Config * list call)) : Prop :=
  exists es, later = (fst first, (Lazy.addErrors es c, snd (snd first))) /\
             fst (snd first) = Eager.addErrors es (forget c).

Lemma forget_addErrors (es : list error) (c : Lazy.Config) :
  forget (Lazy.addErrors es c) = Eager.addErrors es (forget c).
Proof. reflexivity. Qed.

Lemma sameOutcome_nil {A} (c : Lazy.Config) (a : A) :
  sameOutcome c (a, c) (a, forget c).
Proof. exists []. by rewrite Lazy_addErrors_nil, Eager_addErrors_nil. Qed.

Lemma Lazy_foldsTo (U : gostrings.Unicode) (tbs : string) (list : list string) :
  Lazy.foldsTo U tbs list = Eager.foldsTo U tbs list.
Proof. induction list as [|ts rest IH]; [done | simpl; by rewrite IH]. Qed.

Lemma Lazy_stringToBool (U : gostrings.Unicode) (bs : string) (c : Lazy.Config) :
  Lazy.stringToBool U bs c = (fst (Eager.stringToBool U bs (forget c)), c).
Proof.
  unfold Lazy.stringToBool, Eager.stringToBool, bind, get, ret. simpl.
  rewrite !Lazy_foldsTo.
  destruct (Eager.foldsTo U _ (Lazy.TrueStrings c)); [done |].
  rewrite Lazy_foldsTo.
  by destruct (Eager.foldsTo U _ (Lazy.FalseStrings c)).
Qed.

Lemma Lazy_ResolveString (list : list (option string)) (c : Lazy.Config) :
  sameOutcome c (Lazy.ResolveString list c) (Eager.ResolveString list (forget c)).
Proof.
  induction list as [|elem rest IH]; [(eexists [_]; split; reflexivity) |].
  destruct elem as [s|]; [apply sameOutcome_nil | exact IH].
Qed.

Lemma Lazy_ResolveBool (U : gostrings.Unicode) (list : list (option string))
    (c : Lazy.Config) :
  sameOutcome c (Lazy.ResolveBool U list c) (Eager.ResolveBool U list (forget c)).
Proof.
  induction list as [|elem rest IH]; [(eexists [_]; split; reflexivity) |].
  destruct elem as [s|]; [| exact IH].
  simpl. destruct (String.eqb s ""); simpl; [exact IH |].
  unfold bind at 1 3. rewrite Lazy_stringToBool.
  rewrite stringToBool_run. simpl.
  destruct (existsb _ (Lazy.TrueStrings c)); [apply sameOutcome_nil |].
  destruct (existsb _ (Lazy.FalseStrings c)); [apply sameOutcome_nil |].
  (eexists [_]; split; reflexivity).
Qed.

Lemma Lazy_toString (x : any) (c : Lazy.Config) :
  sameOutcome c (Lazy.toString x c) (Eager.toString x (forget c)).
Proof.
  destruct x; simpl; first [apply sameOutcome_nil | (eexists [_]; split; reflexivity)].
Qed.

(** A candidate with no decimal point in it. *)
Definition pointless (elem : option string) : bool :=
  match elem with
  | Some s => negb (gostrings.Contains s ".")
  | None => true
  end.

Lemma Lazy_ResolveInt (list : list (option string)) (c : Lazy.Config) :
  Forall (fun elem => pointless elem = true) list ->
  sameOutcome c (Lazy.ResolveInt list c) (Eager.ResolveInt list (forget c)).
Proof.
  intros Hl. revert c.
  induction Hl as [|elem rest Helem _ IH]; intros c; [(eexists [_]; split; reflexivity) |].
  destruct elem as [s|]; [| apply IH].
  simpl. destruct (String.eqb s ""); simpl; [apply IH |].
  simpl in Helem. apply negb_true_iff in Helem.
  rewrite !parseInt_integer by done.
  destruct (strconv.ParseInt s 0 64) as [val [e|]]; [| apply sameOutcome_nil].
  destruct (IH (Lazy.addErrors [numericError s e] c)) as (es & Hl' & He).
  exists ([numericError s e] ++ es). split.
  - rewrite <- Lazy_addErrors_app. exact Hl'.
  - rewrite <- Eager_addErrors_app. exact He.
Qed.

(** X9. The methods the later revision took over from the first behave
    as they did: from contexts that agree on the fields the two revisions
    share they return the same value, append the same errors and make the
    same calls, and they leave [loadAttempted], [PrefsFile] and [Warnings]
    alone.  For [ResolveInt] this holds on candidates without a decimal
    point, the ones the two revisions read with the same parser; for
    [FromFile], once the load has been attempted. *)
Theorem later_revision_agrees (U : gostrings.Unicode) (h : Host) (c : Lazy.Config)
    (l : list call) :
  (forall list,
     sameOutcome c (Lazy.ResolveString list c) (Eager.ResolveString list (forget c))) /\
  (forall list,
     sameOutcome c (Lazy.ResolveBool U list c) (Eager.ResolveBool U list (forget c))) /\
  (forall bs,
     sameOutcome c (Lazy.stringToBool U bs c) (Eager.stringToBool U bs (forget c))) /\
  (forall x, sameOutcome c (Lazy.toString x c) (Eager.toString x (forget c))) /\
  (forall x, sameOutcome c (Lazy.Default x c) (Eager.Default x (forget c))) /\
  (forall list,
     Forall (fun elem => pointless elem = true) list ->
     sameOutcome c (Lazy.ResolveInt list c) (Eager.ResolveInt list (forget c))) /\
  (forall key,
     sameOutcomeIO c (Lazy.FromEnv h key (c, l)) (Eager.FromEnv h key (forget c, l))) /\
  sameOutcomeIO c (Lazy.UserHomeDir h (c, l)) (Eager.UserHomeDir h (forget c, l)) /\
  sameOutcomeIO c (Lazy.UserConfigDir h (c, l)) (Eager.UserConfigDir h (forget c, l)) /\
  sameOutcomeIO c (Lazy.Executable h (c, l)) (Eager.Executable h (forget c, l)) /\
  (forall key,
     Lazy.loadAttempted c = true ->
     sameOutcomeIO c (Lazy.FromFile h key (c, l)) (liftC (Eager.FromFile key) (forget c, l))).
Proof.
  assert (Hnil : forall A (a : A) l1, sameOutcomeIO c (a, (c, l1)) (a, (forget c, l1))).
  { intros A a l1. exists []. by rewrite Lazy_addErrors_nil, Eager_addErrors_nil. }
  split_and!.
  - intros list. apply Lazy_ResolveString.
  - intros list. apply Lazy_ResolveBool.
  - intros bs. rewrite Lazy_stringToBool, stringToBool_run. apply sameOutcome_nil.
  - intros x. apply Lazy_toString.
  - intros []; apply sameOutcome_nil.
  - intros list Hl. by apply Lazy_ResolveInt.
  - intros key. unfold Lazy.FromEnv, Eager.FromEnv. run_io.
    destruct (os_LookupEnv h key); apply Hnil.
  - unfold Lazy.UserHomeDir, Eager.UserHomeDir. run_io.
    destruct (os_UserHomeDir h) as [home [e|]]; [(eexists [_]; split; reflexivity) | apply Hnil].
  - unfold Lazy.UserConfigDir, Eager.UserConfigDir. run_io.
    destruct (os_UserConfigDir h) as [home [e|]]; [(eexists [_]; split; reflexivity) | apply Hnil].
  - unfold Lazy.Executable, Eager.Executable. run_io.
    destruct (os_Executable h) as [home [e|]]; [(eexists [_]; split; reflexivity) | apply Hnil].
  - intros key Hc. rewrite FromFile_run, Hc.
    unfold lookup, liftC, Eager.FromFile, bind, get, ret. simpl.
    destruct (Lazy.fileData c) as [t|]; [| apply Hnil].
    destruct (toml.Has t key); [| apply Hnil].
    destruct (Lazy_toString (toml.Get t key) c) as (es & Hl' & He).
    destruct (Lazy.toString (toml.Get t key) c) as [x c1].
    destruct (Eager.toString (toml.Get t key) (forget c)) as [x0 c0].
    simpl in *. injection Hl' as -> ->. subst c0. exists es. split; reflexivity.
Qed.

Lemma later_revision_agrees_witness :
  sameOutcome (Lazy.New "app")
    (Lazy.ResolveInt [Some "0x2f"; Some "junk"] (Lazy.New "app"))
    (Eager.ResolveInt [Some "0x2f"; Some "junk"] (forget (Lazy.New "app"))) /\
  sameOutcomeIO (fst missed) (Lazy.FromFile furnished "alpha" missed)
    (liftC (Eager.FromFile "alpha") (forget (fst missed), snd missed)).
Proof.
  destruct (later_revision_agrees gostrings.asciiOnly furnished (Lazy.New "app") [])
    as (_ & _ & _ & _ & _ & Hint & _).
  destruct (later_revision_agrees gostrings.asciiOnly furnished (fst missed) (snd missed))
    as (_ & _ & _ & _ & _ & _ & _ & _ & _ & _ & Hfile).
  split; [apply Hint; repeat constructor | apply Hfile; reflexivity].
Defined.

(** Where the two revisions of [ResolveInt] part: the text lies just
    above the middle of two neighbouring [float32]; read as a [float64]
    first it falls on the middle and is rounded to the even neighbour. *)
Example revisions_differ :
  fst (Eager.ResolveInt [Some "16777217.0000000001"] (Eager.New "app")) = 16777216 /\
  fst (Lazy.ResolveInt [Some "16777217.0000000001"] (Lazy.New "app")) = 16777218.
Proof. split; vm_compute; reflexivity. Qed.

(** ** The lazy loader, from the first look-up to the value *)

Lemma loaded_PrefsFile (h : Host) (c : Lazy.Config) (l : list call) :
  (Lazy.fileData (fst (loaded h c l)) = Lazy.fileData c /\
   Lazy.PrefsFile (fst (loaded h c l)) = Lazy.PrefsFile c) \/
  (exists pfile t,
     prefsFile h c = (pfile, None) /\ os_Open h pfile = None /\
     toml_LoadReader h pfile = inl t /\
     Lazy.fileData (fst (loaded h c l)) = Some t /\
     Lazy.PrefsFile (fst (loaded h c l)) = pfile).
Proof.
  unfold loaded.
  destruct (prefsFile h c) as [pfile [e|]]; [by left |].
  destruct (os_Open h pfile) as [e|] eqn:Ho; [by left |].
  destruct (toml_LoadReader h pfile) as [t|e] eqn:Ht.
  - right. exists pfile, t. by destruct (file_Close h pfile).
  - left. by destruct (file_Close h pfile).
Qed.

(** The tree and the name of the file go together. *)
Definition named (c : Lazy.Config) : Prop :=
  Lazy.fileData c = None -> Lazy.PrefsFile c = "".

Lemma FromFile_named (h : Host) (key : string) (c : Lazy.Config) (l : list call) :
  named c -> named (fst (snd (Lazy.FromFile h key (c, l)))).
Proof.
  unfold named. intros Hc. rewrite FromFile_run.
  destruct (Lazy.loadAttempted c).
  - simpl. destruct (lookup_appends key c) as [es ->]. exact Hc.
  - destruct (loaded_PrefsFile h c l) as [[Hd Hp] | (pfile & t & _ & _ & _ & Hd & Hp)];
      destruct (loaded h c l) as [c1 l1]; simpl in *;
      destruct (lookup_appends key c1) as [es ->]; simpl.
    + rewrite Hd, Hp. exact Hc.
    + rewrite Hd. discriminate.
Qed.

Lemma lookups_named (reqs : list (Host * string)) (c : Lazy.Config) (l : list call) :
  named c -> named (fst (snd (lookups reqs (c, l)))).
Proof.
  revert c l. induction reqs as [|[h key] rest IH]; intros c l Hc; [exact Hc |].
  simpl. unfold bind at 1.
  pose proof (FromFile_named h key c l Hc) as H1.
  destruct (Lazy.FromFile h key (c, l)) as [r [c1 l1]]. simpl in H1.
  unfold bind at 1. specialize (IH c1 l1 H1).
  by destruct (lookups rest (c1, l1)) as [rs [c2 l2]].
Qed.

(** X10. [PrefsFile] names a file only when that file was opened and
    parsed: the first [FromFile] of a context either leaves the tree and
    [PrefsFile] as they were, or sets the tree to the one parsed from the
    preferences file and [PrefsFile] to its name.  From a new context,
    whatever is looked up and on whatever host, a context without a tree
    has an empty [PrefsFile]: when the load failed there is no name to
    show. *)
Theorem PrefsFile_only_when_loaded (reqs : list (Host * string)) (h : Host) (key : string)
    (appname : string) (c : Lazy.Config) (l : list call) :
  (Lazy.loadAttempted c = false ->
   let c1 := fst (snd (Lazy.FromFile h key (c, l))) in
   (Lazy.fileData c1 = Lazy.fileData c /\ Lazy.PrefsFile c1 = Lazy.PrefsFile c) \/
   (exists pfile t,
      prefsFile h c = (pfile, None) /\ os_Open h pfile = None /\
      toml_LoadReader h pfile = inl t /\
      Lazy.fileData c1 = Some t /\ Lazy.PrefsFile c1 = pfile)) /\
  (Lazy.fileData (fst (snd (lookups reqs (Lazy.New appname, [])))) = None ->
   Lazy.PrefsFile (fst (snd (lookups reqs (Lazy.New appname, [])))) = "").
Proof.
  split.
  - intros Hc. rewrite FromFile_run, Hc.
    pose proof (loaded_PrefsFile h c l) as Hl.
    destruct (loaded h c l) as [c1 l1]. simpl in *.
    destruct (lookup_appends key c1) as [es ->]. exact Hl.
  - apply lookups_named. by intros _.
Qed.

Lemma PrefsFile_only_when_loaded_witness :
  (Lazy.fileData (fst missed) = None /\ Lazy.PrefsFile (fst missed) = "") /\
  Lazy.PrefsFile (fst (snd (Lazy.FromFile furnished "alpha" (Lazy.New "app", []))))
  = "/home/u/.config/app/config.toml".
Proof.
  destruct (PrefsFile_only_when_loaded [(bare, "alpha")] furnished "alpha" "app"
              (Lazy.New "app") []) as (Hfirst & Hnone).
  split.
  - split; [reflexivity | apply Hnone; reflexivity].
  - destruct (Hfirst eq_refl) as [[Hd _] | (pfile & t & Hp & _ & _ & _ & Hname)];
      [discriminate Hd |].
    injection Hp as <-. exact Hname.
Defined.

Lemma lookup_int64 (key : string) (c : Lazy.Config) (t : toml.Tree) (i : Z) :
  Lazy.fileData c = Some t -> t !! key = Some (any_int64 i) ->
  lookup key c = (Some (strconv.FormatInt10 i), c).
Proof.
  intros Ht Hkey. unfold lookup, toml.Has, toml.Get. by rewrite Ht, Hkey.
Qed.

Lemma lookup_missing (key : string) (c : Lazy.Config) :
  (Lazy.fileData c = None \/ exists t, Lazy.fileData c = Some t /\ t !! key = None) ->
  lookup key c = (None, c).
Proof.
  unfold lookup, toml.Has. by intros [-> | (t & -> & ->)].
Qed.

(** X11. A setting resolved from the backing file, then a default, in the
    later revision.  On a context that has not attempted the load, where
    the preferences file opens, parses and closes and holds an integer
    under the key, the value is that integer and the context ends with the
    tree and the name of the file, no error and no warning added.  Where
    the file does not open, the value is the default and the failure is
    in [Warnings]: the error list stays as it was. *)
Theorem lazy_file_then_default (h : Host) (c : Lazy.Config) (l : list call)
    (key pfile : string) (d : Z) :
  Lazy.loadAttempted c = false ->
  Lazy.fileData c = None ->
  prefsFile h c = (pfile, None) ->
  - 2 ^ 63 <= d < 2 ^ 63 ->
  let setting :=
    let* file := Lazy.FromFile h key in
    let* def := liftC (Lazy.Default (any_int d)) in
    liftC (Lazy.ResolveInt [file; def]) in
  (forall t i,
     os_Open h pfile = None -> toml_LoadReader h pfile = inl t ->
     file_Close h pfile = None ->
     t !! key = Some (any_int64 i) -> - 2 ^ 63 <= i < 2 ^ 63 ->
     setting (c, l)
     = (i, (Lazy.withLoaded t pfile (Lazy.withLoadAttempted true c),
            l ++ [prefsCall c; call_Open pfile; call_LoadReader pfile; call_Close pfile]))) /\
  (forall t,
     os_Open h pfile = None -> toml_LoadReader h pfile = inl t ->
     file_Close h pfile = None -> t !! key = None ->
     setting (c, l)
     = (d, (Lazy.withLoaded t pfile (Lazy.withLoadAttempted true c),
            l ++ [prefsCall c; call_Open pfile; call_LoadReader pfile; call_Close pfile]))) /\
  (forall e,
     os_Open h pfile = Some e ->
     setting (c, l)
     = (d, (Lazy.addWarnings [e] (Lazy.withLoadAttempted true c),
            l ++ [prefsCall c; call_Open pfile]))).
Proof.
  intros Hc Hdata Hp Hd setting. subst setting.
  assert (Hdef : forall c1,
            Lazy.ResolveInt [None; Some (strconv.Itoa d)] c1 = (d, c1)).
  { intros c1. apply (Lazy_ResolveInt_decimal d [None] []); [done | repeat constructor]. }
  split_and!.
  - intros t i Ho Ht Hcl Hkey Hi.
    unfold bind at 1. rewrite FromFile_run, Hc. unfold loaded. rewrite Hp, Ho, Ht, Hcl.
    rewrite (lookup_int64 key _ t i) by done.
    unfold Lazy.Default. unfold bind, liftC, ret. cbv beta iota zeta. cbn [fst snd].
    pose proof (Lazy_ResolveInt_decimal i [] [Some (strconv.Itoa d)]
                  (Lazy.withLoaded t pfile (Lazy.withLoadAttempted true c)) Hi
                  (List.Forall_nil _)) as Hres.
    cbn [app] in Hres. by rewrite Hres.
  - intros t Ho Ht Hcl Hkey.
    unfold bind at 1. rewrite FromFile_run, Hc. unfold loaded. rewrite Hp, Ho, Ht, Hcl.
    rewrite lookup_missing by (right; by exists t).
    unfold Lazy.Default. unfold bind, liftC, ret. cbv beta iota zeta. cbn [fst snd].
    by rewrite Hdef.
  - intros e Ho.
    unfold bind at 1. rewrite FromFile_run, Hc. unfold loaded. rewrite Hp, Ho.
    rewrite lookup_missing by (by left).
    unfold Lazy.Default. unfold bind, liftC, ret. cbv beta iota zeta. cbn [fst snd].
    by rewrite Hdef.
Qed.

Lemma lazy_file_then_default_witness :
  (let* file := Lazy.FromFile furnished "beta" in
   let* def := liftC (Lazy.Default (any_int 16)) in
   liftC (Lazy.ResolveInt [file; def])) (Lazy.New "app", [])
  = (42, (Lazy.withLoaded testTree "/home/u/.config/app/config.toml"
            (Lazy.withLoadAttempted true (Lazy.New "app")),
          [] ++ [prefsCall (Lazy.New "app"); call_Open "/home/u/.config/app/config.toml";
                 call_LoadReader "/home/u/.config/app/config.toml";
                 call_Close "/home/u/.config/app/config.toml"])) /\
  (let* file := Lazy.FromFile bare "beta" in
   let* def := liftC (Lazy.Default (any_int 16)) in
   liftC (Lazy.ResolveInt [file; def])) (Lazy.New "app", [])
  = (16, (Lazy.addWarnings [ENOENT] (Lazy.withLoadAttempted true (Lazy.New "app")),
          [] ++ [prefsCall (Lazy.New "app"); call_Open "/home/u/.config/app/config.toml"])).
Proof.
  destruct (lazy_file_then_default furnished (Lazy.New "app") [] "beta"
              "/home/u/.config/app/config.toml" 16 eq_refl eq_refl eq_refl) as (Hfile & _);
    [lia |].
  destruct (lazy_file_then_default bare (Lazy.New "app") [] "beta"
              "/home/u/.config/app/config.toml" 16 eq_refl eq_refl eq_refl) as (_ & _ & Hwarn);
    [lia |].
  split.
  - apply (Hfile testTree 42); try reflexivity. lia.
  - apply (Hwarn ENOENT). reflexivity.
Defined.

(** ** The example program *)

Lemma liftC_run {C A} (m : M C A) (c : C) (l : list call) :
  liftC m (c, l) = (fst (m c), (snd (m c), l)).
Proof. unfold liftC. by destruct (m c). Qed.

Lemma FromEnv_run (h : Host) (key : string) (c : Eager.Config) (l : list call) :
  Eager.FromEnv h key (c, l) = (environ h !! key, (c, l ++ [call_LookupEnv key])).
Proof. unfold Eager.FromEnv, os_LookupEnv. run_io. by destruct (environ h !! key). Qed.

(** What [UserHomeDir] and [Executable] return and record. *)
Definition homeOf (h : Host) : option string * list error :=
  match os_UserHomeDir h with
  | (_, Some e) => (None, [homeError e])
  | (home, None) => (Some home, [])
  end.

Definition executableOf (h : Host) : option string * list error :=
  match os_Executable h with
  | (_, Some e) => (None, [executableError e])
  | (exe, None) => (Some (path_Dir h exe), [])
  end.

Lemma UserHomeDir_run (h : Host) (c : Eager.Config) (l : list call) :
  Eager.UserHomeDir h (c, l)
  = (fst (homeOf h), (Eager.addErrors (snd (homeOf h)) c, l ++ [call_UserHomeDir])).
Proof.
  unfold Eager.UserHomeDir, homeOf. run_io.
  destruct (os_UserHomeDir h) as [home [e|]]; [done | by rewrite Eager_addErrors_nil].
Qed.

Lemma Executable_run (h : Host) (c : Eager.Config) (l : list call) :
  Eager.Executable h (c, l)
  = (fst (executableOf h),
     (Eager.addErrors (snd (executableOf h)) c, l ++ [call_Executable])).
Proof.
  unfold Eager.Executable, executableOf. run_io.
  destruct (os_Executable h) as [exe [e|]]; [done | by rewrite Eager_addErrors_nil].
Qed.

Lemma ageDefault_run (h : Host) (c : Eager.Config) (l : list call) :
  example.ageDefault h (c, l)
  = let file := Eager.FromFile "age" c in
    let age := Eager.ResolveInt [environ h !! "USER_AGE"; fst file; Some (strconv.Itoa 16)]
                 (snd file) in
    (fst age, (snd age, l ++ [call_LookupEnv "USER_AGE"])).
Proof.
  unfold example.ageDefault.
  unfold bind at 1. rewrite FromEnv_run.
  unfold bind at 1. rewrite liftC_run.
  unfold bind at 1. rewrite liftC_run.
  rewrite liftC_run. reflexivity.
Qed.

Lemma debugDefault_run (U : gostrings.Unicode) (h : Host) (c : Eager.Config)
    (l : list call) :
  example.debugDefault U h (c, l)
  = let file := Eager.FromFile "debug" c in
    let debug := Eager.ResolveBool U [environ h !! "DEBUG"; fst file;
                                      Some (strconv.FormatBool false)] (snd file) in
    (fst debug, (snd debug, l ++ [call_LookupEnv "DEBUG"])).
Proof.
  unfold example.debugDefault.
  unfold bind at 1. rewrite FromEnv_run.
  unfold bind at 1. rewrite liftC_run.
  unfold bind at 1. rewrite liftC_run.
  rewrite liftC_run. reflexivity.
Qed.

Lemma baseDefault_run (h : Host) (c : Eager.Config) (l : list call) :
  example.baseDefault h (c, l)
  = let file := Eager.FromFile "home" c in
    let c1 := Eager.addErrors (snd (homeOf h) ++ snd (executableOf h)) (snd file) in
    let base := Eager.ResolveString
                  [environ h !! "APP_DIR"; fst file; fst (homeOf h); fst (executableOf h);
                   environ h !! "HOME"; Some "/home/meta"] c1 in
    (fst base,
     (snd base,
      l ++ [call_LookupEnv "APP_DIR"; call_UserHomeDir; call_Executable;
            call_LookupEnv "HOME"])).
Proof.
  unfold example.baseDefault.
  unfold bind at 1. rewrite FromEnv_run.
  unfold bind at 1. rewrite liftC_run.
  unfold bind at 1. rewrite UserHomeDir_run.
  unfold bind at 1. rewrite Executable_run.
  unfold bind at 1. rewrite FromEnv_run.
  unfold bind at 1. rewrite liftC_run.
  rewrite liftC_run. cbn [fst snd Eager.Default ret].
  rewrite Eager_addErrors_app, <- !app_assoc. reflexivity.
Qed.

Lemma ResolveInt_cons_error (s : string) (e : error) (v : Z) (rest : list (option string))
    (c : Eager.Config) :
  s <> "" -> parseInt 64 s = (v, Some e) ->
  Eager.ResolveInt (Some s :: rest) c
  = Eager.ResolveInt rest (Eager.addErrors [numericError s e] c).
Proof.
  intros Hs Hp. simpl. apply String.eqb_neq in Hs. by rewrite Hs, Hp.
Qed.

Lemma ResolveInt_cons_value (s : string) (v : Z) (rest : list (option string))
    (c : Eager.Config) :
  s <> "" -> parseInt 64 s = (v, None) ->
  Eager.ResolveInt (Some s :: rest) c = (v, c).
Proof.
  intros Hs Hp. simpl. apply String.eqb_neq in Hs. by rewrite Hs, Hp.
Qed.

Lemma ResolveInt_decimal_in (i : Z) (list pre rest : list (option string))
    (c : Eager.Config) :
  list = pre ++ Some (strconv.FormatInt10 i) :: rest ->
  - 2 ^ 63 <= i < 2 ^ 63 ->
  Forall (fun elem => blank elem = true) pre ->
  Eager.ResolveInt list c = (i, c).
Proof. intros ->. apply ResolveInt_decimal. Qed.

(** Rewrites a [ResolveInt] whose first usable candidate, after [pre], is
    the decimal text of [i]. *)
Ltac resolve_decimal i pre :=
  match goal with
  | |- context [Eager.ResolveInt ?L ?c] =>
      rewrite (ResolveInt_decimal_in i L pre (drop (S (length pre)) L) c eq_refl)
        by (done || lia || (repeat constructor; done));
      reflexivity
  end.

Lemma FromFile_absent (key : string) (c : Eager.Config) :
  (Eager.fileData c = None \/ exists t, Eager.fileData c = Some t /\ t !! key = None) ->
  Eager.FromFile key c = (None, c).
Proof.
  unfold Eager.FromFile, bind, get, toml.Has. by intros [-> | (t & -> & ->)].
Qed.

(** X12. The age of the example: the environment before the file, the
    file before the default.  A [USER_AGE] that is set, not empty and
    parses is the value, whatever the file holds.  With [USER_AGE] unset
    or empty, an integer under the key "age" of the file is the value;
    without one, the value is [16].  A [USER_AGE] that does not parse
    leaves one error and the value to the file. *)
Theorem age_precedence (h : Host) (c : Eager.Config) (l : list call) :
  (forall s v,
     environ h !! "USER_AGE" = Some s -> s <> "" -> parseInt 64 s = (v, None) ->
     example.ageDefault h (c, l)
     = (v, (snd (Eager.FromFile "age" c), l ++ [call_LookupEnv "USER_AGE"]))) /\
  (forall t i,
     blank (environ h !! "USER_AGE") = true ->
     Eager.fileData c = Some t -> t !! "age" = Some (any_int64 i) ->
     - 2 ^ 63 <= i < 2 ^ 63 ->
     example.ageDefault h (c, l) = (i, (c, l ++ [call_LookupEnv "USER_AGE"]))) /\
  (blank (environ h !! "USER_AGE") = true ->
   (Eager.fileData c = None \/ exists t, Eager.fileData c = Some t /\ t !! "age" = None) ->
   example.ageDefault h (c, l) = (16, (c, l ++ [call_LookupEnv "USER_AGE"]))) /\
  (forall s v e t i,
     environ h !! "USER_AGE" = Some s -> s <> "" -> parseInt 64 s = (v, Some e) ->
     Eager.fileData c = Some t -> t !! "age" = Some (any_int64 i) ->
     - 2 ^ 63 <= i < 2 ^ 63 ->
     example.ageDefault h (c, l)
     = (i, (Eager.addErrors [numericError s e] c, l ++ [call_LookupEnv "USER_AGE"]))).
Proof.
  split_and!.
  - intros s v Henv Hs Hp. rewrite ageDefault_run, Henv. cbv zeta.
    by rewrite (ResolveInt_cons_value s v).
  - intros t i Henv Ht Hkey Hi. rewrite ageDefault_run. cbv zeta.
    rewrite (FromFile_supported c t "age" (any_int64 i)) by done. cbn [fst snd Eager.toString ret].
    resolve_decimal i [environ h !! "USER_AGE"].
  - intros Henv Hfile. rewrite ageDefault_run. cbv zeta.
    rewrite FromFile_absent by done. cbn [fst snd].
    resolve_decimal 16 [environ h !! "USER_AGE"; @None string].
  - intros s v e t i Henv Hs Hp Ht Hkey Hi. rewrite ageDefault_run, Henv. cbv zeta.
    rewrite (FromFile_supported c t "age" (any_int64 i)) by done. cbn [fst snd Eager.toString ret].
    rewrite (ResolveInt_cons_error s e v) by done.
    resolve_decimal i (@nil (option string)).
Qed.

(** A host with the environment [env] and otherwise as [h]. *)
Definition withEnviron (env : gmap string string) (h : Host) : Host :=
  {| environ := env;
     os_Executable := os_Executable h;
     os_UserConfigDir := os_UserConfigDir h;
     os_UserHomeDir := os_UserHomeDir h;
     os_Stat := os_Stat h;
     os_IsNotExist := os_IsNotExist h;
     os_Open := os_Open h;
     file_Close := file_Close h;
     toml_LoadReader := toml_LoadReader h;
     filepath_Join := filepath_Join h;
     filepath_Dir := filepath_Dir h;
     path_Dir := path_Dir h |}.

(** The tree of the tests with an age in it. *)
Definition agedTree : gmap string any := <[ "age" := any_int64 42 ]> testTree.

Lemma age_precedence_witness :
  example.ageDefault (withEnviron {[ "USER_AGE" := "0x21" ]} furnished)
    (Eager.withFileData (Some agedTree) example.conf, [])
  = (33, (snd (Eager.FromFile "age" (Eager.withFileData (Some agedTree) example.conf)),
          [] ++ [call_LookupEnv "USER_AGE"])) /\
  example.ageDefault (withEnviron {[ "USER_AGE" := "" ]} furnished)
    (Eager.withFileData (Some agedTree) example.conf, [])
  = (42, (Eager.withFileData (Some agedTree) example.conf, [] ++ [call_LookupEnv "USER_AGE"])) /\
  example.ageDefault furnished (example.conf, [])
  = (16, (example.conf, [] ++ [call_LookupEnv "USER_AGE"])) /\
  example.ageDefault (withEnviron {[ "USER_AGE" := "old" ]} furnished)
    (Eager.withFileData (Some agedTree) example.conf, [])
  = (42, (Eager.addErrors
            [numericError "old" (NumError "ParseInt" "old" strconv.ErrSyntax)]
            (Eager.withFileData (Some agedTree) example.conf),
          [] ++ [call_LookupEnv "USER_AGE"])).
Proof.
  destruct (age_precedence (withEnviron {[ "USER_AGE" := "0x21" ]} furnished)
              (Eager.withFileData (Some agedTree) example.conf) []) as (Henv & _).
  destruct (age_precedence (withEnviron {[ "USER_AGE" := "" ]} furnished)
              (Eager.withFileData (Some agedTree) example.conf) []) as (_ & Hfile & _).
  destruct (age_precedence furnished example.conf []) as (_ & _ & Hdef & _).
  destruct (age_precedence (withEnviron {[ "USER_AGE" := "old" ]} furnished)
              (Eager.withFileData (Some agedTree) example.conf) []) as (_ & _ & _ & Hbad).
  split; [apply (Henv "0x21" 33); [reflexivity | discriminate | reflexivity] |].
  split; [apply (Hfile agedTree 42); [reflexivity | reflexivity | reflexivity | lia] |].
  split; [apply Hdef; [reflexivity | by left] |].
  apply (Hbad "old" 0 _ agedTree 42); [reflexivity | discriminate | reflexivity
                                      | reflexivity | reflexivity | lia].
Defined.

(** X13. The base directory of the example.  [APP_DIR], when set, is the
    value, the empty string included; after it come the key "home" of the
    file, the home directory, the directory of the executable, [HOME] and
    "/home/meta".  Every source is consulted before the choice is made:
    the four calls to the host are made in every case, and a home
    directory or an executable that cannot be found is recorded as an
    error even when a source before it gives the value. *)
Theorem base_precedence (h : Host) (c : Eager.Config) (l : list call) :
  let file := Eager.FromFile "home" c in
  let c1 := Eager.addErrors (snd (homeOf h) ++ snd (executableOf h)) (snd file) in
  let l1 := l ++ [call_LookupEnv "APP_DIR"; call_UserHomeDir; call_Executable;
                  call_LookupEnv "HOME"] in
  snd (example.baseDefault h (c, l)) = (c1, l1) /\
  (forall s, environ h !! "APP_DIR" = Some s -> fst (example.baseDefault h (c, l)) = s) /\
  (environ h !! "APP_DIR" = None ->
   forall s, fst file = Some s -> fst (example.baseDefault h (c, l)) = s) /\
  (environ h !! "APP_DIR" = None -> fst file = None ->
   forall home, os_UserHomeDir h = (home, None) ->
     fst (example.baseDefault h (c, l)) = home) /\
  (environ h !! "APP_DIR" = None -> fst file = None ->
   forall home e exe, os_UserHomeDir h = (home, Some e) -> os_Executable h = (exe, None) ->
     fst (example.baseDefault h (c, l)) = path_Dir h exe) /\
  (environ h !! "APP_DIR" = None -> fst file = None ->
   forall home e exe e', os_UserHomeDir h = (home, Some e) ->
     os_Executable h = (exe, Some e') ->
     fst (example.baseDefault h (c, l)) = default "/home/meta" (environ h !! "HOME")).
Proof.
  intros file c1 l1. rewrite baseDefault_run. fold file. fold c1. fold l1. cbv zeta.
  assert (Hsnd : forall list, (exists s, In (Some s) list) ->
            snd (Eager.ResolveString list c1) = c1).
  { intros list [s Hin]. induction list as [|elem rest IH]; [done |].
    destruct elem as [s'|]; [done |].
    apply IH. by destruct Hin. }
  split_and!.
  - cbn [snd]. f_equal. apply Hsnd. exists "/home/meta". simpl. auto 10.
  - by intros s ->.
  - by intros -> s ->.
  - intros -> -> home Hhome. unfold homeOf. by rewrite Hhome.
  - intros -> -> home e exe Hhome Hexe. unfold homeOf, executableOf. by rewrite Hhome, Hexe.
  - intros -> -> home e exe e' Hhome Hexe. unfold homeOf, executableOf.
    rewrite Hhome, Hexe. by destruct (environ h !! "HOME").
Qed.

Lemma base_precedence_witness :
  fst (example.baseDefault (withEnviron {[ "APP_DIR" := "/srv/app" ]} hostile)
         (example.conf, [])) = "/srv/app" /\
  snd (example.baseDefault (withEnviron {[ "APP_DIR" := "/srv/app" ]} hostile)
         (example.conf, []))
  = (Eager.addErrors
       [homeError (errors_New "$HOME is not defined");
        executableError (errors_New "cannot find executable")] example.conf,
     [call_LookupEnv "APP_DIR"; call_UserHomeDir; call_Executable; call_LookupEnv "HOME"]) /\
  fst (example.baseDefault furnished (example.conf, [])) = "/home/u" /\
  fst (example.baseDefault hostile (example.conf, [])) = "/home/meta".
Proof.
  destruct (base_precedence (withEnviron {[ "APP_DIR" := "/srv/app" ]} hostile)
              example.conf []) as (Hstate & Henv & _).
  destruct (base_precedence furnished example.conf []) as (_ & _ & _ & Hhome & _).
  destruct (base_precedence hostile example.conf []) as (_ & _ & _ & _ & _ & Hlast).
  split; [apply Henv; reflexivity |].
  split; [exact Hstate |].
  split; [apply Hhome; reflexivity |].
  exact (Hlast eq_refl eq_refl _ _ _ _ eq_refl eq_refl).
Defined.

(** The two places [locate] computes, and the errors of computing them. *)
Definition placeFromExecutable (h : Host) (c : Eager.Config) : string * list error :=
  match os_Executable h with
  | (_, Some e) => ("", [e])
  | (dir, None) => (filepath_Join h [filepath_Dir h dir; Eager.FileBase c +:+ ".toml"], [])
  end.

Definition placeFromHome (h : Host) (c : Eager.Config) : string * list error :=
  match os_UserConfigDir h with
  | (_, Some e) => ("", [e])
  | (dir, None) =>
      (filepath_Join h [dir; Eager.AppName c; Eager.FileBase c +:+ ".toml"], [])
  end.

Lemma locate_run (h : Host) (c : Eager.Config) (l : list call) :
  example.locate h (c, l)
  = Eager.FindAndLoad h
      [fst (placeFromExecutable h c); fst (placeFromHome h c); "/tmp/test.toml"]
      (Eager.addErrors (snd (placeFromExecutable h c) ++ snd (placeFromHome h c)) c,
       l ++ [call_Executable; call_UserConfigDir]).
Proof.
  unfold example.locate, Eager.FileFromExecutable, Eager.FileFromHome,
    placeFromExecutable, placeFromHome.
  run_io.
  destruct (os_Executable h) as [dir [e|]]; destruct (os_UserConfigDir h) as [dir' [e'|]];
    simpl; rewrite ?Eager_addErrors_nil, <- ?app_assoc; reflexivity.
Qed.

(** X14. The example on a host that has the three directories, no
    backing file in any of the three places and none of [DEBUG],
    [APP_DIR] and [USER_AGE]: nothing is opened, no error is recorded, and
    the flags get the defaults [false], the home directory and [16];
    with a command line that sets no flag these are what is logged. *)
Theorem loadConfig_without_sources (U : gostrings.Unicode) (h : Host)
    (flag_Parse : bool * string * Z -> option (bool * string * Z))
    (exe cfg home : string) :
  os_Executable h = (exe, None) ->
  os_UserConfigDir h = (cfg, None) ->
  os_UserHomeDir h = (home, None) ->
  Forall (fun p => usable h p = false)
    [filepath_Join h [filepath_Dir h exe; "config.toml"];
     filepath_Join h [cfg; "MyAppName"; "config.toml"]; "/tmp/test.toml"] ->
  environ h !! "DEBUG" = None ->
  environ h !! "APP_DIR" = None ->
  environ h !! "USER_AGE" = None ->
  flag_Parse (false, home, 16) = Some (false, home, 16) ->
  example.main U h flag_Parse
  = ([example.log_Printf "debug = %v" [a_string "false"];
      example.log_Printf "baseDir = %v" [a_string home];
      example.log_Printf "age = %v" [a_string "16"]],
     (example.conf,
      [call_Executable; call_UserConfigDir]
        ++ flat_map (asked h)
             [filepath_Join h [filepath_Dir h exe; "config.toml"];
              filepath_Join h [cfg; "MyAppName"; "config.toml"]; "/tmp/test.toml"]
        ++ [call_LookupEnv "DEBUG"; call_LookupEnv "APP_DIR"; call_UserHomeDir;
            call_Executable; call_LookupEnv "HOME"; call_LookupEnv "USER_AGE"])).
Proof.
  intros Hexe Hcfg Hhome Hnone Hdebug Happ Hage Hparse.
  unfold example.main, example.loadConfig.
  unfold bind at 1. rewrite locate_run.
  unfold placeFromExecutable, placeFromHome. rewrite Hexe, Hcfg. cbn [fst snd app].
  rewrite Eager_addErrors_nil.
  rewrite FindAndLoad_run, Find_none by exact Hnone.
  cbn [String.eqb negb].
  unfold bind at 1. rewrite debugDefault_run, Hdebug. cbv zeta.
  rewrite FromFile_absent by (by left). cbn [fst snd].
  change (Eager.ResolveBool U [None; None; Some (strconv.FormatBool false)] example.conf)
    with (Eager.ResolveBool U ([None; None] ++ [Some (strconv.FormatBool false)]) example.conf).
  rewrite (ResolveBool_FormatBool U false [None; None] [] example.conf);
    [| simpl; auto | simpl; auto | repeat constructor | repeat constructor].
  cbn [fst snd].
  unfold bind at 1. rewrite baseDefault_run, Happ. cbv zeta.
  rewrite FromFile_absent by (by left).
  unfold homeOf, executableOf. rewrite Hhome, Hexe. cbn [fst snd app Eager.ResolveString ret].
  rewrite Eager_addErrors_nil.
  unfold bind at 1. rewrite ageDefault_run, Hage. cbv zeta.
  rewrite FromFile_absent by (by left). cbn [fst snd].
  match goal with
  | |- context [Eager.ResolveInt ?L ?c] =>
      rewrite (ResolveInt_decimal_in 16 L [None; None] [] c eq_refl);
        [| lia | repeat constructor]
  end.
  cbn [fst snd]. rewrite Hparse.
  unfold bind, liftC, get, ret. cbn [fst snd]. simpl.
  do 2 f_equal. by rewrite <- !app_assoc.
Qed.

Lemma loadConfig_without_sources_witness :
  fst (example.main gostrings.asciiOnly bare Some)
  = [example.log_Printf "debug = %v" [a_string "false"];
     example.log_Printf "baseDir = %v" [a_string "/home/u"];
     example.log_Printf "age = %v" [a_string "16"]] /\
  fst (snd (example.main gostrings.asciiOnly bare Some)) = example.conf /\
  opens (snd (snd (example.main gostrings.asciiOnly bare Some))) = 0%nat.
Proof.
  assert (Hnone : Forall (fun p => usable bare p = false)
                    ["/opt/app/config.toml"; "/home/u/.config/MyAppName/config.toml";
                     "/tmp/test.toml"]) by repeat constructor.
  rewrite (loadConfig_without_sources gostrings.asciiOnly bare Some
             "/opt/app/app" "/home/u/.config" "/home/u"
             eq_refl eq_refl eq_refl Hnone eq_refl eq_refl eq_refl eq_refl).
  repeat split.
Defined.

(** ** Lists that end in a default *)

(** Errors other than the "missing default" one of an exhausted list. *)
Definition recorded (es : list error) : Prop :=
  Forall (fun e => isMissingDefault e = false) es.

Lemma ResolveString_present (list : list (option string)) (c : Eager.Config) :
  (exists s, In (Some s) list) -> snd (Eager.ResolveString list c) = c.
Proof.
  intros [s Hin]. induction list as [|elem rest IH]; [done |].
  destruct elem as [s'|]; [done |]. apply IH. by destruct Hin.
Qed.

Lemma ResolveBool_not_exhausted (U : gostrings.Unicode) (list : list (option string))
    (c : Eager.Config) :
  (exists elem, In elem list /\ blank elem = false) ->
  exists es, snd (Eager.ResolveBool U list c) = Eager.addErrors es c /\ recorded es.
Proof.
  intros (elem & Hin & Hb). induction list as [|elem' rest IH]; [done |].
  destruct (blank elem') eqn:Hb'.
  - rewrite ResolveBool_cons_blank by done. apply IH.
    destruct Hin as [-> | Hin]; [congruence | done].
  - destruct elem' as [s|]; [| done]. simpl in Hb'.
    pose proof (ResolveBool_first U [] rest s c (List.Forall_nil _)) as Hfirst.
    cbn [app] in Hfirst. rewrite Hfirst by (by apply String.eqb_neq).
    destruct (fst (Eager.stringToBool U s c)) as [b [|]]; cbn [snd].
    + exists []. split; [by rewrite Eager_addErrors_nil | constructor].
    + exists [boolError s]. split; [done | by repeat constructor].
Qed.

Lemma walk_not_exhausted {V : Type} (parse : string -> V * option error) (zero : V)
    (missing : error) (list : list (option string)) (c : Eager.Config) :
  (exists elem, In elem list /\ resolves parse elem = true) ->
  exists es, snd (walk parse Eager.addErrors zero missing list c) = Eager.addErrors es c /\
             recorded es.
Proof.
  intros (elem & Hin & Hr). revert c.
  induction list as [|elem' rest IH]; intros c; [done |].
  destruct (resolves parse elem') eqn:Hr'.
  - exists []. split; [| constructor]. rewrite Eager_addErrors_nil.
    destruct elem' as [s|]; [| done]. simpl in *.
    destruct (String.eqb s ""); [done |]. simpl in *.
    by destruct (parse s) as [val [e|]].
  - rewrite (walk_cons_passed parse Eager.addErrors zero missing Eager_addErrors_nil) by done.
    destruct (IH (ltac:(destruct Hin as [-> | Hin]; [congruence | done]))
                (Eager.addErrors (passed parse elem') c)) as (es & Hes & Hrec).
    exists (passed parse elem' ++ es). split; [by rewrite Hes, Eager_addErrors_app |].
    apply Forall_app. split; [| done].
    destruct elem' as [s|]; [| constructor]. simpl.
    destruct (String.eqb s ""); [constructor |].
    destruct (snd (parse s)); by repeat constructor.
Qed.

Lemma recorded_app (es1 es2 : list error) : recorded es1 -> recorded es2 -> recorded (es1 ++ es2).
Proof. intros H1 H2. apply Forall_app. by split. Qed.

Lemma FromFile_recorded (key : string) (c : Eager.Config) :
  exists es, snd (Eager.FromFile key c) = Eager.addErrors es c /\ recorded es.
Proof.
  unfold Eager.FromFile, bind, get, ret.
  destruct (Eager.fileData c) as [t|];
    [| exists []; split; [by rewrite Eager_addErrors_nil | constructor]].
  destruct (toml.Has t key);
    [| exists []; split; [by rewrite Eager_addErrors_nil | constructor]].
  destruct (supported (toml.Get t key)) eqn:Hx.
  - exists []. pose proof (toString_supported _ c Hx) as Hc.
    destruct (Eager.toString (toml.Get t key) c) as [x c']. simpl in *. subst c'.
    split; [by rewrite Eager_addErrors_nil | constructor].
  - rewrite toString_unsupported by done. eexists [_]. split; [done |].
    by repeat constructor.
Qed.

(** X15. In the example no setting can come out as the zero value of an
    exhausted list: each of the three lists ends in a default its resolver
    accepts.  Whatever the host and the context, the errors the three
    resolutions append are errors of values and sources (a value of an
    unsupported type, a text that does not coerce, a directory that cannot
    be found), never a "missing default" one. *)
Theorem example_never_exhausts (U : gostrings.Unicode) (h : Host) (c : Eager.Config)
    (l : list call) :
  (exists es, fst (snd (example.debugDefault U h (c, l))) = Eager.addErrors es c /\
              recorded es) /\
  (exists es, fst (snd (example.baseDefault h (c, l))) = Eager.addErrors es c /\
              recorded es) /\
  (exists es, fst (snd (example.ageDefault h (c, l))) = Eager.addErrors es c /\
              recorded es).
Proof.
  split_and!.
  - rewrite debugDefault_run. cbv zeta. cbn [fst snd].
    destruct (FromFile_recorded "debug" c) as (es1 & -> & Hes1).
    destruct (ResolveBool_not_exhausted U
                [environ h !! "DEBUG"; fst (Eager.FromFile "debug" c);
                 Some (strconv.FormatBool false)] (Eager.addErrors es1 c))
      as (es2 & -> & Hes2).
    { exists (Some (strconv.FormatBool false)). split; [simpl; auto | done]. }
    exists (es1 ++ es2). split; [by rewrite Eager_addErrors_app | by apply recorded_app].
  - rewrite baseDefault_run. cbv zeta. cbn [fst snd].
    rewrite ResolveString_present by (exists "/home/meta"; simpl; auto 10).
    destruct (FromFile_recorded "home" c) as (es1 & -> & Hes1).
    eexists. split; [by rewrite Eager_addErrors_app |].
    apply recorded_app; [done |]. apply recorded_app.
    + unfold homeOf. destruct (os_UserHomeDir h) as [home [e|]]; by repeat constructor.
    + unfold executableOf. destruct (os_Executable h) as [exe [e|]]; by repeat constructor.
  - rewrite ageDefault_run. cbv zeta. cbn [fst snd].
    destruct (FromFile_recorded "age" c) as (es1 & -> & Hes1).
    rewrite ResolveInt_walk.
    destruct (walk_not_exhausted (parseInt 64) 0 (Errorf "missing default int value" [])
                [environ h !! "USER_AGE"; fst (Eager.FromFile "age" c);
                 Some (strconv.Itoa 16)] (Eager.addErrors es1 c))
      as (es2 & -> & Hes2).
    { exists (Some (strconv.Itoa 16)). split; [simpl; auto | done]. }
    exists (es1 ++ es2). split; [by rewrite Eager_addErrors_app | by apply recorded_app].
Qed.

(** ** Resolution does not look at what was recorded before *)

Lemma walk_history {C V : Type} (parse : string -> V * option error)
    (addErrors : list error -> C -> C) (zero : V) (missing : error)
    (list : list (option string)) :
  (forall c, addErrors [] c = c) ->
  (forall es1 es2 c, addErrors es2 (addErrors es1 c) = addErrors (es1 ++ es2) c) ->
  exists v es, forall c, walk parse addErrors zero missing list c = (v, addErrors es c).
Proof.
  intros Hnil Happ.
  induction list as [|elem rest (v & es & IH)]; [by exists zero, [missing] |].
  assert (Hskip : exists v es, forall c,
            walk parse addErrors zero missing rest c = (v, addErrors es c))
    by (by exists v, es).
  simpl. destruct elem as [s|]; [| exact Hskip].
  destruct (negb (String.eqb s "")); [| exact Hskip].
  destruct (parse s) as [val [e|]].
  - exists v, ([numericError s e] ++ es). intros c. by rewrite IH, Happ.
  - exists val, []. intros c. by rewrite Hnil.
Qed.

Lemma ResolveString_history (list : list (option string)) :
  exists v es, forall c, Eager.ResolveString list c = (v, Eager.addErrors es c).
Proof.
  induction list as [|elem rest IH]; [by exists "", [Errorf "missing default string value" []] |].
  destruct elem as [s|]; [| exact IH].
  exists s, []. intros c. by rewrite Eager_addErrors_nil.
Qed.

(** Two contexts with the same vocabularies. *)
Definition sameVocabulary (c c' : Eager.Config) : Prop :=
  Eager.TrueStrings c' = Eager.TrueStrings c /\ Eager.FalseStrings c' = Eager.FalseStrings c.

Lemma ResolveBool_history (U : gostrings.Unicode) (list : list (option string))
    (c : Eager.Config) :
  exists v es, forall c', sameVocabulary c c' ->
    Eager.ResolveBool U list c' = (v, Eager.addErrors es c').
Proof.
  induction list as [|elem rest IH];
    [by exists false, [Errorf "missing default bool value" []] |].
  destruct elem as [s|]; [| exact IH].
  destruct (String.eqb s "") eqn:Hs.
  { destruct IH as (v & es & IH). exists v, es. intros c' Hc'. simpl. rewrite Hs. by apply IH. }
  apply String.eqb_neq in Hs.
  exists (fst (fst (Eager.stringToBool U s c))),
         (if snd (fst (Eager.stringToBool U s c)) then [] else [boolError s]).
  intros c' [Ht Hf].
  pose proof (ResolveBool_first U [] rest s c' (List.Forall_nil _) Hs) as Hfirst.
  cbn [app] in Hfirst. rewrite Hfirst, !stringToBool_run, Ht, Hf. simpl.
  destruct (existsb _ (Eager.TrueStrings c)); [by rewrite Eager_addErrors_nil |].
  destruct (existsb _ (Eager.FalseStrings c)); [by rewrite Eager_addErrors_nil | done].
Qed.

(** X16. What a resolver returns and which errors it appends depend on
    its list alone, for [ResolveBool] on the list and the vocabularies:
    not on the errors recorded before, nor on the backing file, nor on any
    other field of the context.  An earlier failure never changes a later
    resolution. *)
Theorem resolvers_ignore_history (U : gostrings.Unicode) (list : list (option string))
    (c0 : Eager.Config) :
  (exists v es, forall c, Eager.ResolveString list c = (v, Eager.addErrors es c)) /\
  (exists v es, forall c, Eager.ResolveInt list c = (v, Eager.addErrors es c)) /\
  (exists v es, forall c, Eager.ResolveFloat64 list c = (v, Eager.addErrors es c)) /\
  (exists v es, forall c, sameVocabulary c0 c ->
     Eager.ResolveBool U list c = (v, Eager.addErrors es c)) /\
  (exists v es, forall c, Lazy.ResolveInt list c = (v, Lazy.addErrors es c)).
Proof.
  split_and!.
  - apply ResolveString_history.
  - destruct (walk_history (parseInt 64) Eager.addErrors 0
                (Errorf "missing default int value" []) list
                Eager_addErrors_nil Eager_addErrors_app) as (v & es & H).
    exists v, es. intros c. by rewrite ResolveInt_walk.
  - destruct (walk_history (fun s => strconv.ParseFloat s 64) Eager.addErrors (S754_zero false)
                (Errorf "missing default int value" []) list
                Eager_addErrors_nil Eager_addErrors_app) as (v & es & H).
    exists v, es. intros c. by rewrite ResolveFloat64_walk.
  - apply ResolveBool_history.
  - destruct (walk_history (parseInt 32) Lazy.addErrors 0
                (Errorf "missing default int value" []) list
                Lazy_addErrors_nil Lazy_addErrors_app) as (v & es & H).
    exists v, es. intros c. by rewrite Lazy_ResolveInt_walk.
Qed.

(** ** A key that is not there *)

(** X17. [FromFile] returns absent in two cases only: no backing file
    has been loaded, or the file has no such key.  In both it leaves the
    context as it was: a missing key is no error.  In every other case
    the candidate is present.  The same holds in the later revision once
    the load has been attempted. *)
Theorem FromFile_absent_iff (h : Host) (key : string) (c : Eager.Config)
    (c' : Lazy.Config) (l : list call) :
  (fst (Eager.FromFile key c) = None <->
   Eager.fileData c = None \/ exists t, Eager.fileData c = Some t /\ t !! key = None) /\
  (fst (Eager.FromFile key c) = None -> Eager.FromFile key c = (None, c)) /\
  (Lazy.loadAttempted c' = true ->
   (fst (Lazy.FromFile h key (c', l)) = None <->
    Lazy.fileData c' = None \/ exists t, Lazy.fileData c' = Some t /\ t !! key = None) /\
   (fst (Lazy.FromFile h key (c', l)) = None -> Lazy.FromFile h key (c', l) = (None, (c', l)))).
Proof.
  assert (He : fst (Eager.FromFile key c) = None <->
               Eager.fileData c = None \/
               exists t, Eager.fileData c = Some t /\ t !! key = None).
  { split; [| intros H; by rewrite FromFile_absent].
    unfold Eager.FromFile, bind, get, ret, toml.Has.
    destruct (Eager.fileData c) as [t|]; [| by left].
    destruct (t !! key) as [v|] eqn:Hkey; [| right; by exists t].
    simpl. by destruct (Eager.toString _ c). }
  split; [exact He |].
  split; [intros H; apply FromFile_absent; by apply He |].
  intros Hc.
  assert (Hl : fst (Lazy.FromFile h key (c', l)) = None <->
               Lazy.fileData c' = None \/
               exists t, Lazy.fileData c' = Some t /\ t !! key = None).
  { rewrite FromFile_run, Hc. cbn [fst].
    split; [| intros H; by rewrite lookup_missing].
    unfold lookup, toml.Has.
    destruct (Lazy.fileData c') as [t|]; [| by left].
    destruct (t !! key) as [v|] eqn:Hkey; [| right; by exists t].
    simpl. by destruct (Lazy.toString _ c'). }
  split; [exact Hl |].
  intros H. rewrite FromFile_run, Hc. by rewrite lookup_missing by (by apply Hl).
Qed.

Lemma FromFile_absent_iff_witness :
  Lazy.FromFile furnished "alpha" missed = (None, (fst missed, snd missed)).
Proof.
  destruct (FromFile_absent_iff furnished "alpha" (Eager.New "app") (fst missed) (snd missed))
    as (_ & _ & Hlazy).
  destruct (Hlazy eq_refl) as [Hiff Hsame].
  apply Hsame, Hiff. by left.
Defined.

(** ** The file next to the executable *)




(** ** From the search for the file to the value *)

Lemma FindAndLoad_found (h : Host) (pre post : list string) (p : string)
    (c : Eager.Config) (l : list call) :
  Forall (fun elem => usable h elem = false) pre ->
  usable h p = true ->
  Eager.FindAndLoad h (pre ++ p :: post) (c, l)
  = (p, snd (Eager.Load h p (c, l ++ flat_map (asked h) pre ++ [call_Stat p]))).
Proof.
  intros Hpre Hp. rewrite FindAndLoad_run, Find_first by done.
  by rewrite (usable_not_empty h p Hp).
Qed.

(** X19. The first revision from end to end: [FindAndLoad], then a
    setting resolved from the file.  Where the first usable path opens,
    parses and closes, an integer under the key is the value resolved and
    nothing is recorded.  Where that file does not parse, the tree the
    context held before is the one still read: a failed load records its
    error and replaces nothing. *)
Theorem load_then_resolve (h : Host) (c : Eager.Config) (l : list call)
    (pre post : list string) (p key : string) (i : Z) :
  Forall (fun elem => usable h elem = false) pre ->
  usable h p = true ->
  os_Open h p = None ->
  - 2 ^ 63 <= i < 2 ^ 63 ->
  let setting :=
    Eager.FindAndLoad h (pre ++ p :: post);;
    let* file := liftC (Eager.FromFile key) in
    liftC (Eager.ResolveInt [file]) in
  let l1 := l ++ flat_map (asked h) pre
              ++ [call_Stat p; call_Open p; call_LoadReader p; call_Close p] in
  (forall t,
     toml_LoadReader h p = inl t -> file_Close h p = None ->
     t !! key = Some (any_int64 i) ->
     setting (c, l) = (i, (Eager.withFileData (Some t) c, l1))) /\
  (forall e old,
     toml_LoadReader h p = inr e -> file_Close h p = None ->
     Eager.fileData c = Some old -> old !! key = Some (any_int64 i) ->
     setting (c, l) = (i, (Eager.addErrors [e] c, l1))).
Proof.
  intros Hpre Hp Ho Hi setting l1. subst setting l1.
  pose proof (FindAndLoad_found h pre post p c l Hpre Hp) as Hfound.
  rewrite Load_run, Ho in Hfound. cbn [snd] in Hfound.
  split.
  - intros t Ht Hcl Hkey. rewrite Ht, Hcl in Hfound. cbn [errorOf] in Hfound.
    rewrite Eager_addErrors_nil in Hfound.
    unfold bind at 1. rewrite Hfound.
    unfold bind at 1. rewrite liftC_run.
    rewrite (FromFile_supported _ t key (any_int64 i)) by done.
    rewrite liftC_run. cbn [fst snd Eager.toString ret].
    rewrite (ResolveInt_decimal_in i _ [] [] _ eq_refl) by (done || constructor).
    cbn [fst snd]. do 2 f_equal. by rewrite <- !app_assoc.
  - intros e old Ht Hcl Hdata Hkey. rewrite Ht, Hcl in Hfound. cbn [errorOf] in Hfound.
    rewrite Eager_addErrors_nil in Hfound.
    unfold bind at 1. rewrite Hfound.
    unfold bind at 1. rewrite liftC_run.
    rewrite (FromFile_supported _ old key (any_int64 i)) by done.
    rewrite liftC_run. cbn [fst snd Eager.toString ret].
    rewrite (ResolveInt_decimal_in i _ [] [] _ eq_refl) by (done || constructor).
    cbn [fst snd]. do 2 f_equal. by rewrite <- !app_assoc.
Qed.

Lemma load_then_resolve_witness :
  (Eager.FindAndLoad testHost (["/non_existent_dir"] ++ testFile :: []);;
   let* file := liftC (Eager.FromFile "beta") in
   liftC (Eager.ResolveInt [file])) (Eager.New "app", [])
  = (42, (Eager.withFileData (Some testTree) (Eager.New "app"),
          [] ++ flat_map (asked testHost) ["/non_existent_dir"]
             ++ [call_Stat testFile; call_Open testFile; call_LoadReader testFile;
                 call_Close testFile])).
Proof.
  destruct (load_then_resolve testHost (Eager.New "app") [] ["/non_existent_dir"] []
              testFile "beta" 42) as (Hok & _);
    [repeat constructor | reflexivity | reflexivity | lia |].
  apply (Hok testTree); reflexivity.
Defined.

(** ** The tests of the repository, run on the model *)

(** [conf] of [TestMain], before and after its [FindAndLoad]. *)
Definition conf0 : Eager.Config :=
  {| Eager.AppName := "MyAppName";
     Eager.FileBase := "config";
     Eager.Location := 0;
     Eager.fileData := None;
     Eager.Errors := [];
     Eager.TrueStrings := ["true"; "y"];
     Eager.FalseStrings := ["false"; "no"] |}.

Definition conf : Eager.Config :=
  fst (snd (Eager.FindAndLoad testHost
              ["/non_existent_dir"; "/tmpnon_existent_file.toml"; testFile] (conf0, []))).

Example TestMain_FindAndLoad :
  Eager.FindAndLoad testHost
    ["/non_existent_dir"; "/tmpnon_existent_file.toml"; testFile] (conf0, [])
  = (testFile,
     (Eager.withFileData (Some testTree) conf0,
      [call_Stat "/non_existent_dir"; call_Stat "/tmpnon_existent_file.toml";
       call_Stat testFile; call_Open testFile; call_LoadReader testFile;
       call_Close testFile])).
Proof. reflexivity. Qed.

Example TestConfig_FromFile :
  map (fun key => fst (Eager.FromFile key conf)) ["alpha"; "beta"; "gamma"; "delta"; "zeta"]
  = [Some "Some string"; Some "42"; Some "true"; Some "3.14159"; None].
Proof. vm_compute. reflexivity. Qed.

(** The value a resolver returns and the number of errors it leaves. *)
Definition outcome {A} (r : A * Eager.Config) : A * nat :=
  (fst r, length (Eager.Errors (snd r))).

Example TestConfig_ResolveString :
  outcome (Eager.ResolveString [Some "one"] (Eager.New "ResolveString")) = ("one", 0%nat) /\
  outcome (Eager.ResolveString [None; Some "two"] (Eager.New "ResolveString"))
  = ("two", 0%nat) /\
  outcome (Eager.ResolveString [None; None; Some "value with spaces"]
             (Eager.New "ResolveString"))
  = ("value with spaces", 0%nat) /\
  outcome (Eager.ResolveString [None; None; Some "2.71828"] (Eager.New "ResolveString"))
  = ("2.71828", 0%nat) /\
  outcome (Eager.ResolveString [None; None] (Eager.New "ResolveString")) = ("", 1%nat).
Proof. repeat split. Qed.

Example TestConfig_toString :
  fst (Eager.toString (any_string "test value") conf) = "test value" /\
  fst (Eager.toString (any_bool true) conf) = "true" /\
  fst (Eager.toString (any_int 47) conf) = "47".
Proof. repeat split. Qed.

Example TestConfig_ResolveInt :
  outcome (Eager.ResolveInt [Some "1"] (Eager.New "ResolveInt")) = (1, 0%nat) /\
  outcome (Eager.ResolveInt [None; Some "0x2f"] (Eager.New "ResolveInt")) = (47, 0%nat) /\
  outcome (Eager.ResolveInt [None; None; Some ""] (Eager.New "ResolveInt")) = (0, 1%nat) /\
  outcome (Eager.ResolveInt [None; None; Some "2.612"] (Eager.New "ResolveInt"))
  = (2, 0%nat) /\
  outcome (Eager.ResolveInt [None; None; Some "a"; Some "2"] (Eager.New "ResolveInt"))
  = (2, 1%nat).
Proof. repeat split. Qed.

Example TestConfig_ResolveFloat :
  outcome (Eager.ResolveFloat64 [Some "1"] (Eager.New "ResolveInt"))
  = (S754_finite false (2 ^ 52) (-52), 0%nat) /\
  outcome (Eager.ResolveFloat64 [None; Some "3.14159"] (Eager.New "ResolveInt"))
  = (S754_finite false 7074231776675438 (-51), 0%nat) /\
  outcome (Eager.ResolveFloat64 [None; None; Some "-1"] (Eager.New "ResolveInt"))
  = (S754_finite true (2 ^ 52) (-52), 0%nat) /\
  outcome (Eager.ResolveFloat64 [None; None; Some "-2.612"] (Eager.New "ResolveInt"))
  = (S754_finite true 5881701113345868 (-51), 0%nat) /\
  outcome (Eager.ResolveFloat64 [None; None; Some "a"; Some "2"] (Eager.New "ResolveInt"))
  = (S754_finite false (2 ^ 52) (-51), 1%nat).
Proof. repeat split. Qed.

Example TestConfig_stringToBool :
  map (fun input => fst (Eager.stringToBool gostrings.asciiOnly input conf))
    ["true"; "false"; "y"; "Y"; "no"; "No"; "Maybe"]
  = [(true, true); (false, true); (true, true); (true, true); (false, true);
     (false, true); (false, false)].
Proof. reflexivity. Qed.

Example TestConfig_ResolveBool :
  outcome (Eager.ResolveBool gostrings.asciiOnly [None; None; Some "false"; Some "true"] conf)
  = (false, 0%nat) /\
  outcome (Eager.ResolveBool gostrings.asciiOnly [None; None; Some "true"; Some "false"] conf)
  = (true, 0%nat) /\
  outcome (Eager.ResolveBool gostrings.asciiOnly [Some "Y"] conf) = (true, 0%nat).
Proof. repeat split. Qed.

Example TestConfig_FromEnv :
  fst (Eager.FromEnv testHost "MY_ENV_VAR" (conf, [])) = Some "some bytes" /\
  fst (Eager.FromEnv testHost "MY_BLANK_ENV_VAR" (conf, [])) = Some "" /\
  fst (Eager.FromEnv testHost "MY_UNSET_ENV_VAR" (conf, [])) = None.
Proof. repeat split. Qed.

Example TestConfig_Default :
  fst (Eager.Default (any_string "one value") conf) = Some "one value" /\
  fst (Eager.Default (any_int 2) conf) = Some "2" /\
  fst (Eager.Default (any_bool true) conf) = Some "true".
Proof. repeat split. Qed.

(** The scenario of the specification: resolving the key "beta" as an
    integer gives [42] and no error, the missing key "zeta" gives [0] and
    one error. *)
Example resolve_from_file :
  outcome (Eager.ResolveInt [fst (Eager.FromFile "beta" conf)] conf) = (42, 0%nat) /\
  outcome (Eager.ResolveInt [fst (Eager.FromFile "zeta" conf)] conf) = (0, 1%nat).
Proof. split; vm_compute; reflexivity. Qed.
